(** * The syntax-tree engine of the OSL compiler front end (liboslcomp/ast.cpp)

    A shallow embedding of the node constructors of [ast.cpp] and of the
    node destructor, and the properties of them that the specification
    states.  Every constructor of the C++ code runs its semantic analysis
    against the compiler it is given (symbol table, diagnostic sink, source
    cursor); here a constructor is a function in a state-and-abort monad
    over the compiler record. *)

From Stdlib Require Import ZArith List String Ascii Bool Lia.
From Stdlib Require Import DecimalString.
From Stdlib Require Import Floats.SpecFloat.
Import ListNotations.

#[global] Set Warnings "-register-all".

Local Open Scope string_scope.
Local Open Scope Z_scope.

(** ** The C++ [int]: 32-bit two's complement *)

Module CInt.

Definition int_min : Z := - 2 ^ 31.
Definition int_max : Z := 2 ^ 31 - 1.

(** The values an [int] holds. *)
Definition in_range (z : Z) : Prop := int_min <= z <= int_max.

(** Reduction of an exact result to the 32 bits the machine keeps.  C++
    leaves signed overflow undefined; the compiled code wraps. *)
Definition wrap (z : Z) : Z := (z + 2 ^ 31) mod 2 ^ 32 - 2 ^ 31.

Definition mul (a b : Z) : Z := wrap (a * b).
Definition add (a b : Z) : Z := wrap (a + b).
Definition sub (a b : Z) : Z := wrap (a - b).

(** [/] and [%] of C++ truncate towards zero.  The caller tests the
    divisor first.  At [INT_MIN / -1] and [INT_MIN % -1] the quotient is
    no [int]: C++ leaves both undefined and the division instruction of
    the target traps, where these definitions give a wrapped value; the
    properties below leave that pair out. *)
Definition div (a b : Z) : Z := wrap (Z.quot a b).
Definition rem (a b : Z) : Z := wrap (Z.rem a b).

Definition and (a b : Z) : Z := wrap (Z.land a b).
Definition or (a b : Z) : Z := wrap (Z.lor a b).
Definition xor (a b : Z) : Z := wrap (Z.lxor a b).

(** Shifts.  A count outside 0..31 is undefined in C++; the shift
    instructions of the target take the count modulo 32, and so does this
    model.  [>>] on a negative left operand is the arithmetic shift. *)
Definition shl (a b : Z) : Z := wrap (Z.shiftl a (b mod 32)).
Definition shr (a b : Z) : Z := wrap (Z.shiftr a (b mod 32)).

(** [c ? 1 : 0] *)
Definition of_bool (c : bool) : Z := if c then 1 else 0.

End CInt.

(** ** The C++ [float]: IEEE 754 binary32 *)

Module CFloat.

Definition prec : Z := 24.
Definition emax : Z := 128.

Definition float : Type := spec_float.

Definition zero : float := S754_zero false.

Definition mul : float -> float -> float := SFmul prec emax.
Definition add : float -> float -> float := SFadd prec emax.
Definition sub : float -> float -> float := SFsub prec emax.
Definition div : float -> float -> float := SFdiv prec emax.

(** A [float] used as a condition is [f != 0.0f]: false on both zeros,
    true on everything else, NaN included. *)
Definition to_bool (f : float) : bool :=
  match f with
  | S754_zero _ => false
  | _ => true
  end.

Definition eqb : float -> float -> bool := SFeqb.
Definition ltb : float -> float -> bool := SFltb.
Definition leb : float -> float -> bool := SFleb.

End CFloat.

(** ** Type descriptors *)

(** Modelled from the spec: the type-descriptor library ([TypeDesc] of
    OpenImageIO and [TypeSpec] of [osl_pvt.h], neither under src/).  The
    spec lists the queries the engine makes (is-array, is-structure,
    is-matrix, is-triple, is-color, is-closure, is-unknown, element type,
    array length); a descriptor is a simple type (base type, aggregate,
    semantics, array length), a structure id and a closure flag. *)
Inductive BASETYPE : Type :=
| UNKNOWN | NONE | INT | FLOAT | STRING | PTR.

Inductive AGGREGATE : Type :=
| SCALAR | VEC2 | VEC3 | VEC4 | MATRIX33 | MATRIX44.

Inductive VECSEMANTICS : Type :=
| NOXFORM | COLOR | POINT | VECTOR | NORMAL.

Scheme Equality for BASETYPE.
Scheme Equality for AGGREGATE.
Scheme Equality for VECSEMANTICS.

Record TypeDesc : Type := mkTypeDesc {
  basetype : BASETYPE;
  aggregate : AGGREGATE;
  vecsemantics : VECSEMANTICS;
  arraylen : Z
}.

Definition TypeDesc_eqb (a b : TypeDesc) : bool :=
  BASETYPE_beq (basetype a) (basetype b)
  && AGGREGATE_beq (aggregate a) (aggregate b)
  && VECSEMANTICS_beq (vecsemantics a) (vecsemantics b)
  && (arraylen a =? arraylen b).

Definition TypeUnknown : TypeDesc := mkTypeDesc UNKNOWN SCALAR NOXFORM 0.
Definition TypeInt : TypeDesc := mkTypeDesc INT SCALAR NOXFORM 0.
Definition TypeFloat : TypeDesc := mkTypeDesc FLOAT SCALAR NOXFORM 0.
Definition TypeString : TypeDesc := mkTypeDesc STRING SCALAR NOXFORM 0.
Definition TypeColor : TypeDesc := mkTypeDesc FLOAT VEC3 COLOR 0.
Definition TypePoint : TypeDesc := mkTypeDesc FLOAT VEC3 POINT 0.
Definition TypeVector : TypeDesc := mkTypeDesc FLOAT VEC3 VECTOR 0.
Definition TypeNormal : TypeDesc := mkTypeDesc FLOAT VEC3 NORMAL 0.
Definition TypeMatrix : TypeDesc := mkTypeDesc FLOAT MATRIX44 NOXFORM 0.

Record TypeSpec : Type := mkTypeSpec {
  m_simple : TypeDesc;
  m_structure : Z;
  m_closure : bool
}.

(** [TypeSpec(simple)] and the default [TypeSpec()], the unknown type. *)
Definition TypeSpec_of (simple : TypeDesc) : TypeSpec := mkTypeSpec simple 0 false.
Definition TypeSpec_default : TypeSpec := TypeSpec_of TypeUnknown.

Definition TypeSpec_eqb (a b : TypeSpec) : bool :=
  TypeDesc_eqb (m_simple a) (m_simple b)
  && (m_structure a =? m_structure b)
  && Bool.eqb (m_closure a) (m_closure b).

Module TS.

Definition is_array (t : TypeSpec) : bool := negb (arraylen (m_simple t) =? 0).
Definition is_unsized_array (t : TypeSpec) : bool := arraylen (m_simple t) <? 0.
Definition arraylength (t : TypeSpec) : Z := arraylen (m_simple t).

Definition make_array (t : TypeSpec) (n : Z) : TypeSpec :=
  let s := m_simple t in
  mkTypeSpec (mkTypeDesc (basetype s) (aggregate s) (vecsemantics s) n)
             (m_structure t) (m_closure t).
Definition elementtype (t : TypeSpec) : TypeSpec := make_array t 0.

Definition is_closure (t : TypeSpec) : bool := m_closure t && negb (is_array t).
Definition is_structure (t : TypeSpec) : bool :=
  (0 <? m_structure t) && negb (is_array t).
Definition is_structure_array (t : TypeSpec) : bool :=
  (0 <? m_structure t) && is_array t.
Definition structure (t : TypeSpec) : Z := m_structure t.

Definition is_simple (d : TypeDesc) (t : TypeSpec) : bool :=
  TypeDesc_eqb (m_simple t) d && negb (is_closure t).

Definition is_int : TypeSpec -> bool := is_simple TypeInt.
Definition is_float : TypeSpec -> bool := is_simple TypeFloat.
Definition is_color : TypeSpec -> bool := is_simple TypeColor.
Definition is_matrix : TypeSpec -> bool := is_simple TypeMatrix.
Definition is_vectriple (t : TypeSpec) : bool :=
  is_simple TypePoint t || is_simple TypeVector t || is_simple TypeNormal t.
Definition is_triple (t : TypeSpec) : bool := is_color t || is_vectriple t.

(** The unknown type is the default-constructed descriptor: the source
    tests it both as [t == TypeSpec()] and as [is_unknown()]. *)
Definition is_unknown (t : TypeSpec) : bool := TypeSpec_eqb t TypeSpec_default.

End TS.

(** A structure layout, as [typespec.structspec()] returns it. *)
Record FieldSpec : Type := mkFieldSpec {
  field_name : string;
  field_type : TypeSpec
}.

Record StructSpec : Type := mkStructSpec {
  struct_name : string;
  struct_fields : list FieldSpec
}.

(** ** Symbols *)

Inductive SymType : Type :=
| SymTypeParam | SymTypeOutputParam | SymTypeLocal | SymTypeTemp
| SymTypeGlobal | SymTypeConst | SymTypeFunction | SymTypeType.

Scheme Equality for SymType.

(** What the engine reads through a symbol's back pointer [node()] to the
    declaration that made it: where the declaration is, and for a function
    declaration whether it has statements or is a builtin. *)
Record DeclRef : Type := mkDeclRef {
  decl_sourcefile : string;
  decl_sourceline : Z;
  decl_statements : bool;
  decl_is_builtin : bool
}.

(** [Symbol], with the two members [FunctionSymbol] adds ([argcodes] and
    the chain [nextpoly] of same-named overloads). *)
Inductive Symbol : Type := mkSymbol {
  sym_name : string;
  sym_typespec : TypeSpec;
  sym_symtype : SymType;
  sym_scope : Z;
  sym_node : option DeclRef;
  sym_argcodes : string;
  sym_nextpoly : option Symbol
}.

(** [new Symbol(name, type, symtype, node)]: the scope is stamped by the
    symbol table on insertion. *)
Definition new_Symbol (name : string) (type : TypeSpec) (symtype : SymType)
  (node : option DeclRef) : Symbol :=
  mkSymbol name type symtype 0 node EmptyString None.

(** The overloads reachable from a function symbol, nearest first:
    [for (f = syms; f; f = f->nextpoly())]. *)
Fixpoint polys (f : Symbol) : list Symbol :=
  f :: match sym_nextpoly f with
       | Some g => polys g
       | None => []
       end.

(** ** Diagnostics and calls into the rest of the compiler *)

Inductive Severity : Type := Error | Warning | Info | Message.

Record Diagnostic : Type := mkDiagnostic {
  diag_severity : Severity;
  diag_file : string;
  diag_line : Z;
  diag_text : string
}.

(** The collaborators of the engine that are not in [ast.cpp]: the symbol
    table, the formatting of types, the directory-stripping of file names,
    the structure registry.  The engine is written against this interface
    and the theorems hold for every implementation of it. *)
Class Collaborators : Type := {
  SymbolTable : Type;
  symtab_find : SymbolTable -> string -> option Symbol;
  symtab_clash : SymbolTable -> string -> option Symbol;
  symtab_insert : SymbolTable -> Symbol -> SymbolTable;
  symtab_scopeid : SymbolTable -> Z;
  (** [Symbol::readonly()] *)
  sym_readonly : Symbol -> bool;
  (** [OSLCompilerImpl::code_from_type] *)
  code_from_type : TypeSpec -> string;
  (** a type descriptor printed with [{}] *)
  fmt_type : TypeSpec -> string;
  (** [OIIO::Filesystem::filename]: the path without its directories *)
  Filesystem_filename : string -> string;
  (** [TypeSpec::structspec()]: the layout registered under a
      structure id, null when there is none *)
  structspec : Z -> option StructSpec
}.

(** An [int] printed with [{}]. *)
Definition fmt_int (z : Z) : string := NilZero.string_of_int (Z.to_int z).

(** The characters the messages use that a string literal cannot show. *)
Definition dquote : string := String (ascii_of_nat 34) EmptyString.
Definition newline : string := String (ascii_of_nat 10) EmptyString.
Definition tab : string := String (ascii_of_nat 9) EmptyString.

(** [Strutil::starts_with] *)
Definition starts_with (s p : string) : bool := String.prefix p s.

(** ** Nodes *)

(** The kinds of nodes and the operators that [ast.cpp] names (the enums
    themselves are in [oslcomp_pvt.h]). *)
Inductive NodeType : Type :=
| unknown_node
| shader_declaration_node
| function_declaration_node
| variable_declaration_node
| compound_initializer_node
| variable_ref_node
| preincdec_node
| postincdec_node
| index_node
| structselect_node
| conditional_statement_node
| loop_statement_node
| loopmod_statement_node
| return_statement_node
| binary_expression_node
| unary_expression_node
| assign_expression_node
| ternary_expression_node
| typecast_expression_node
| type_constructor_node
| function_call_node
| literal_node.

Inductive Operator : Type :=
| Nothing | Decr | Incr | Assign
| Mul | Div | Add | Sub | Mod
| Equal | NotEqual | Greater | Less | GreaterEqual | LessEqual
| BitAnd | BitOr | Xor | Compl
| And | Or | Not
| ShiftLeft | ShiftRight.

Scheme Equality for NodeType.
Scheme Equality for Operator.

(** Modelled from the spec: the numeric value of an operator, which the
    enum of [oslcomp_pvt.h] (not under src/) fixes; a node keeps its
    operator code as an [int].  Only that the codes are distinct is used. *)
Definition Operator_code (op : Operator) : Z :=
  match op with
  | Nothing => 0 | Decr => 1 | Incr => 2 | Assign => 3
  | Mul => 4 | Div => 5 | Add => 6 | Sub => 7 | Mod => 8
  | Equal => 9 | NotEqual => 10 | Greater => 11 | Less => 12
  | GreaterEqual => 13 | LessEqual => 14
  | BitAnd => 15 | BitOr => 16 | Xor => 17 | Compl => 18
  | And => 19 | Or => 20 | Not => 21
  | ShiftLeft => 22 | ShiftRight => 23
  end.

Definition all_operators : list Operator :=
  [Nothing; Decr; Incr; Assign; Mul; Div; Add; Sub; Mod;
   Equal; NotEqual; Greater; Less; GreaterEqual; LessEqual;
   BitAnd; BitOr; Xor; Compl; And; Or; Not; ShiftLeft; ShiftRight].

(** The operator a code stands for ([(Operator)m_op]). *)
Definition Operator_of_code (c : Z) : option Operator :=
  List.find (fun op => Operator_code op =? c) all_operators.

(** The members each node class adds to [ASTNode].  [N] is the type of
    nodes: a struct-select node owns the index node it synthesizes. *)
Inductive NodeClass (N : Type) : Type :=
| ASTshader_declaration_ (m_shadername : string)
| ASTfunction_declaration_ (m_name : string) (m_sym : option Symbol)
    (m_is_builtin : bool)
| ASTvariable_declaration_ (m_name : string) (m_sym : option Symbol)
    (m_isparam m_isoutput m_ismetadata m_initlist : bool)
| ASTcompound_initializer_
| ASTvariable_ref_ (m_name : string) (m_sym : option Symbol)
| ASTpreincdec_
| ASTpostincdec_
| ASTindex_
| ASTstructselect_ (m_field : string) (m_structid m_fieldid : Z)
    (m_fieldname : string) (m_fieldsym : option Symbol)
    (m_compindex : option N)
| ASTconditional_statement_
| ASTloop_statement_
| ASTloopmod_statement_
| ASTreturn_statement_
| ASTbinary_expression_ (m_function_overload : option Symbol)
| ASTunary_expression_ (m_function_overload : option Symbol)
| ASTassign_expression_
| ASTternary_expression_
| ASTtypecast_expression_
| ASTtype_constructor_
| ASTfunction_call_ (m_name : string) (m_sym : option Symbol)
| ASTliteral_ (m_i : Z) (m_f : CFloat.float) (m_s : string).

Arguments ASTshader_declaration_ {N}.
Arguments ASTfunction_declaration_ {N}.
Arguments ASTvariable_declaration_ {N}.
Arguments ASTcompound_initializer_ {N}.
Arguments ASTvariable_ref_ {N}.
Arguments ASTpreincdec_ {N}.
Arguments ASTpostincdec_ {N}.
Arguments ASTindex_ {N}.
Arguments ASTstructselect_ {N}.
Arguments ASTconditional_statement_ {N}.
Arguments ASTloop_statement_ {N}.
Arguments ASTloopmod_statement_ {N}.
Arguments ASTreturn_statement_ {N}.
Arguments ASTbinary_expression_ {N}.
Arguments ASTunary_expression_ {N}.
Arguments ASTassign_expression_ {N}.
Arguments ASTternary_expression_ {N}.
Arguments ASTtypecast_expression_ {N}.
Arguments ASTtype_constructor_ {N}.
Arguments ASTfunction_call_ {N}.
Arguments ASTliteral_ {N}.

(** [ASTNode]: the members of the base class and those of the node's own
    class.  A child slot and the next-sibling link may be null. *)
Inductive ASTNode : Type := mkASTNode {
  m_sourcefile : string;
  m_sourceline : Z;
  m_op : Z;
  m_is_lvalue : bool;
  m_typespec : TypeSpec;
  m_children : list (option ASTNode);
  m_next : option ASTNode;
  m_class : NodeClass ASTNode
}.

Definition ref : Type := option ASTNode.

(** The discriminant is fixed by the class of the node. *)
Definition nodetype (n : ASTNode) : NodeType :=
  match m_class n with
  | ASTshader_declaration_ _ => shader_declaration_node
  | ASTfunction_declaration_ _ _ _ => function_declaration_node
  | ASTvariable_declaration_ _ _ _ _ _ _ => variable_declaration_node
  | ASTcompound_initializer_ => compound_initializer_node
  | ASTvariable_ref_ _ _ => variable_ref_node
  | ASTpreincdec_ => preincdec_node
  | ASTpostincdec_ => postincdec_node
  | ASTindex_ => index_node
  | ASTstructselect_ _ _ _ _ _ _ => structselect_node
  | ASTconditional_statement_ => conditional_statement_node
  | ASTloop_statement_ => loop_statement_node
  | ASTloopmod_statement_ => loopmod_statement_node
  | ASTreturn_statement_ => return_statement_node
  | ASTbinary_expression_ _ => binary_expression_node
  | ASTunary_expression_ _ => unary_expression_node
  | ASTassign_expression_ => assign_expression_node
  | ASTternary_expression_ => ternary_expression_node
  | ASTtypecast_expression_ => typecast_expression_node
  | ASTtype_constructor_ => type_constructor_node
  | ASTfunction_call_ _ _ => function_call_node
  | ASTliteral_ _ _ _ => literal_node
  end.

Definition typespec (n : ASTNode) : TypeSpec := m_typespec n.
Definition nchildren (n : ASTNode) : nat := List.length (m_children n).

(** [child(i)]: null when the slot is null or absent. *)
Definition child (n : ASTNode) (i : nat) : ref := nth i (m_children n) None.

Definition set_typespec (n : ASTNode) (t : TypeSpec) : ASTNode :=
  mkASTNode (m_sourcefile n) (m_sourceline n) (m_op n) (m_is_lvalue n) t
            (m_children n) (m_next n) (m_class n).
Definition set_sourceline (n : ASTNode) (l : Z) : ASTNode :=
  mkASTNode (m_sourcefile n) l (m_op n) (m_is_lvalue n) (m_typespec n)
            (m_children n) (m_next n) (m_class n).
Definition set_op (n : ASTNode) (op : Z) : ASTNode :=
  mkASTNode (m_sourcefile n) (m_sourceline n) op (m_is_lvalue n) (m_typespec n)
            (m_children n) (m_next n) (m_class n).
Definition set_is_lvalue (n : ASTNode) (b : bool) : ASTNode :=
  mkASTNode (m_sourcefile n) (m_sourceline n) (m_op n) b (m_typespec n)
            (m_children n) (m_next n) (m_class n).
Definition set_children (n : ASTNode) (cs : list ref) : ASTNode :=
  mkASTNode (m_sourcefile n) (m_sourceline n) (m_op n) (m_is_lvalue n)
            (m_typespec n) cs (m_next n) (m_class n).
Definition set_next (n : ASTNode) (nx : ref) : ASTNode :=
  mkASTNode (m_sourcefile n) (m_sourceline n) (m_op n) (m_is_lvalue n)
            (m_typespec n) (m_children n) nx (m_class n).
Definition set_class (n : ASTNode) (c : NodeClass ASTNode) : ASTNode :=
  mkASTNode (m_sourcefile n) (m_sourceline n) (m_op n) (m_is_lvalue n)
            (m_typespec n) (m_children n) (m_next n) c.

(** [addchild], [clearchildren], and the assignment [m_children[i] = c]
    (the source only assigns slots that exist). *)
Definition addchild (n : ASTNode) (c : ref) : ASTNode :=
  set_children n (m_children n ++ [c]).
Definition clearchildren (n : ASTNode) : ASTNode := set_children n [].

Fixpoint replace_nth {A : Type} (i : nat) (x : A) (l : list A) : list A :=
  match l, i with
  | [], _ => []
  | _ :: t, O => x :: t
  | h :: t, S j => h :: replace_nth j x t
  end.

Definition set_child (n : ASTNode) (i : nat) (c : ref) : ASTNode :=
  set_children n (replace_nth i c (m_children n)).

Section Engine.

Context {C : Collaborators}.

(** ** The compiler a node is built against *)

(** Calls into parts of the compiler that are not in [ast.cpp]
    (type checking, the materialization of structure fields).  The engine
    only makes the call; the call is recorded, in order. *)
Inductive Call : Type :=
| Call_typecheck (n : ASTNode) (expected : TypeSpec)
| Call_add_struct_fields (spec : option StructSpec) (basename : string)
    (symtype : SymType) (arraylen : Z) (node : ASTNode) (init : ref).

Record OSLCompilerImpl : Type := mkCompiler {
  filename : string;
  lineno : Z;
  symtab : SymbolTable;
  diagnostics : list Diagnostic;
  calls : list Call
}.

(** A computation of the engine: it reads and updates the compiler, and
    ends with a result or aborts ([None]: a failed [OSL_ASSERT], which
    stops the compiler, or a null pointer dereferenced).  The checks of
    [OSL_DASSERT] are compiled out of a release build and are not part of
    the model. *)
Definition M (A : Type) : Type := OSLCompilerImpl -> option (A * OSLCompilerImpl).

Definition ret {A : Type} (a : A) : M A := fun comp => Some (a, comp).

Definition bind {A B : Type} (m : M A) (k : A -> M B) : M B :=
  fun comp =>
    match m comp with
    | Some (a, comp') => k a comp'
    | None => None
    end.

Definition abort {A : Type} : M A := fun _ => None.

Definition get : M OSLCompilerImpl := fun comp => Some (comp, comp).

Definition OSL_ASSERT (c : bool) : M unit := if c then ret tt else abort.

(** [*p] of a pointer that may be null. *)
Definition deref {A : Type} (p : option A) : M A :=
  match p with
  | Some a => ret a
  | None => abort
  end.

Notation "x <- m ;; k" := (bind m (fun x => k))
  (at level 61, m at next level, right associativity).
Notation "m ;;; k" := (bind m (fun _ => k))
  (at level 61, right associativity).

Definition report (d : Diagnostic) : M unit :=
  fun comp =>
    Some (tt, mkCompiler (filename comp) (lineno comp) (symtab comp)
                         (diagnostics comp ++ [d]) (calls comp)).

Definition record_call (c : Call) : M unit :=
  fun comp =>
    Some (tt, mkCompiler (filename comp) (lineno comp) (symtab comp)
                         (diagnostics comp) (calls comp ++ [c])).

Definition insert_symbol (s : Symbol) : M unit :=
  fun comp =>
    Some (tt, mkCompiler (filename comp) (lineno comp)
                         (symtab_insert (symtab comp) s)
                         (diagnostics comp) (calls comp)).

(** [ASTNode::errorfmt] and [ASTNode::warningfmt], on the formatted
    message: the diagnostic goes to the compiler with the location of the
    node that reports it. *)
Definition errorfmt (n : ASTNode) (msg : string) : M unit :=
  report (mkDiagnostic Error (m_sourcefile n) (m_sourceline n) msg).

Definition warningfmt (n : ASTNode) (msg : string) : M unit :=
  report (mkDiagnostic Warning (m_sourcefile n) (m_sourceline n) msg).

(** ** Construction of a node *)

(** The constructors of the base class: the location is the compiler's
    cursor, the type is unknown, the node is no lvalue and has no sibling;
    the children are added in order.  [cls] holds the members of the
    derived class as its own constructor initializes them. *)
Definition ASTNode_ (cls : NodeClass ASTNode) (comp : OSLCompilerImpl)
  (op : Z) (children : list ref) : ASTNode :=
  fold_left addchild children
    (mkASTNode (filename comp) (lineno comp) op false TypeSpec_default
               [] None cls).

(** Modelled from the spec: the literal node class [ASTliteral] of
    [oslcomp_pvt.h] (not under src/): a literal node carries an [int], a
    [float] or a string and has the matching type; the member a constructor
    does not set is shown here as zero or empty. *)
Definition ASTliteral_int (comp : OSLCompilerImpl) (i : Z) : ASTNode :=
  set_typespec (ASTNode_ (ASTliteral_ i CFloat.zero EmptyString) comp 0 [])
               (TypeSpec_of TypeInt).

Definition ASTliteral_float (comp : OSLCompilerImpl) (f : CFloat.float) : ASTNode :=
  set_typespec (ASTNode_ (ASTliteral_ 0 f EmptyString) comp 0 [])
               (TypeSpec_of TypeFloat).

Definition ASTliteral_string (comp : OSLCompilerImpl) (s : string) : ASTNode :=
  set_typespec (ASTNode_ (ASTliteral_ 0 CFloat.zero s) comp 0 [])
               (TypeSpec_of TypeString).

(** [dynamic_cast<ASTliteral*>(n)->intval()] and [->floatval()]: the cast
    is null on a node of another class. *)
Definition intval (n : ASTNode) : option Z :=
  match m_class n with
  | ASTliteral_ i _ _ => Some i
  | _ => None
  end.

Definition floatval (n : ASTNode) : option CFloat.float :=
  match m_class n with
  | ASTliteral_ i f _ =>
      Some (if TS.is_int (typespec n)
            then binary_normalize CFloat.prec CFloat.emax i 0 false
            else f)
  | _ => None
  end.

(** ** Binary expressions *)

(** [ASTbinary_expression::opword], on the operator code of the node; the
    default case of the switch is a failed assertion. *)
Definition binary_opword (op : Z) : option string :=
  match Operator_of_code op with
  | Some Mul => Some "mul"
  | Some Div => Some "div"
  | Some Add => Some "add"
  | Some Sub => Some "sub"
  | Some Mod => Some "mod"
  | Some Equal => Some "eq"
  | Some NotEqual => Some "neq"
  | Some Greater => Some "gt"
  | Some GreaterEqual => Some "ge"
  | Some Less => Some "lt"
  | Some LessEqual => Some "le"
  | Some BitAnd => Some "bitand"
  | Some BitOr => Some "bitor"
  | Some Xor => Some "xor"
  | Some And => Some "and"
  | Some Or => Some "or"
  | Some ShiftLeft => Some "shl"
  | Some ShiftRight => Some "shr"
  | _ => None
  end.

Definition is_function (sym : option Symbol) : bool :=
  match sym with
  | Some s => SymType_beq (sym_symtype s) SymTypeFunction
  | None => false
  end.

(** The constructor [ASTbinary_expression::ASTbinary_expression]: a
    two-child node that remembers the user's overload of the operator, if
    there is one. *)
Definition ASTbinary_expression (op : Operator) (left right : ref) : M ASTNode :=
  comp <- get ;;
  let this := ASTNode_ (ASTbinary_expression_ None) comp (Operator_code op)
                       [left; right] in
  if negb (Operator_beq op And) && negb (Operator_beq op Or) then
    word <- deref (binary_opword (m_op this)) ;;
    let funcname := "__operator__" ++ word ++ "__" in
    let sym := symtab_find (symtab comp) funcname in
    if is_function sym
    then ret (set_class this (ASTbinary_expression_ sym))
    else ret this
  else ret this.

(** The folding of two [int] literals: the switch of [make] on the
    operator. *)
Definition fold_int (op : Operator) (lv rv : Z) : option Z :=
  match op with
  | Mul => Some (CInt.mul lv rv)
  | Div => Some (if rv =? 0 then 0 else CInt.div lv rv)
  | Add => Some (CInt.add lv rv)
  | Sub => Some (CInt.sub lv rv)
  | Mod => Some (if rv =? 0 then 0 else CInt.rem lv rv)
  | Equal => Some (CInt.of_bool (lv =? rv))
  | NotEqual => Some (CInt.of_bool (negb (lv =? rv)))
  | Greater => Some (CInt.of_bool (lv >? rv))
  | Less => Some (CInt.of_bool (lv <? rv))
  | GreaterEqual => Some (CInt.of_bool (lv >=? rv))
  | LessEqual => Some (CInt.of_bool (lv <=? rv))
  | BitAnd => Some (CInt.and lv rv)
  | BitOr => Some (CInt.or lv rv)
  | Xor => Some (CInt.xor lv rv)
  | ShiftLeft => Some (CInt.shl lv rv)
  | ShiftRight => Some (CInt.shr lv rv)
  | _ => None
  end.

(** The folding of two [float] literals.  The arithmetic results are
    [float] literals; a comparison folds to the [int] literal 1 or 0. *)
Definition fold_float (comp : OSLCompilerImpl) (op : Operator)
  (lv rv : CFloat.float) : ref :=
  match op with
  | Mul => Some (ASTliteral_float comp (CFloat.mul lv rv))
  | Div => Some (ASTliteral_float comp
                   (if CFloat.to_bool rv then CFloat.div lv rv else CFloat.zero))
  | Add => Some (ASTliteral_float comp (CFloat.add lv rv))
  | Sub => Some (ASTliteral_float comp (CFloat.sub lv rv))
  | Equal => Some (ASTliteral_int comp (CInt.of_bool (CFloat.eqb lv rv)))
  | NotEqual => Some (ASTliteral_int comp (CInt.of_bool (negb (CFloat.eqb lv rv))))
  | Greater => Some (ASTliteral_int comp (CInt.of_bool (CFloat.ltb rv lv)))
  | Less => Some (ASTliteral_int comp (CInt.of_bool (CFloat.ltb lv rv)))
  | GreaterEqual => Some (ASTliteral_int comp (CInt.of_bool (CFloat.leb rv lv)))
  | LessEqual => Some (ASTliteral_int comp (CInt.of_bool (CFloat.leb lv rv)))
  | _ => None
  end.

(** [ASTbinary_expression::make]: two literal operands of the same
    primitive kind fold to a literal (the operands are deleted, no binary
    node is built); everything else becomes a binary-expression node. *)
Definition make (op : Operator) (left right : ASTNode) : M ASTNode :=
  if NodeType_beq (nodetype left) literal_node
     && NodeType_beq (nodetype right) literal_node
  then
    comp <- get ;;
    cf <- (if TS.is_int (typespec left) && TS.is_int (typespec right) then
             lv <- deref (intval left) ;;
             rv <- deref (intval right) ;;
             ret (option_map (ASTliteral_int comp) (fold_int op lv rv))
           else if TS.is_float (typespec left) && TS.is_float (typespec right) then
             lv <- deref (floatval left) ;;
             rv <- deref (floatval right) ;;
             ret (fold_float comp op lv rv)
           else ret None) ;;
    match cf with
    | Some n => ret n
    | None => ASTbinary_expression op (Some left) (Some right)
    end
  else ASTbinary_expression op (Some left) (Some right).

(** ** Sibling lists *)

(** The nodes of a sibling chain, head first. *)
Fixpoint siblings (n : ASTNode) : list ASTNode :=
  n :: match m_next n with
       | Some n' => siblings n'
       | None => []
       end.

(** [ASTNode::list_to_vec]: the chain as a sequence. *)
Definition list_to_vec (A : ref) : list ASTNode :=
  match A with
  | Some n => siblings n
  | None => []
  end.

(** [ASTNode::vec_to_list]: the nodes of a sequence linked into a chain. *)
Fixpoint vec_to_list (vec : list ASTNode) : ref :=
  match vec with
  | [] => None
  | n :: rest => Some (set_next n (vec_to_list rest))
  end.

(** [reverse]: the loop, with [list] the chain still to do and
    [new_list] the reversed part. *)
Fixpoint reverse_loop (todo : list ASTNode) (new_list : ref) : ref :=
  match todo with
  | [] => new_list
  | n :: rest => reverse_loop rest (Some (set_next n new_list))
  end.

Definition reverse (list : ref) : ref := reverse_loop (list_to_vec list) None.

(** A node taken out of its chain. *)
Definition unlinked (n : ASTNode) : ASTNode := set_next n None.

(** [ASTNode::list_to_types_string] *)
Fixpoint types_string (i : nat) (nodes : list ASTNode) : string :=
  match nodes with
  | [] => EmptyString
  | n :: rest =>
      (match i with O => EmptyString | _ => ", " end)
      ++ fmt_type (typespec n) ++ types_string (S i) rest
  end.

Definition list_to_types_string (node : ref) : string :=
  types_string 0 (list_to_vec node).

(** ** Writeability *)

(** The symbol a reference or a declaration node stands for. *)
Definition sym (n : ASTNode) : option Symbol :=
  match m_class n with
  | ASTvariable_ref_ _ s => s
  | ASTvariable_declaration_ _ s _ _ _ _ => s
  | ASTfunction_declaration_ _ s _ => s
  | ASTfunction_call_ _ s => s
  | _ => None
  end.

(** [lvalue()] of an index or a struct-select node: its first child. *)
Definition lvalue (n : ASTNode) : ref := child n 0.

(** [ASTNode::check_symbol_writeability], called on [this] for the target
    [var].  The result is the returned flag and what is stored through
    [dest_sym].  The recursive calls on the base of an index or of a
    struct-select pass neither [quiet] nor [dest_sym]. *)
Fixpoint check_symbol_writeability (this var : ASTNode) (quiet : bool)
  {struct var} : M (bool * option Symbol) :=
  match nodetype var with
  | index_node | structselect_node =>
      match m_children var with
      | Some lv :: _ =>
          r <- check_symbol_writeability this lv false ;;
          ret (fst r, None)
      | _ => abort
      end
  | _ =>
      let dest :=
        match nodetype var with
        | variable_ref_node | variable_declaration_node => sym var
        | _ => None
        end in
      match dest with
      | Some d =>
          if sym_readonly d then
            (if negb quiet
             then warningfmt this ("cannot write to non-output parameter "
                                   ++ dquote ++ sym_name d ++ dquote)
             else ret tt) ;;;
            ret (false, dest)
          else ret (true, dest)
      | None => ret (true, None)
      end
  end.

(** ** Assignment *)

(** [ASTassign_expression::ASTassign_expression] *)
Definition ASTassign_expression (var : ASTNode) (op : Operator) (expr : ref)
  : M ASTNode :=
  comp <- get ;;
  let this := ASTNode_ ASTassign_expression_ comp (Operator_code op)
                       [Some var; expr] in
  this <- (if negb (Operator_beq op Assign) then
             b <- ASTbinary_expression op (Some var) expr ;;
             ret (set_child (set_op this (Operator_code Assign)) 1 (Some b))
           else ret this) ;;
  check_symbol_writeability this var false ;;;
  ret this.

(** [ASTpreincdec] and [ASTpostincdec] *)
Definition ASTpreincdec (op : Z) (expr : ASTNode) : M ASTNode :=
  comp <- get ;;
  let this := ASTNode_ ASTpreincdec_ comp op [Some expr] in
  check_symbol_writeability this expr false ;;;
  ret this.

Definition ASTpostincdec (op : Z) (expr : ASTNode) : M ASTNode :=
  comp <- get ;;
  let this := ASTNode_ ASTpostincdec_ comp op [Some expr] in
  check_symbol_writeability this expr false ;;;
  ret this.

(** [ASTloop_statement::ASTloop_statement]: an empty condition is the
    literal 1. *)
Definition ASTloop_statement (looptype : Z) (init cond iter stmt : ref)
  : M ASTNode :=
  comp <- get ;;
  let this := ASTNode_ ASTloop_statement_ comp looptype
                       [init; cond; iter; stmt] in
  match cond with
  | None => ret (set_child this 1 (Some (ASTliteral_int comp 1)))
  | Some _ => ret this
  end.

(** ** References and declarations of variables *)

(** The back pointer a symbol keeps to the declaration [n]. *)
Definition decl_ref (n : ASTNode) (statements is_builtin : bool) : DeclRef :=
  mkDeclRef (m_sourcefile n) (m_sourceline n) statements is_builtin.

(** [ASTvariable_ref::ASTvariable_ref] *)
Definition ASTvariable_ref (name : string) : M ASTNode :=
  comp <- get ;;
  let s := symtab_find (symtab comp) name in
  let this := ASTNode_ (ASTvariable_ref_ name s) comp 0 [] in
  match s with
  | None =>
      errorfmt this ("'" ++ name ++ "' was not declared in this scope") ;;;
      ret this
  | Some sy =>
      if SymType_beq (sym_symtype sy) SymTypeFunction then
        errorfmt this ("function '" ++ name ++ "' can't be used as a variable") ;;;
        ret this
      else if SymType_beq (sym_symtype sy) SymTypeType then
        errorfmt this ("type name '" ++ name ++ "' can't be used as a variable") ;;;
        ret this
      else ret (set_typespec this (sym_typespec sy))
  end.

(** The message of a redeclaration: the location of the previous
    declaration is appended when the clashing symbol has a declaration
    node. *)
Definition already_declared (name : string) (f : Symbol) : string :=
  let e := dquote ++ name ++ dquote ++ " already declared in this scope" in
  match sym_node f with
  | Some d =>
      e ++ newline ++ tab ++ tab ++ "previous declaration was at "
        ++ Filesystem_filename (decl_sourcefile d) ++ ":"
        ++ fmt_int (decl_sourceline d)
  | None => e
  end.

Definition three_underscores (name : string) : string :=
  dquote ++ name ++ dquote ++ " : sorry, can't start with three underscores".

(** [ASTvariable_declaration::ASTvariable_declaration].  The symbol of
    the node is shown as [new Symbol] makes it; the symbol table, which is
    not in [ast.cpp], gets that symbol through [insert] and stamps its
    scope on the object, which the copy kept here does not follow.  What
    [add_struct_fields] declares for the fields of a structure is outside
    [ast.cpp] as well: the call is recorded, its effect on the symbol
    table is not part of the model. *)
Definition ASTvariable_declaration (type : TypeSpec) (name : string)
  (init : ref) (isparam ismeta isoutput initlist : bool)
  (sourceline_start : Z) : M ASTNode :=
  comp <- get ;;
  let this := ASTNode_ (ASTvariable_declaration_ name None isparam isoutput
                                                 ismeta initlist)
                       comp 0 [init; None] in
  let this := if 0 <=? sourceline_start
              then set_sourceline this sourceline_start else this in
  (match init with
   | Some i =>
       if initlist then
         OSL_ASSERT (NodeType_beq (nodetype i) compound_initializer_node) ;;;
         record_call (Call_typecheck i type)
       else ret tt
   | None => ret tt
   end) ;;;
  let this := set_typespec this type in
  (match symtab_clash (symtab comp) name with
   | Some f =>
       if negb ismeta then
         let e := already_declared name f in
         if (sym_scope f =? 0)
            && SymType_beq (sym_symtype f) SymTypeFunction && isparam
         then warningfmt this e
         else errorfmt this e
       else ret tt
   | None => ret tt
   end) ;;;
  (if starts_with name "___"
   then errorfmt this (three_underscores name) else ret tt) ;;;
  let symtype := if isparam
                 then (if isoutput then SymTypeOutputParam else SymTypeParam)
                 else SymTypeLocal in
  let symtype := if SymType_beq symtype SymTypeLocal
                    && starts_with name "__debug_tmp__"
                 then SymTypeTemp else symtype in
  let s := new_Symbol name type symtype (Some (decl_ref this false false)) in
  let this := set_class this (ASTvariable_declaration_ name (Some s) isparam
                                isoutput ismeta initlist) in
  (if ismeta then ret tt else insert_symbol s) ;;;
  (if TS.is_structure type || TS.is_structure_array type then
     OSL_ASSERT (negb ismeta) ;;;
     record_call (Call_add_struct_fields (structspec (TS.structure type))
                    (sym_name s) symtype
                    (if TS.is_unsized_array type then -1 else TS.arraylength type)
                    this init)
   else ret tt) ;;;
  ret this.

(** The members of a variable declaration that other constructors read. *)
Definition is_variable_declaration (n : ASTNode) : bool :=
  NodeType_beq (nodetype n) variable_declaration_node.

Definition name (n : ASTNode) : string :=
  match m_class n with
  | ASTvariable_declaration_ nm _ _ _ _ _ => nm
  | ASTvariable_ref_ nm _ => nm
  | ASTfunction_declaration_ nm _ _ => nm
  | ASTfunction_call_ nm _ => nm
  | _ => EmptyString
  end.

Definition is_output (n : ASTNode) : bool :=
  match m_class n with
  | ASTvariable_declaration_ _ _ _ o _ _ => o
  | _ => false
  end.

(** [init()] of a variable declaration: its first child. *)
Definition init (n : ASTNode) : ref := child n 0.

Definition not_null {A : Type} (p : option A) : bool :=
  match p with
  | Some _ => true
  | None => false
  end.

(** ** Shader declarations *)

Definition requires_initializer (v : ASTNode) : string :=
  "shader parameter '" ++ name v ++ "' requires a default initializer".

Definition cant_be_unsized (v : ASTNode) : string :=
  "shader output parameter '" ++ name v ++ "' can't be unsized array".

(** The body of the loop over the formals. *)
Definition check_shader_formal (arg : ASTNode) : M unit :=
  OSL_ASSERT (is_variable_declaration arg) ;;;
  (if negb (not_null (init arg))
   then errorfmt arg (requires_initializer arg) else ret tt) ;;;
  (if is_output arg && TS.is_unsized_array (typespec arg)
   then errorfmt arg (cant_be_unsized arg) else ret tt).

Fixpoint for_each {A : Type} (body : A -> M unit) (l : list A) : M unit :=
  match l with
  | [] => ret tt
  | a :: rest => body a ;;; for_each body rest
  end.

(** [ASTshader_declaration::ASTshader_declaration] *)
Definition ASTshader_declaration (stype : Z) (shadername : string)
  (form stmts meta : ref) : M ASTNode :=
  comp <- get ;;
  let this := ASTNode_ (ASTshader_declaration_ shadername) comp stype
                       [meta; form; stmts] in
  for_each check_shader_formal (list_to_vec form) ;;;
  ret this.

(** ** Indexing *)

Definition is_null {A : Type} (p : option A) : bool := negb (not_null p).

(** The type an index node gets from its base and the number of its
    indices; unknown when the combination is none of the five the source
    accepts.  [index2] and [index3] say whether the second and the third
    index are there. *)
Definition index_typespec (base : TypeSpec) (index2 index3 : bool) : TypeSpec :=
  if negb index2 then
    if TS.is_array base then TS.elementtype base
    else if negb (TS.is_closure base) && TS.is_triple base
    then TypeSpec_of TypeFloat
    else TypeSpec_default
  else if negb index3 then
    if TS.is_matrix base then TypeSpec_of TypeFloat
    else if TS.is_array base && TS.is_triple (TS.elementtype base)
    then TypeSpec_of TypeFloat
    else TypeSpec_default
  else
    if TS.is_array base && TS.is_matrix (TS.elementtype base)
    then TypeSpec_of TypeFloat
    else TypeSpec_default.

Definition non_indexable : string :=
  "indexing into non-array or non-component type".

(** [ASTindex::ASTindex].  When the base of a one-index node is itself a
    two-child index node, the new node takes over the base and the index
    of that node and keeps its own index as the second one. *)
Definition ASTindex (expr : ASTNode) (index index2 index3 : ref) : M ASTNode :=
  comp <- get ;;
  let this := ASTNode_ ASTindex_ comp 0 [Some expr; index] in
  let this := if not_null index2 then addchild this index2 else this in
  let this := if not_null index3 then addchild this index3 else this in
  let rearranged :=
    if is_null index2
       && NodeType_beq (nodetype expr) index_node
       && (nchildren expr =? 2)%nat
    then
      let newexpr := lvalue expr in
      let newindex := child expr 1 in
      let newindex2 := index in
      (addchild (addchild (addchild (clearchildren this) newexpr) newindex)
                newindex2,
       newexpr, newindex2)
    else (this, Some expr, index2) in
  let '(this, expr, index2) := rearranged in
  expr <- deref expr ;;
  let this := set_typespec this
                (index_typespec (typespec expr) (not_null index2)
                                (not_null index3)) in
  (if TS.is_unknown (typespec this)
   then errorfmt this non_indexable else ret tt) ;;;
  ret this.

(** ** Struct and component selection *)

(** What [find_fieldsym] leaves behind: the symbol it returns, the two ids
    it stores through its reference parameters, and the node itself, whose
    component-index node and lvalue flag it may set. *)
Record FieldSym : Type := mkFieldSym {
  fs_sym : option Symbol;
  fs_structid : Z;
  fs_fieldid : Z;
  fs_this : ASTNode
}.

Definition field (n : ASTNode) : string :=
  match m_class n with
  | ASTstructselect_ f _ _ _ _ _ => f
  | _ => EmptyString
  end.

Definition fieldname (n : ASTNode) : string :=
  match m_class n with
  | ASTstructselect_ _ _ _ fn _ _ => fn
  | _ => EmptyString
  end.

Definition compindex (n : ASTNode) : ref :=
  match m_class n with
  | ASTstructselect_ _ _ _ _ _ ci => ci
  | _ => None
  end.

Definition fieldsym (n : ASTNode) : option Symbol :=
  match m_class n with
  | ASTstructselect_ _ _ _ _ fs _ => fs
  | _ => None
  end.

Definition fieldid (n : ASTNode) : Z :=
  match m_class n with
  | ASTstructselect_ _ _ fid _ _ _ => fid
  | _ => -1
  end.

Definition structid (n : ASTNode) : Z :=
  match m_class n with
  | ASTstructselect_ _ sid _ _ _ _ => sid
  | _ => -1
  end.

(** [m_compindex.reset(ci)] *)
Definition set_compindex (n : ASTNode) (ci : ref) : ASTNode :=
  match m_class n with
  | ASTstructselect_ f sid fid fn fs _ =>
      set_class n (ASTstructselect_ f sid fid fn fs ci)
  | _ => n
  end.

(** The position of the first field of that name, -1 when there is
    none: the loop over [structspec->field(i)]. *)
Fixpoint find_field (fields : list FieldSpec) (f : string) (i : Z) : Z :=
  match fields with
  | [] => -1
  | fld :: rest =>
      if String.eqb (field_name fld) f then i else find_field rest f (i + 1)
  end.

(** The named component [a] or [b] or anything else, as 0, 1, 2. *)
Definition component (fn a b : string) : Z :=
  if String.eqb fn a then 0 else if String.eqb fn b then 1 else 2.

(** The body of [ASTstructselect::find_fieldsym] on the node [this], whose
    ids come in as [structid] and [fieldid].  [structsym] is the call
    [find_structsym(lvalue().get(), ...)], which the body makes only for a
    base of structure type. *)
Definition find_fieldsym_body (this : ASTNode) (structid fieldid : Z)
  (structsym : M (string * TypeSpec)) : M FieldSym :=
  comp <- get ;;
  lv <- deref (lvalue this) ;;
  let lvtype := typespec lv in
  let fn := fieldname this in
  if TS.is_color lvtype
     && (String.eqb fn "r" || String.eqb fn "g" || String.eqb fn "b")
  then
    let fieldid := component fn "r" "g" in
    ci <- ASTindex lv (Some (ASTliteral_int comp fieldid)) None None ;;
    ret (mkFieldSym None structid fieldid
           (set_is_lvalue (set_compindex this (Some ci)) true))
  else if TS.is_vectriple lvtype
          && (String.eqb fn "x" || String.eqb fn "y" || String.eqb fn "z")
  then
    let fieldid := component fn "x" "y" in
    ci <- ASTindex lv (Some (ASTliteral_int comp fieldid)) None None ;;
    ret (mkFieldSym None structid fieldid
           (set_is_lvalue (set_compindex this (Some ci)) true))
  else if negb (TS.is_structure lvtype) && negb (TS.is_structure_array lvtype)
  then
    errorfmt this ("type '" ++ fmt_type lvtype ++ "' does not have a member '"
                   ++ field this ++ "'") ;;;
    ret (mkFieldSym None structid fieldid this)
  else
    st <- structsym ;;
    let '(structsymname, structtype) := st in
    let structid := TS.structure structtype in
    spec <- deref (structspec (TS.structure structtype)) ;;
    let fieldid := find_field (struct_fields spec) (field this) 0 in
    if fieldid <? 0 then
      errorfmt this ("struct type '" ++ struct_name spec
                     ++ "' does not have a member '" ++ field this ++ "'") ;;;
      ret (mkFieldSym None structid fieldid this)
    else
      fieldrec <- deref (nth_error (struct_fields spec) (Z.to_nat fieldid)) ;;
      let fieldsymname := structsymname ++ "." ++ field_name fieldrec in
      ret (mkFieldSym (symtab_find (symtab comp) fieldsymname)
                      structid fieldid this).

(** [ASTstructselect::find_structsym]: the name and the type of the symbol
    of the structure that [structnode] denotes.  For a struct-select node
    it asks [find_fieldsym] of that node, with fresh ids, and uses the
    symbol it gets. *)
Fixpoint find_structsym (structnode : ASTNode) : M (string * TypeSpec) :=
  match nodetype structnode with
  | variable_ref_node => ret (name structnode, typespec structnode)
  | structselect_node =>
      r <- find_fieldsym_body structnode 0 0
             (match m_children structnode with
              | Some lv :: _ => find_structsym lv
              | _ => abort
              end) ;;
      s <- deref (fs_sym r) ;;
      ret (sym_name s, sym_typespec s)
  | index_node =>
      match m_children structnode with
      | Some lv :: _ =>
          r <- find_structsym lv ;;
          ret (fst r, TS.make_array (snd r) 0)
      | _ => abort
      end
  | _ => abort
  end.

(** [ASTstructselect::find_fieldsym], on the node's own ids. *)
Definition find_fieldsym (this : ASTNode) : M FieldSym :=
  find_fieldsym_body this (structid this) (fieldid this)
    (st <- deref (lvalue this) ;; find_structsym st).

(** [ASTstructselect::ASTstructselect] *)
Definition ASTstructselect (expr : ref) (field : string) : M ASTNode :=
  comp <- get ;;
  let this := ASTNode_ (ASTstructselect_ field (-1) (-1) field None None)
                       comp 0 [expr] in
  r <- find_fieldsym this ;;
  let this := fs_this r in
  let this := set_class this
                (ASTstructselect_ field (fs_structid r) (fs_fieldid r) field
                                  (fs_sym r) (compindex this)) in
  match fs_sym r with
  | Some s =>
      ret (set_typespec
             (set_class this
                (ASTstructselect_ field (fs_structid r) (fs_fieldid r)
                                  (sym_name s) (fs_sym r) (compindex this)))
             (sym_typespec s))
  | None =>
      if not_null (compindex this)
      then ret (set_typespec this (TypeSpec_of TypeFloat))
      else ret this
  end.

(** ** Function declarations *)

Definition may_not_have_initializer (v : ASTNode) : string :=
  "function parameter '" ++ name v
  ++ "' may not have a default initializer.".

(** The loop that builds the argument signature: [None] when a formal of
    unknown type makes the constructor return, the signature otherwise. *)
Fixpoint formal_argcodes (formals : list ASTNode) (argcodes : string)
  : M (option string) :=
  match formals with
  | [] => ret (Some argcodes)
  | arg :: rest =>
      let t := typespec arg in
      if TypeSpec_eqb t TypeSpec_default then ret None
      else
        let argcodes := argcodes ++ code_from_type t in
        OSL_ASSERT (is_variable_declaration arg) ;;;
        (if not_null (init arg)
         then errorfmt arg (may_not_have_initializer arg) else ret tt) ;;;
        formal_argcodes rest argcodes
  end.

Definition string_empty (s : string) : bool :=
  match s with
  | EmptyString => true
  | _ => false
  end.

(** The loop over the overloads of the name: the text of the
    redefinition warning, empty when nothing is redefined. *)
Fixpoint redefinitions (fs : list Symbol) (current_scope : Z)
  (argcodes header err : string) : string :=
  match fs with
  | [] => err
  | f :: rest =>
      let err :=
        if (sym_scope f =? current_scope) && String.eqb (sym_argcodes f) argcodes
        then
          let other := sym_node f in
          if match other with
             | None => true
             | Some o => decl_statements o || decl_is_builtin o
             end
          then
            let err := if string_empty err then header else err in
            let err := err ++ newline ++ "    " in
            match other with
            | Some o => err ++ Filesystem_filename (decl_sourcefile o) ++ ":"
                            ++ fmt_int (decl_sourceline o)
            | None => err ++ "built-in"
            end
          else err
        else err in
      redefinitions rest current_scope argcodes header err
  end.

Definition redefined_header (type : TypeSpec) (name : string) (form : ref)
  : string :=
  "Function '" ++ fmt_type type ++ " " ++ name ++ " ("
  ++ list_to_types_string form ++ ")' redefined in the same scope"
  ++ newline ++ "  Previous definitions:".

Definition already_declared_as (name : string) (existing : Symbol) : string :=
  dquote ++ name ++ dquote ++ " already declared in this scope as a "
  ++ fmt_type (sym_typespec existing).

(** [ASTfunction_declaration::ASTfunction_declaration] *)
Definition ASTfunction_declaration (type : TypeSpec) (name : string)
  (form stmts meta : ref) (sourceline_start : Z) : M ASTNode :=
  comp <- get ;;
  let this := ASTNode_ (ASTfunction_declaration_ name None false) comp 0
                       [meta; form; stmts] in
  let this := if 0 <=? sourceline_start
              then set_sourceline this sourceline_start else this in
  (if starts_with name "___"
   then errorfmt this (three_underscores name) else ret tt) ;;;
  existing_syms <-
    match symtab_clash (symtab comp) name with
    | Some e =>
        if negb (SymType_beq (sym_symtype e) SymTypeFunction) then
          errorfmt this (already_declared_as name e) ;;;
          ret None
        else ret (Some e)
    | None => ret None
    end ;;
  let this := set_typespec this type in
  sig <- formal_argcodes (list_to_vec form) (code_from_type type) ;;
  match sig with
  | None => ret (set_typespec this (TypeSpec_of TypeUnknown))
  | Some argcodes =>
      (if not_null stmts then
         let current_scope := symtab_scopeid (symtab comp) in
         let err := redefinitions
                      (match existing_syms with
                       | Some f => polys f
                       | None => []
                       end)
                      current_scope argcodes
                      (redefined_header type name form) EmptyString in
         if negb (string_empty err) then warningfmt this err else ret tt
       else ret tt) ;;;
      let s := mkSymbol name type SymTypeFunction 0
                        (Some (decl_ref this (not_null stmts) false))
                        argcodes existing_syms in
      let this := set_class this (ASTfunction_declaration_ name (Some s) false) in
      insert_symbol s ;;;
      record_call (Call_typecheck this (typespec this)) ;;;
      ret this
  end.

End Engine.

(** ** Destruction *)

(** The node classes that own a node besides children and sibling: the
    component-index node of a struct-select. *)
Definition class_member (n : ASTNode) : ref :=
  match m_class n with
  | ASTstructselect_ _ _ _ _ _ ci => ci
  | _ => None
  end.

(** One destructor call: the nesting depth of the call and the node as it
    is when the call starts. *)
Record Entry : Type := mkEntry {
  entry_depth : nat;
  entry_node : ASTNode
}.

Definition seq_logs (a b : option (list Entry)) : option (list Entry) :=
  match a, b with
  | Some x, Some y => Some (x ++ y)%list
  | _, _ => None
  end.

(** The destruction of a node whose last reference goes away, as the list
    of the destructor calls it makes.  [depth] is the depth of this call;
    a call made from it runs at [S depth].  [fuel] bounds the nesting of
    the calls, as the stack does.  Every reference is taken for the only
    one to its node, so that a reference that is dropped is the last one.
    A node that two owners share (the base of a struct-select, which the
    component index holds too; the target of a compound assignment, which
    the binary expression holds too) is destroyed by the code when its
    last owner lets go, once; here it is destroyed under each owner.  The
    calls and the nesting of the code are therefore at most those of this
    function, which bounds them from above.

    The members of the derived class go first.  Then the body of
    [ASTNode::~ASTNode] runs: while there is a next sibling [n], the link
    of this node moves on to the sibling of [n], the link of [n] is reset,
    and [n], now alone, is released at the end of the iteration.  Last the
    members of the base class go: the children, in order (the sibling link
    is null by then). *)
Fixpoint destroy (fuel depth : nat) (this : ASTNode) : option (list Entry) :=
  match fuel with
  | O => None
  | S fuel =>
      let release := fun (r : ref) =>
        match r with
        | Some c => destroy fuel (S depth) c
        | None => Some []
        end in
      let loop := fix loop (n : ASTNode) : option (list Entry) :=
        seq_logs (destroy fuel (S depth) (set_next n None))
                 (match m_next n with
                  | Some n' => loop n'
                  | None => Some []
                  end) in
      let members := fix members (cs : list ref) : option (list Entry) :=
        match cs with
        | [] => Some []
        | c :: rest => seq_logs (release c) (members rest)
        end in
      seq_logs (Some [mkEntry depth this])
        (seq_logs (release (class_member this))
           (seq_logs (match m_next this with
                      | Some n => loop n
                      | None => Some []
                      end)
                     (members (m_children this))))
  end.

(** [delete n] from outside any destructor. *)
Definition delete (fuel : nat) (n : ASTNode) : option (list Entry) :=
  destroy fuel 1 n.

(** The deepest call of a teardown. *)
Definition max_depth (log : list Entry) : nat :=
  fold_right (fun e m => Nat.max (entry_depth e) m) O log.

(** The nesting of destructor calls under the members of a node (its
    children and the member of its class), each member being the head of a
    chain of its own: 0 for a node that owns no node.  The later siblings
    of a member count one call more than the member, whatever their
    number. *)
Fixpoint below (n : ASTNode) : nat :=
  let tail := fix tail (s : ASTNode) : nat :=
    Nat.max (S (below s))
            (match m_next s with
             | Some s' => tail s'
             | None => O
             end) in
  let height := fun (r : ref) =>
    match r with
    | Some c => S (Nat.max (below c)
                           (match m_next c with
                            | Some s => tail s
                            | None => O
                            end))
    | None => O
    end in
  let members := fix members (cs : list ref) : nat :=
    match cs with
    | [] => O
    | c :: rest => Nat.max (height c) (members rest)
    end in
  Nat.max (match m_class n with
           | ASTstructselect_ _ _ _ _ _ ci => height ci
           | _ => O
           end)
          (members (m_children n)).

(** The three steps of a destructor call, named: the release of a
    reference, the loop over the later siblings starting at [n], and the
    release of the children. *)
Definition release (fuel depth : nat) (r : ref) : option (list Entry) :=
  match r with
  | Some c => destroy fuel depth c
  | None => Some []
  end.

Definition release_siblings (fuel depth : nat)
  : ASTNode -> option (list Entry) :=
  fix loop (n : ASTNode) : option (list Entry) :=
    seq_logs (destroy fuel depth (set_next n None))
             (match m_next n with
              | Some n' => loop n'
              | None => Some []
              end).

Definition release_members (fuel depth : nat)
  : list ref -> option (list Entry) :=
  fix members (cs : list ref) : option (list Entry) :=
    match cs with
    | [] => Some []
    | c :: rest => seq_logs (release fuel depth c) (members rest)
    end.

(** The nesting of calls that the chain from [s] on adds when its nodes
    are released one by one: one call per node plus what is below it, the
    largest over the chain. *)
Fixpoint chain_tail (s : ASTNode) : nat :=
  Nat.max (S (below s))
          (match m_next s with
           | Some s' => chain_tail s'
           | None => O
           end).

(** The nesting of calls of the destruction of the chain headed by [n],
    its own call included. *)
Definition height (n : ASTNode) : nat :=
  S (Nat.max (below n)
             (match m_next n with
              | Some s => chain_tail s
              | None => O
              end)).

Definition height_ref (r : ref) : nat :=
  match r with
  | Some c => height c
  | None => O
  end.

(** A log whose calls all run at the depths [d] to [d + h - 1]. *)
Definition within (d h : nat) (log : list Entry) : Prop :=
  forall e, In e log -> (d <= entry_depth e < d + h)%nat.

(** ** A reference implementation of the collaborators

    A symbol table that is a list of symbols, newest first, with the id of
    the current scope: enough to run the engine on concrete programs. *)

Module Reference.

Record Table : Type := mkTable {
  entries : list Symbol;
  scope : Z
}.

Definition find (t : Table) (nm : string) : option Symbol :=
  List.find (fun s => String.eqb (sym_name s) nm) (entries t).

Definition clash (t : Table) (nm : string) : option Symbol :=
  match find t nm with
  | Some s => if sym_scope s =? scope t then Some s else None
  | None => None
  end.

Definition stamp (s : Symbol) (sc : Z) : Symbol :=
  mkSymbol (sym_name s) (sym_typespec s) (sym_symtype s) sc (sym_node s)
           (sym_argcodes s) (sym_nextpoly s).

Definition insert (t : Table) (s : Symbol) : Table :=
  mkTable (stamp s (scope t) :: entries t) (scope t).

Definition readonly (s : Symbol) : bool :=
  match sym_symtype s with
  | SymTypeLocal | SymTypeTemp | SymTypeOutputParam => false
  | _ => true
  end.

Definition type_name (t : TypeSpec) : string :=
  let d := m_simple t in
  if TypeDesc_eqb d TypeInt then "int"
  else if TypeDesc_eqb d TypeFloat then "float"
  else if TypeDesc_eqb d TypeString then "string"
  else if TypeDesc_eqb d TypeColor then "color"
  else if TypeDesc_eqb d TypePoint then "point"
  else if TypeDesc_eqb d TypeVector then "vector"
  else if TypeDesc_eqb d TypeNormal then "normal"
  else if TypeDesc_eqb d TypeMatrix then "matrix"
  else "unknown".

Definition type_code (t : TypeSpec) : string :=
  String.substring 0 1 (type_name t).

(** The part of a path after its last slash. *)
Fixpoint basename (path : string) : string :=
  match path with
  | EmptyString => EmptyString
  | String c rest =>
      let b := basename rest in
      if existsb (Ascii.eqb "/"%char) (list_ascii_of_string rest) then b
      else if Ascii.eqb c "/"%char then rest
      else path
  end.

Definition collaborators : Collaborators := {|
  SymbolTable := Table;
  symtab_find := find;
  symtab_clash := clash;
  symtab_insert := insert;
  symtab_scopeid := scope;
  sym_readonly := readonly;
  code_from_type := type_code;
  fmt_type := type_name;
  Filesystem_filename := basename;
  structspec := fun _ => None
|}.

(** A compiler at line 7 of [shaders/test.osl], in scope 1, that knows
    the color [Cs] declared at line 3, the parameter [Kd], and the global
    function [noise]. *)
Definition Cs : Symbol :=
  mkSymbol "Cs" (TypeSpec_of TypeColor) SymTypeLocal 1
           (Some (mkDeclRef "shaders/test.osl" 3 false false)) EmptyString None.

Definition Kd : Symbol :=
  mkSymbol "Kd" (TypeSpec_of TypeFloat) SymTypeParam 1
           (Some (mkDeclRef "shaders/test.osl" 2 false false)) EmptyString None.

Definition noise : Symbol :=
  mkSymbol "noise" (TypeSpec_of TypeFloat) SymTypeFunction 0
           (Some (mkDeclRef "include/stdosl.h" 40 false true)) "ff" None.

Definition compiler : @OSLCompilerImpl collaborators :=
  @mkCompiler collaborators "shaders/test.osl" 7
    (mkTable [Cs; Kd; noise] 1) [] [].

(** The same compiler in the global scope, which also holds the global
    variable [P]; a global has no declaration node. *)
Definition P : Symbol :=
  mkSymbol "P" (TypeSpec_of TypePoint) SymTypeGlobal 0 None EmptyString None.

Definition global_compiler : @OSLCompilerImpl collaborators :=
  @mkCompiler collaborators "shaders/test.osl" 7 (mkTable [P; noise] 0) [] [].

(** Nodes of a small program: references to [Cs] and [Kd], the literals
    1, 2, 3, the floats 1.5 and -0.0. *)
Definition Cs_ref : ASTNode :=
  set_typespec (ASTNode_ (ASTvariable_ref_ "Cs" (Some Cs)) compiler 0 [])
               (TypeSpec_of TypeColor).

Definition Kd_ref : ASTNode :=
  set_typespec (ASTNode_ (ASTvariable_ref_ "Kd" (Some Kd)) compiler 0 [])
               (TypeSpec_of TypeFloat).

Definition one : ASTNode := ASTliteral_int compiler 1.
Definition two : ASTNode := ASTliteral_int compiler 2.
Definition three : ASTNode := ASTliteral_int compiler 3.

Definition one_and_a_half : CFloat.float := S754_finite false 12582912 (-23).
Definition minus_zero : CFloat.float := S754_zero true.

(** The statement list [1; 2; 3] as a sibling chain. *)
Definition statements : ASTNode :=
  set_next one (Some (set_next two (Some three))).

(** A formal parameter as its declaration leaves it. *)
Definition formal (nm : string) (type : TypeSpec) (init : ref)
  (isoutput : bool) (next : ref) : ASTNode :=
  mkASTNode "shaders/test.osl" 5 0 false type [init; None] next
    (ASTvariable_declaration_ nm
       (Some (new_Symbol nm type
                (if isoutput then SymTypeOutputParam else SymTypeParam)
                (Some (mkDeclRef "shaders/test.osl" 5 false false))))
       true isoutput false false).

Definition float_array (len : Z) : TypeSpec :=
  TypeSpec_of (mkTypeDesc FLOAT SCALAR NOXFORM len).

(** The formals [float Kd = 1, output float result[]]: the second one has
    no initializer and is an output of unsized array type. *)
Definition shader_formals : ASTNode :=
  formal "Kd" (TypeSpec_of TypeFloat) (Some one) false
    (Some (formal "result" (float_array (-1)) None true None)).

(** The formals [float a = 1, <unknown> b, float c]. *)
Definition function_formals : ASTNode :=
  formal "a" (TypeSpec_of TypeFloat) (Some one) false
    (Some (formal "b" TypeSpec_default None false
       (Some (formal "c" (TypeSpec_of TypeFloat) None false None)))).

End Reference.

(** ** What the specification says a fold of two integers yields *)

(** The exact result of an operator on two integers: the quotient
    truncates towards zero and the remainder has the sign of the dividend,
    both are 0 when the divisor is 0; a comparison is 1 or 0; a left shift
    multiplies by a power of two and a right shift divides by it, rounding
    down.  [None] on the operators that do not fold. *)
Definition int_result (op : Operator) (a b : Z) : option Z :=
  match op with
  | Mul => Some (a * b)
  | Div => Some (if b =? 0 then 0 else Z.quot a b)
  | Add => Some (a + b)
  | Sub => Some (a - b)
  | Mod => Some (if b =? 0 then 0 else Z.rem a b)
  | Equal => Some (if a =? b then 1 else 0)
  | NotEqual => Some (if a =? b then 0 else 1)
  | Greater => Some (if b <? a then 1 else 0)
  | Less => Some (if a <? b then 1 else 0)
  | GreaterEqual => Some (if b <=? a then 1 else 0)
  | LessEqual => Some (if a <=? b then 1 else 0)
  | BitAnd => Some (Z.land a b)
  | BitOr => Some (Z.lor a b)
  | Xor => Some (Z.lxor a b)
  | ShiftLeft => Some (a * 2 ^ b)
  | ShiftRight => Some (a / 2 ^ b)
  | _ => None
  end.

(** The pairs on which C++ defines the operator on [int]: the exact
    result fits an [int], a quotient exists in [int] (also for the
    remainder), a shift count is one of 0..31. *)
Definition int_defined (op : Operator) (a b : Z) : Prop :=
  match op with
  | Mul => CInt.in_range (a * b)
  | Add => CInt.in_range (a + b)
  | Sub => CInt.in_range (a - b)
  | Div | Mod => b = 0 \/ CInt.in_range (Z.quot a b)
  | ShiftLeft => 0 <= b < 32 /\ CInt.in_range (a * 2 ^ b)
  | ShiftRight => 0 <= b < 32
  | _ => True
  end.

(** ** What the specification says a fold of two floats yields *)

(** A folded value: a [float] or an [int]. *)
Inductive Folded : Type :=
| FoldedFloat (f : spec_float)
| FoldedInt (i : Z).

(** The result of an operator on two [float] values.  The product, the
    quotient, the sum and the difference are those of IEEE 754 single
    precision (24 bits of precision, rounding to nearest even), the
    quotient by a zero of either sign being +0.0.  A comparison is the
    integer 1 when the relation holds of the two values and 0 when it does
    not; of a NaN no relation holds but [!=].  [None] on the operators
    that do not fold. *)
Definition float_result (op : Operator) (a b : spec_float) : option Folded :=
  match op with
  | Mul => Some (FoldedFloat (SFmul 24 128 a b))
  | Div => Some (FoldedFloat match b with
                             | S754_zero _ => S754_zero false
                             | _ => SFdiv 24 128 a b
                             end)
  | Add => Some (FoldedFloat (SFadd 24 128 a b))
  | Sub => Some (FoldedFloat (SFsub 24 128 a b))
  | Equal =>
      Some (FoldedInt match SFcompare a b with Some Eq => 1 | _ => 0 end)
  | NotEqual =>
      Some (FoldedInt match SFcompare a b with Some Eq => 0 | _ => 1 end)
  | Greater =>
      Some (FoldedInt match SFcompare a b with Some Gt => 1 | _ => 0 end)
  | Less =>
      Some (FoldedInt match SFcompare a b with Some Lt => 1 | _ => 0 end)
  | GreaterEqual =>
      Some (FoldedInt match SFcompare a b with
                      | Some Gt | Some Eq => 1
                      | _ => 0
                      end)
  | LessEqual =>
      Some (FoldedInt match SFcompare a b with
                      | Some Lt | Some Eq => 1
                      | _ => 0
                      end)
  | _ => None
  end.

(** The operators of a compound assignment: [+=], [*=], [/=], [-=],
    [&=], [|=], [^=], [<<=], [>>=]. *)
Definition compound_operators : list Operator :=
  [Add; Mul; Div; Sub; BitAnd; BitOr; Xor; ShiftLeft; ShiftRight].

(** The operators that fold on [float] literals, and the bitwise and
    shift operators, which do not. *)
Definition float_fold_operators : list Operator :=
  [Mul; Div; Add; Sub; Equal; NotEqual; Greater; GreaterEqual; Less; LessEqual].

Definition bitwise_shift_operators : list Operator :=
  [BitAnd; BitOr; Xor; ShiftLeft; ShiftRight].

(** The operators a binary-expression node can carry. *)
Definition is_binary_operator (op : Operator) : bool :=
  not_null (binary_opword (Operator_code op)).

(** The case in which an index node takes over the base and the index of
    the index node it is built on: it has one index of its own and that
    base node has two children. *)
Definition takes_over_base (expr : ASTNode) (index2 : ref) : bool :=
  is_null index2
  && NodeType_beq (nodetype expr) index_node
  && (nchildren expr =? 2)%nat.

(** The table of the specification: the combinations of a base type and a
    number of indices that have a type. *)
Definition indexable (base : TypeSpec) (indices : nat) : bool :=
  match indices with
  | 1%nat => TS.is_array base || (negb (TS.is_closure base) && TS.is_triple base)
  | 2%nat => TS.is_matrix base
             || (TS.is_array base && TS.is_triple (TS.elementtype base))
  | 3%nat => TS.is_array base && TS.is_matrix (TS.elementtype base)
  | _ => false
  end.

(** The diagnostics the specification asks for one formal of a shader:
    an error when it has no default initializer, and another one when it
    is an output of unsized array type. *)
Definition shader_formal_diagnostics (arg : ASTNode) : list Diagnostic :=
  (if not_null (init arg) then []
   else [mkDiagnostic Error (m_sourcefile arg) (m_sourceline arg)
                      (requires_initializer arg)])
  ++ (if is_output arg && TS.is_unsized_array (typespec arg)
      then [mkDiagnostic Error (m_sourcefile arg) (m_sourceline arg)
                         (cant_be_unsized arg)]
      else []).

(** The diagnostic a formal of a plain function gets before the
    constructor goes on to the next one: an error when it has a default
    initializer. *)
Definition function_formal_diagnostics (arg : ASTNode) : list Diagnostic :=
  if not_null (init arg)
  then [mkDiagnostic Error (m_sourcefile arg) (m_sourceline arg)
                     (may_not_have_initializer arg)]
  else [].

(** A target of an assignment whose chain of index and struct-select
    nodes has a base at every step. *)
Fixpoint has_base (var : ASTNode) : bool :=
  match nodetype var with
  | index_node | structselect_node =>
      match m_children var with
      | Some lv :: _ => has_base lv
      | _ => false
      end
  | _ => true
  end.

(** ** Further parts of [ast.cpp] *)

Section EngineRest.

Context {C : Collaborators}.

Notation "x <- m ;; k" := (bind m (fun x => k))
  (at level 61, m at next level, right associativity).
Notation "m ;;; k" := (bind m (fun _ => k))
  (at level 61, right associativity).

(** The node [check_symbol_writeability] ends on: the target itself, or
    the base under its index and struct-select nodes; null when a base is
    missing on the way. *)
Fixpoint written_node (var : ASTNode) : ref :=
  match nodetype var with
  | index_node | structselect_node =>
      match m_children var with
      | Some lv :: _ => written_node lv
      | _ => None
      end
  | _ => Some var
  end.

(** The symbol that node stands for, when it is a reference or a
    declaration. *)
Definition written_symbol (root : ASTNode) : option Symbol :=
  match nodetype root with
  | variable_ref_node | variable_declaration_node => sym root
  | _ => None
  end.

(** Whether the target is an index or a struct-select node, whose base the
    check goes on with. *)
Definition is_selection (var : ASTNode) : bool :=
  match nodetype var with
  | index_node | structselect_node => true
  | _ => false
  end.

Definition cannot_write (d : Symbol) : string :=
  "cannot write to non-output parameter " ++ dquote ++ sym_name d ++ dquote.

(** [ASTunary_expression::opname] and [::opword], on the operator code of
    the node; the default case of each switch is a failed assertion. *)
Definition unary_opname (op : Z) : option string :=
  match Operator_of_code op with
  | Some Add => Some "+"
  | Some Sub => Some "-"
  | Some Not => Some "!"
  | Some Compl => Some "~"
  | _ => None
  end.

Definition unary_opword (op : Z) : option string :=
  match Operator_of_code op with
  | Some Add => Some "add"
  | Some Sub => Some "neg"
  | Some Not => Some "not"
  | Some Compl => Some "compl"
  | _ => None
  end.

(** [ASTunary_expression::ASTunary_expression] *)
Definition ASTunary_expression (op : Z) (expr : ref) : M ASTNode :=
  comp <- get ;;
  let this := ASTNode_ (ASTunary_expression_ None) comp op [expr] in
  word <- deref (unary_opword (m_op this)) ;;
  let sym := symtab_find (symtab comp) ("__operator__" ++ word ++ "__") in
  if is_function sym
  then ret (set_class this (ASTunary_expression_ sym))
  else ret this.

(** The operators that look for an overload, each with the word it looks
    under: the sixteen of a binary expression (the logical [&&] and [||]
    do not look) and the four of a unary expression, with the names of
    the latter. *)
Definition binary_overload_words : list (Operator * string) :=
  [(Mul, "mul"); (Div, "div"); (Add, "add"); (Sub, "sub"); (Mod, "mod");
   (Equal, "eq"); (NotEqual, "neq"); (Greater, "gt"); (GreaterEqual, "ge");
   (Less, "lt"); (LessEqual, "le"); (BitAnd, "bitand"); (BitOr, "bitor");
   (Xor, "xor"); (ShiftLeft, "shl"); (ShiftRight, "shr")].

Definition unary_overload_words : list (Operator * string) :=
  [(Add, "add"); (Sub, "neg"); (Not, "not"); (Compl, "compl")].

Definition unary_operator_names : list (Operator * string) :=
  [(Add, "+"); (Sub, "-"); (Not, "!"); (Compl, "~")].

(** The user's overload an operator node remembers. *)
Definition function_overload (n : ASTNode) : option Symbol :=
  match m_class n with
  | ASTbinary_expression_ f => f
  | ASTunary_expression_ f => f
  | _ => None
  end.

(** [ASTbinary_expression::opname] *)
Definition binary_opname (op : Z) : option string :=
  match Operator_of_code op with
  | Some Mul => Some "*"
  | Some Div => Some "/"
  | Some Add => Some "+"
  | Some Sub => Some "-"
  | Some Mod => Some "%"
  | Some Equal => Some "=="
  | Some NotEqual => Some "!="
  | Some Greater => Some ">"
  | Some GreaterEqual => Some ">="
  | Some Less => Some "<"
  | Some LessEqual => Some "<="
  | Some BitAnd => Some "&"
  | Some BitOr => Some "|"
  | Some Xor => Some "^"
  | Some And => Some "&&"
  | Some Or => Some "||"
  | Some ShiftLeft => Some "<<"
  | Some ShiftRight => Some ">>"
  | _ => None
  end.

(** [ASTassign_expression::opname] and [::opword] *)
Definition assign_opname (op : Z) : option string :=
  match Operator_of_code op with
  | Some Assign => Some "="
  | Some Mul => Some "*="
  | Some Div => Some "/="
  | Some Add => Some "+="
  | Some Sub => Some "-="
  | Some BitAnd => Some "&="
  | Some BitOr => Some "|="
  | Some Xor => Some "^="
  | Some ShiftLeft => Some "<<="
  | Some ShiftRight => Some ">>="
  | _ => None
  end.

Definition assign_opword (op : Z) : option string :=
  match Operator_of_code op with
  | Some Assign => Some "assign"
  | Some Mul => Some "mul"
  | Some Div => Some "div"
  | Some Add => Some "add"
  | Some Sub => Some "sub"
  | Some BitAnd => Some "bitand"
  | Some BitOr => Some "bitor"
  | Some Xor => Some "xor"
  | Some ShiftLeft => Some "shl"
  | Some ShiftRight => Some "shr"
  | _ => None
  end.

(** The tables of the [childname] methods that index a static array of
    names with the number of the child: the array of each node kind that
    has one. *)
Definition childname_table (t : NodeType) : option (list string) :=
  match t with
  | shader_declaration_node => Some ["metadata"; "formals"; "statements"]
  | function_declaration_node => Some ["metadata"; "formals"; "statements"]
  | variable_declaration_node => Some ["initializer"; "metadata"]
  | preincdec_node => Some ["expression"]
  | postincdec_node => Some ["expression"]
  | index_node => Some ["expression"; "index"; "index"]
  | structselect_node => Some ["structure"]
  | conditional_statement_node =>
      Some ["condition"; "truestatement"; "falsestatement"]
  | loop_statement_node =>
      Some ["initializer"; "condition"; "iteration"; "bodystatement"]
  | assign_expression_node => Some ["variable"; "expression"]
  | unary_expression_node => Some ["expression"]
  | binary_expression_node => Some ["left"; "right"]
  | ternary_expression_node =>
      Some ["condition"; "trueexpression"; "falseexpression"]
  | typecast_expression_node => Some ["expr"]
  | type_constructor_node => Some ["args"]
  | _ => None
  end.

(** [name[i]] in the table of the node: [None] when the node kind has no
    table or [i] is beyond its end. *)
Definition table_childname (n : ASTNode) (i : nat) : option string :=
  match childname_table (nodetype n) with
  | Some names => nth_error names i
  | None => None
  end.

(** An overload that a new definition with a body redefines: it has the
    scope and the signature of the new one, and a body of its own or none
    to show (a built-in). *)
Definition conflicts (current_scope : Z) (argcodes : string) (f : Symbol)
  : bool :=
  (sym_scope f =? current_scope) && String.eqb (sym_argcodes f) argcodes
  && match sym_node f with
     | None => true
     | Some o => decl_statements o || decl_is_builtin o
     end.

(** The line the redefinition warning has for such an overload. *)
Definition previous_definition (f : Symbol) : string :=
  newline ++ "    "
  ++ match sym_node f with
     | Some o => Filesystem_filename (decl_sourcefile o) ++ ":"
                 ++ fmt_int (decl_sourceline o)
     | None => "built-in"
     end.

(** The signature of a function: the code of its return type and then the
    codes of the types of its formals. *)
Definition signature (type : TypeSpec) (formals : list ASTNode) : string :=
  code_from_type type
  ++ String.concat EmptyString (map (fun a => code_from_type (typespec a)) formals).

(** The two cases of [find_fieldsym] that read a field name as a
    component: [r], [g], [b] of a color and [x], [y], [z] of a point, a
    vector or a normal. *)
Definition named_component (lvtype : TypeSpec) (fn : string) : bool :=
  TS.is_color lvtype
  && (String.eqb fn "r" || String.eqb fn "g" || String.eqb fn "b")
  || TS.is_vectriple lvtype
     && (String.eqb fn "x" || String.eqb fn "y" || String.eqb fn "z").

Definition no_member (lvtype : TypeSpec) (fld : string) : string :=
  "type '" ++ fmt_type lvtype ++ "' does not have a member '" ++ fld ++ "'".

Definition no_struct_member (spec : StructSpec) (fld : string) : string :=
  "struct type '" ++ struct_name spec ++ "' does not have a member '"
  ++ fld ++ "'".

End EngineRest.

(** The constructor of call nodes asks [is_struct_ctr()], which is not in
    [ast.cpp]; it can only go by the symbol the node has resolved, and is
    taken as a parameter on that symbol. *)
Section FunctionCall.

Context {C : Collaborators}.

Notation "x <- m ;; k" := (bind m (fun x => k))
  (at level 61, m at next level, right associativity).
Notation "m ;;; k" := (bind m (fun _ => k))
  (at level 61, right associativity).

Variable is_structure : Symbol -> bool.

Definition not_declared_function (name : string) : string :=
  "function '" ++ name ++ "' was not declared in this scope".

Definition not_a_function (name : string) : string :=
  "'" ++ name ++ "' is not a function".

(** [ASTfunction_call::ASTfunction_call]; the argument masks, which the
    constructor only initializes, are left out. *)
Definition ASTfunction_call (name : string) (args : ref)
  (funcsym : option Symbol) : M ASTNode :=
  comp <- get ;;
  let m_sym := match funcsym with
               | Some f => Some f
               | None => symtab_find (symtab comp) name
               end in
  let this := ASTNode_ (ASTfunction_call_ name m_sym) comp 0 [args] in
  match m_sym with
  | None =>
      errorfmt this (not_declared_function name) ;;;
      ret this
  | Some s =>
      if is_structure s then ret this
      else if negb (SymType_beq (sym_symtype s) SymTypeFunction) then
        errorfmt this (not_a_function name) ;;;
        ret (set_class this (ASTfunction_call_ name None))
      else ret this
  end.

End FunctionCall.

(** ** More of the small program *)

Module Sample.

Import Reference.

(** A user's overload of [+] on colors, and a compiler that knows it. *)
Definition operator_add : Symbol :=
  mkSymbol "__operator__add__" (TypeSpec_of TypeColor) SymTypeFunction 0
           (Some (mkDeclRef "shaders/test.osl" 1 true false)) "ccc" None.

Definition overloading_compiler : @OSLCompilerImpl collaborators :=
  @mkCompiler collaborators "shaders/test.osl" 7
    (mkTable [operator_add; Cs; Kd; noise] 1) [] [].

(** The array [color colors[4]] and its element [colors[2]], as the
    constructor of index nodes leaves it. *)
Definition color_array : TypeSpec :=
  TypeSpec_of (mkTypeDesc FLOAT VEC3 COLOR 4).

Definition colors_ref : ASTNode :=
  set_typespec (ASTNode_ (ASTvariable_ref_ "colors" None) compiler 0 [])
               color_array.

Definition colors_two : ASTNode :=
  set_typespec (ASTNode_ ASTindex_ compiler 0 [Some colors_ref; Some two])
               (TypeSpec_of TypeColor).

(** The formal [float x] and the body [1] of a definition of [noise]. *)
Definition float_x : ASTNode :=
  formal "x" (TypeSpec_of TypeFloat) None false None.

(** A structure registry with one structure, [struct ray { point origin;
    vector dir; }], of id 1, and a compiler that knows the variable [r] of
    that type with its two fields. *)
Definition ray : StructSpec :=
  mkStructSpec "ray" [mkFieldSpec "origin" (TypeSpec_of TypePoint);
                      mkFieldSpec "dir" (TypeSpec_of TypeVector)].

Definition ray_type : TypeSpec := mkTypeSpec TypeUnknown 1 false.

Definition with_structs : Collaborators := {|
  SymbolTable := Table;
  symtab_find := find;
  symtab_clash := clash;
  symtab_insert := insert;
  symtab_scopeid := scope;
  sym_readonly := readonly;
  code_from_type := type_code;
  fmt_type := type_name;
  Filesystem_filename := basename;
  structspec := fun id => if id =? 1 then Some ray else None
|}.

Definition r : Symbol :=
  mkSymbol "r" ray_type SymTypeLocal 1
           (Some (mkDeclRef "shaders/test.osl" 4 false false)) EmptyString None.

Definition r_origin : Symbol :=
  mkSymbol "r.origin" (TypeSpec_of TypePoint) SymTypeLocal 1
           (Some (mkDeclRef "shaders/test.osl" 4 false false)) EmptyString None.

Definition r_dir : Symbol :=
  mkSymbol "r.dir" (TypeSpec_of TypeVector) SymTypeLocal 1
           (Some (mkDeclRef "shaders/test.osl" 4 false false)) EmptyString None.

Definition struct_compiler : @OSLCompilerImpl with_structs :=
  @mkCompiler with_structs "shaders/test.osl" 7
    (mkTable [r; r_origin; r_dir] 1) [] [].

Definition r_ref : ASTNode :=
  set_typespec (ASTNode_ (ASTvariable_ref_ "r" (Some r)) struct_compiler 0 [])
               ray_type.

End Sample.

(** * Properties *)

(** ** Facts on 32-bit arithmetic *)

Module CIntFacts.

Import CInt.

Lemma wrap_in_range (z : Z) : in_range (wrap z).
Proof.
  unfold in_range, wrap, int_min, int_max.
  pose proof (Z.mod_pos_bound (z + 2 ^ 31) (2 ^ 32) ltac:(lia)). lia.
Qed.

Lemma wrap_exact (z : Z) : in_range z -> wrap z = z.
Proof.
  unfold in_range, wrap, int_min, int_max. intros H.
  rewrite Z.mod_small by lia. lia.
Qed.

(** An [int] is a number whose bits from 31 up are all its sign. *)
Lemma in_range_shiftr (z : Z) :
  in_range z <-> Z.shiftr z 31 = 0 \/ Z.shiftr z 31 = -1.
Proof.
  rewrite Z.shiftr_div_pow2 by lia.
  unfold in_range, int_min, int_max.
  pose proof (Z.div_mod z (2 ^ 31) ltac:(lia)) as E.
  pose proof (Z.mod_pos_bound z (2 ^ 31) ltac:(lia)) as B.
  split.
  - intros H. assert (-1 <= z / 2 ^ 31 <= 0) by nia. lia.
  - intros [H | H]; rewrite H in E; lia.
Qed.

Lemma sign_cases (P : Z -> Z -> Prop) (x y : Z) :
  (x = 0 \/ x = -1) -> (y = 0 \/ y = -1) ->
  P 0 0 -> P 0 (-1) -> P (-1) 0 -> P (-1) (-1) -> P x y.
Proof. intros [-> | ->] [-> | ->]; auto. Qed.

Lemma land_in_range (a b : Z) : in_range a -> in_range b -> in_range (Z.land a b).
Proof.
  rewrite !in_range_shiftr, Z.shiftr_land. intros Ha Hb.
  apply (sign_cases (fun x y => Z.land x y = 0 \/ Z.land x y = -1) _ _ Ha Hb);
    cbn; auto.
Qed.

Lemma lor_in_range (a b : Z) : in_range a -> in_range b -> in_range (Z.lor a b).
Proof.
  rewrite !in_range_shiftr, Z.shiftr_lor. intros Ha Hb.
  apply (sign_cases (fun x y => Z.lor x y = 0 \/ Z.lor x y = -1) _ _ Ha Hb);
    cbn; auto.
Qed.

Lemma lxor_in_range (a b : Z) : in_range a -> in_range b -> in_range (Z.lxor a b).
Proof.
  rewrite !in_range_shiftr, Z.shiftr_lxor. intros Ha Hb.
  apply (sign_cases (fun x y => Z.lxor x y = 0 \/ Z.lxor x y = -1) _ _ Ha Hb);
    cbn; auto.
Qed.

Lemma rem_in_range (a b : Z) : in_range a -> in_range (Z.rem a b).
Proof.
  unfold in_range, int_min, int_max. intros H.
  destruct (Z.eq_dec b 0) as [-> | Hb].
  - destruct a; exact H.
  - destruct (Z_le_gt_dec 0 a) as [Ha | Ha].
    + pose proof (Z.rem_nonneg a b Hb Ha).
      assert (Z.rem a b <= a).
      { destruct (Z_lt_le_dec 0 b); [apply Z.rem_le; lia |].
        rewrite <- (Z.rem_opp_r a b) by lia. apply Z.rem_le; lia. }
      lia.
    + assert (E : Z.rem a b = - Z.rem (- a) b) by (rewrite Z.rem_opp_l; lia).
      assert (0 <= Z.rem (- a) b) by (apply Z.rem_nonneg; lia).
      assert (Z.rem (- a) b <= - a).
      { destruct (Z_lt_le_dec 0 b); [apply Z.rem_le; lia |].
        rewrite <- (Z.rem_opp_r (- a) b) by lia. apply Z.rem_le; lia. }
      lia.
Qed.

Lemma shiftr_in_range (a b : Z) : 0 <= b -> in_range a -> in_range (Z.shiftr a b).
Proof.
  intros Hb. rewrite !in_range_shiftr.
  rewrite Z.shiftr_shiftr by lia.
  replace (b + 31) with (31 + b) by lia.
  rewrite <- Z.shiftr_shiftr by lia.
  intros [-> | ->].
  - left. apply Z.shiftr_0_l.
  - right. rewrite Z.shiftr_div_pow2 by lia.
    pose proof (Z.pow_pos_nonneg 2 b ltac:(lia) Hb).
    symmetry. apply (Z.div_unique_pos (-1) (2 ^ b) (-1) (2 ^ b - 1)); lia.
Qed.

End CIntFacts.

Section Properties.

Context {C : Collaborators}.

(** ** Sibling lists and loops *)

Lemma list_to_vec_cons (n : ASTNode) (rest : ref) :
  list_to_vec (Some (set_next n rest)) = set_next n rest :: list_to_vec rest.
Proof. destruct n, rest; reflexivity. Qed.

Lemma unlinked_set_next (n : ASTNode) (r : ref) :
  unlinked (set_next n r) = unlinked n.
Proof. destruct n; reflexivity. Qed.

(** [vec_to_list] chains the nodes of the sequence in order, and
    [list_to_vec] reads them back. *)
Lemma list_to_vec_vec_to_list (vec : list ASTNode) :
  map unlinked (list_to_vec (vec_to_list vec)) = map unlinked vec.
Proof.
  induction vec as [| n rest IH]; [reflexivity |].
  cbn [vec_to_list]. rewrite list_to_vec_cons. cbn [map].
  rewrite unlinked_set_next, IH. reflexivity.
Qed.

Lemma reverse_loop_nodes (todo : list ASTNode) (new_list : ref) :
  map unlinked (list_to_vec (reverse_loop todo new_list))
  = (rev (map unlinked todo) ++ map unlinked (list_to_vec new_list))%list.
Proof.
  revert new_list. induction todo as [| n rest IH]; intros new_list.
  - reflexivity.
  - cbn [reverse_loop map rev]. rewrite IH, list_to_vec_cons. cbn [map].
    rewrite unlinked_set_next, <- app_assoc. reflexivity.
Qed.

(** [reverse] returns the chain of the same nodes in the opposite order. *)
Lemma reverse_reverses (list : ref) :
  map unlinked (list_to_vec (reverse list))
  = rev (map unlinked (list_to_vec list)).
Proof.
  unfold reverse. rewrite reverse_loop_nodes. apply app_nil_r.
Qed.

(** A loop node always has a condition: the one given, or the literal 1. *)
Lemma loop_condition_never_missing (comp : OSLCompilerImpl) (looptype : Z)
  (init cond iter stmt : ref) :
  exists n,
    ASTloop_statement looptype init cond iter stmt comp = Some (n, comp)
    /\ nodetype n = loop_statement_node
    /\ child n 1 = Some (match cond with
                         | Some c => c
                         | None => ASTliteral_int comp 1
                         end).
Proof.
  unfold ASTloop_statement. cbv [bind get ret].
  destruct cond as [c |]; eexists; repeat split; reflexivity.
Qed.

(** ** Constant folding *)

(** Whatever the operands, a folded integer is an [int]. *)
Lemma fold_int_in_range (op : Operator) (a b r : Z) :
  fold_int op a b = Some r -> CInt.in_range r.
Proof.
  assert (Z0 : CInt.in_range 0)
    by (unfold CInt.in_range, CInt.int_min, CInt.int_max; lia).
  assert (B : forall c, CInt.in_range (CInt.of_bool c))
    by (intros []; unfold CInt.in_range, CInt.int_min, CInt.int_max;
        cbn [CInt.of_bool]; lia).
  destruct op; cbn [fold_int]; intros E; inversion E; subst; clear E;
    try apply CIntFacts.wrap_in_range; try apply B;
    destruct (b =? 0); (exact Z0 || apply CIntFacts.wrap_in_range).
Qed.

Lemma fold_int_exact (op : Operator) (a b r : Z) :
  CInt.in_range a -> CInt.in_range b ->
  int_result op a b = Some r -> int_defined op a b ->
  fold_int op a b = Some r.
Proof.
  intros Ha Hb.
  destruct op; cbn [int_result int_defined fold_int]; intros E D;
    inversion E; subst; clear E; f_equal.
  - (* Mul *) apply CIntFacts.wrap_exact; exact D.
  - (* Div *) destruct (Z.eqb_spec b 0); [reflexivity |].
    apply CIntFacts.wrap_exact. destruct D; [contradiction | assumption].
  - (* Add *) apply CIntFacts.wrap_exact; exact D.
  - (* Sub *) apply CIntFacts.wrap_exact; exact D.
  - (* Mod *) destruct (Z.eqb_spec b 0); [reflexivity |].
    apply CIntFacts.wrap_exact, CIntFacts.rem_in_range, Ha.
  - (* NotEqual *) destruct (a =? b); reflexivity.
  - (* Greater *) rewrite Z.gtb_ltb. reflexivity.
  - (* GreaterEqual *) rewrite Z.geb_leb. reflexivity.
  - (* BitAnd *) apply CIntFacts.wrap_exact, CIntFacts.land_in_range; assumption.
  - (* BitOr *) apply CIntFacts.wrap_exact, CIntFacts.lor_in_range; assumption.
  - (* Xor *) apply CIntFacts.wrap_exact, CIntFacts.lxor_in_range; assumption.
  - (* ShiftLeft *) destruct D as [Hc Hr]. unfold CInt.shl.
    rewrite Z.mod_small by lia. rewrite Z.shiftl_mul_pow2 by lia.
    apply CIntFacts.wrap_exact, Hr.
  - (* ShiftRight *) unfold CInt.shr. rewrite Z.mod_small by lia.
    rewrite <- Z.shiftr_div_pow2 by lia.
    apply CIntFacts.wrap_exact, CIntFacts.shiftr_in_range; [lia | exact Ha].
Qed.

Lemma literal_node_beq (n : ASTNode) :
  nodetype n = literal_node -> NodeType_beq (nodetype n) literal_node = true.
Proof. intros ->. reflexivity. Qed.

(** C1 (as amended).  Two integer literal nodes and an operator among
    mul, div, add, sub, mod, the six comparisons, the three bitwise
    operators and the two shifts: whenever C++ defines the operator on the
    two [int] values (the exact result fits an [int], the quotient exists,
    a shift count is in 0..31), [make] returns the literal node of the
    exact result, a division or a remainder by zero being the literal 0;
    the compiler is left as it was and the node returned is a childless
    literal, no binary-expression node. *)
Theorem make_folds_int_literals (comp : OSLCompilerImpl) (op : Operator)
  (left right : ASTNode) (a b r : Z) :
  nodetype left = literal_node -> nodetype right = literal_node ->
  TS.is_int (typespec left) = true -> TS.is_int (typespec right) = true ->
  intval left = Some a -> intval right = Some b ->
  CInt.in_range a -> CInt.in_range b ->
  int_result op a b = Some r -> int_defined op a b ->
  make op left right comp = Some (ASTliteral_int comp r, comp)
  /\ nodetype (ASTliteral_int comp r) = literal_node
  /\ intval (ASTliteral_int comp r) = Some r
  /\ m_children (ASTliteral_int comp r) = [].
Proof.
  intros Nl Nr Tl Tr Il Ir Ha Hb E D.
  split; [| repeat split].
  unfold make.
  rewrite (literal_node_beq _ Nl), (literal_node_beq _ Nr). cbn [andb].
  unfold bind, get. rewrite Tl, Tr. cbn [andb].
  rewrite Il, Ir. cbn [deref ret].
  rewrite (fold_int_exact op a b r Ha Hb E D). reflexivity.
Qed.

Lemma is_float_not_int (t : TypeSpec) :
  TS.is_float t = true -> TS.is_int t = false.
Proof.
  destruct t as [[bt ag vs al] st cl].
  unfold TS.is_float, TS.is_int, TS.is_simple, TypeDesc_eqb. cbn.
  destruct bt; cbn; try discriminate; reflexivity.
Qed.

(** The plain constructor builds a two-child binary-expression node and
    leaves the compiler as it was. *)
Lemma binary_expression_node_built (comp : OSLCompilerImpl) (op : Operator)
  (l r : ref) :
  is_binary_operator op = true ->
  exists n, ASTbinary_expression op l r comp = Some (n, comp)
    /\ nodetype n = binary_expression_node
    /\ m_op n = Operator_code op
    /\ m_children n = [l; r].
Proof.
  intros H. unfold ASTbinary_expression, bind, get.
  destruct op; try discriminate H; cbn;
    try (eexists; repeat split; reflexivity);
    match goal with
    | |- context [is_function ?s] =>
        destruct (is_function s); cbn; eexists; repeat split; reflexivity
    end.
Qed.

(** [a > b] is [b < a], also on floats. *)
Lemma SFcompare_swap (a b : spec_float) :
  SFcompare b a = option_map CompOpp (SFcompare a b).
Proof.
  destruct a as [sa | sa | | sa ma ea], b as [sb | sb | | sb mb eb];
    cbn [SFcompare option_map]; try reflexivity;
    try (destruct sa; reflexivity); try (destruct sb; reflexivity);
    try (destruct sa, sb; reflexivity).
  destruct sa, sb; cbn [CompOpp]; try reflexivity;
    rewrite (Z.compare_antisym ea eb);
    destruct (ea ?= eb); cbn [CompOpp]; try reflexivity;
    rewrite (Pos.compare_cont_antisym ma mb Eq); cbn [CompOpp];
    rewrite ?CompOpp_involutive; reflexivity.
Qed.

(** The fold of the code is the fold the specification describes. *)
Lemma fold_float_result (comp : OSLCompilerImpl) (op : Operator)
  (a b : CFloat.float) :
  fold_float comp op a b
  = match float_result op a b with
    | Some (FoldedFloat r) => Some (ASTliteral_float comp r)
    | Some (FoldedInt k) => Some (ASTliteral_int comp k)
    | None => None
    end.
Proof.
  destruct op; cbn [fold_float float_result]; try reflexivity.
  - unfold CFloat.to_bool, CFloat.zero. destruct b; reflexivity.
  - unfold CFloat.eqb, SFeqb, CInt.of_bool.
    destruct (SFcompare a b) as [[] |]; reflexivity.
  - unfold CFloat.eqb, SFeqb, CInt.of_bool.
    destruct (SFcompare a b) as [[] |]; reflexivity.
  - unfold CFloat.ltb, SFltb, CInt.of_bool. rewrite (SFcompare_swap a b).
    destruct (SFcompare a b) as [[] |]; reflexivity.
  - unfold CFloat.ltb, SFltb, CInt.of_bool.
    destruct (SFcompare a b) as [[] |]; reflexivity.
  - unfold CFloat.leb, SFleb, CInt.of_bool. rewrite (SFcompare_swap a b).
    destruct (SFcompare a b) as [[] |]; reflexivity.
  - unfold CFloat.leb, SFleb, CInt.of_bool.
    destruct (SFcompare a b) as [[] |]; reflexivity.
Qed.

(** C2.  Two float literal nodes: [make] folds multiply, divide, add,
    subtract and the six comparisons to a literal node and leaves the
    compiler as it was.  The literal of an arithmetic operator is the
    [float] literal of the single-precision product, quotient, sum or
    difference of the two values, a division by a zero being the literal
    0.0; the literal of a comparison is the [int] literal 1 when the
    relation holds of the two values and 0 when it does not.  On the
    bitwise and shift operators [make] never folds: it returns a
    binary-expression node whose children are the two literals. *)
Theorem make_float_literals (comp : OSLCompilerImpl) (op : Operator)
  (left right : ASTNode) (a b : CFloat.float) :
  nodetype left = literal_node -> nodetype right = literal_node ->
  TS.is_float (typespec left) = true -> TS.is_float (typespec right) = true ->
  floatval left = Some a -> floatval right = Some b ->
  (In op float_fold_operators ->
   exists n, make op left right comp = Some (n, comp)
     /\ fold_float comp op a b = Some n
     /\ nodetype n = literal_node
     /\ m_children n = []
     /\ match float_result op a b with
        | Some (FoldedFloat r) =>
            n = ASTliteral_float comp r
            /\ floatval n = Some r /\ TS.is_float (typespec n) = true
        | Some (FoldedInt k) =>
            n = ASTliteral_int comp k
            /\ intval n = Some k /\ TS.is_int (typespec n) = true
            /\ (k = 0 \/ k = 1)
        | None => False
        end)
  /\ (op = Div -> CFloat.to_bool b = false ->
      make op left right comp = Some (ASTliteral_float comp CFloat.zero, comp))
  /\ (In op bitwise_shift_operators ->
      exists n, make op left right comp = Some (n, comp)
        /\ nodetype n = binary_expression_node
        /\ m_op n = Operator_code op
        /\ m_children n = [Some left; Some right]).
Proof.
  intros Nl Nr Tl Tr Fl Fr.
  assert (E : make op left right comp =
              match fold_float comp op a b with
              | Some n => Some (n, comp)
              | None => ASTbinary_expression op (Some left) (Some right) comp
              end).
  { unfold make.
    rewrite (literal_node_beq _ Nl), (literal_node_beq _ Nr). cbn [andb].
    unfold bind, get.
    rewrite (is_float_not_int _ Tl), Tl, Tr. cbn [andb].
    rewrite Fl, Fr. cbn [deref ret].
    destruct (fold_float comp op a b); reflexivity. }
  rewrite E. split; [| split].
  - intros H. rewrite (fold_float_result comp op a b).
    cbn in H.
    repeat (destruct H as [<- | H];
            [cbn [float_result]; eexists; (split; [reflexivity |]);
             (split; [reflexivity |]); (split; [reflexivity |]);
             (split; [reflexivity |]); (split; [reflexivity |]);
             try (split; reflexivity);
             (split; [reflexivity |]); (split; [reflexivity |]);
             destruct (SFcompare a b) as [[] |]; auto |]).
    contradiction.
  - intros -> Z. cbn. rewrite Z. reflexivity.
  - intros H. cbn in H.
    repeat (destruct H as [<- | H];
            [cbn [fold_float];
             apply binary_expression_node_built; reflexivity |]).
    contradiction.
Qed.

(** ** Induction along the first child and along the sibling link *)

Lemma ASTNode_base_ind (P : ASTNode -> Prop) :
  (forall n, (forall lv rest, m_children n = Some lv :: rest -> P lv) -> P n) ->
  forall n, P n.
Proof.
  intros H. fix IH 1. intros n. apply H.
  destruct n as [f l o lvl ts cs nx cls]. cbn.
  destruct cs as [| [lv' |] rest']; intros lv rest E; try discriminate E.
  assert (lv = lv') by congruence. subst lv. apply IH.
Qed.

Lemma ASTNode_next_ind (P : ASTNode -> Prop) :
  (forall n, (forall s, m_next n = Some s -> P s) -> P n) ->
  forall n, P n.
Proof.
  intros H. fix IH 1. intros n. apply H.
  destruct n as [f l o lvl ts cs nx cls]. cbn.
  destruct nx as [s' |]; intros s E; try discriminate E.
  assert (s = s') by congruence. subst s. apply IH.
Qed.

(** ** Assignment *)

(** A computation that ends: the goal names its result and its final
    compiler. *)
Ltac returns :=
  unfold ret, report, warningfmt, errorfmt; cbn;
  eexists; eexists; repeat split; (reflexivity || assumption).

(** The check returns on every target whose chain has its bases; it
    touches neither the symbol table nor the recorded calls. *)
Lemma check_symbol_writeability_returns (this var : ASTNode) :
  has_base var = true ->
  forall quiet comp, exists r comp',
    check_symbol_writeability this var quiet comp = Some (r, comp')
    /\ symtab comp' = symtab comp /\ calls comp' = calls comp.
Proof.
  induction var as [var IH] using ASTNode_base_ind.
  intros HB quiet comp.
  destruct var as [f l o lvl ts cs nx cls].
  destruct cls; cbn in HB, IH |- *;
    try (destruct cs as [| [lv |] rest]; try discriminate HB;
         destruct (IH lv rest eq_refl HB false comp) as (r & comp' & R & S1 & S2);
         unfold bind; rewrite R; returns);
    unfold sym; cbn;
    repeat match goal with
           | |- context [match ?x with _ => _ end] => destruct x; cbn
           end;
    returns.
Qed.

(** C3.  An assignment built with a compound operator is the plain
    assignment of a binary expression: the node's operator code is that of
    [=], its first child is the target, and its second child is a
    binary-expression node with the compound operator's base operator over
    the original target and source; the writeability check runs on the
    original target, and the constructor returns whenever that check does
    (it does on every target whose chain of bases is complete). *)
Theorem assign_compound_desugars (comp : OSLCompilerImpl) (var : ASTNode)
  (op : Operator) (expr : ref) :
  In op compound_operators ->
  exists b this,
    ASTbinary_expression op (Some var) expr comp = Some (b, comp)
    /\ nodetype b = binary_expression_node
    /\ m_op b = Operator_code op
    /\ m_children b = [Some var; expr]
    /\ nodetype this = assign_expression_node
    /\ m_op this = Operator_code Assign
    /\ m_children this = [Some var; Some b]
    /\ ASTassign_expression var op expr comp =
       option_map (fun r => (this, snd r))
                  (check_symbol_writeability this var false comp)
    /\ (has_base var = true ->
        exists r, check_symbol_writeability this var false comp = Some r).
Proof.
  intros H.
  assert (B : is_binary_operator op = true /\ Operator_beq op Assign = false).
  { cbn in H. repeat (destruct H as [<- | H]; [split; reflexivity |]).
    contradiction. }
  destruct B as [B NA].
  destruct (binary_expression_node_built comp op (Some var) expr B)
    as (b & Eb & Nb & Ob & Cb).
  exists b.
  exists (set_child
            (set_op (ASTNode_ ASTassign_expression_ comp (Operator_code op)
                              [Some var; expr])
                    (Operator_code Assign)) 1 (Some b)).
  repeat split; try assumption.
  - unfold ASTassign_expression, bind, get. rewrite NA. cbn [negb].
    rewrite Eb. cbn [ret].
    destruct (check_symbol_writeability _ var false comp) as [[r comp'] |];
      reflexivity.
  - intros HB.
    destruct (check_symbol_writeability_returns
                (set_child
                   (set_op (ASTNode_ ASTassign_expression_ comp
                                     (Operator_code op) [Some var; expr])
                           (Operator_code Assign)) 1 (Some b))
                var HB false comp) as (r & comp' & R & _).
    exists (r, comp'). exact R.
Qed.

(** C10.  The right-hand side of a desugared compound assignment comes
    from the plain constructor of binary-expression nodes, never from the
    folding entry point: whatever the target and the source are, two
    integer or two float literal nodes included, the second child of the
    assignment is the binary-expression node that constructor returns, not
    a literal. *)
Theorem compound_rhs_not_folded (comp : OSLCompilerImpl) (var : ASTNode)
  (op : Operator) (expr : ref) :
  In op compound_operators -> has_base var = true ->
  exists this comp' b,
    ASTassign_expression var op expr comp = Some (this, comp')
    /\ child this 1 = Some b
    /\ ASTbinary_expression op (Some var) expr comp = Some (b, comp)
    /\ nodetype b = binary_expression_node
    /\ nodetype b <> literal_node
    /\ (forall e n comp1,
        expr = Some e -> make op var e comp = Some (n, comp1) ->
        nodetype n = literal_node -> child this 1 <> Some n).
Proof.
  intros H HB.
  assert (B : is_binary_operator op = true /\ Operator_beq op Assign = false).
  { cbn in H. repeat (destruct H as [<- | H]; [split; reflexivity |]).
    contradiction. }
  destruct B as [B NA].
  destruct (binary_expression_node_built comp op (Some var) expr B)
    as (b & Eb & Nb & Ob & Cb).
  pose (this := set_child
                  (set_op (ASTNode_ ASTassign_expression_ comp
                                    (Operator_code op) [Some var; expr])
                          (Operator_code Assign)) 1 (Some b)).
  destruct (check_symbol_writeability_returns this var HB false comp)
    as (r & comp' & R & _).
  exists this, comp', b. repeat split.
  - unfold ASTassign_expression, bind, get. rewrite NA. cbn [negb].
    rewrite Eb. cbn [ret]. fold this. rewrite R. reflexivity.
  - assumption.
  - assumption.
  - rewrite Nb. discriminate.
  - intros e n comp1 _ _ Hn Heq.
    assert (Ec : child this 1 = Some b) by reflexivity.
    rewrite Ec in Heq. injection Heq as ->.
    rewrite Nb in Hn. discriminate Hn.
Qed.

(** ** Declarations of variables *)

(** C4 (as amended).  A variable declaration that is not metadata and
    whose name clashes with a symbol reports one diagnostic for the clash,
    at the declaration: an error, or a warning with the same message when
    the clashing symbol is a function of scope 0 and the declaration is a
    parameter.  The message says that the name is already declared in
    this scope; when the clashing symbol has a declaration node it goes on
    with the file, without its directories, and the line of that
    declaration, and when the symbol has none the message ends there and
    carries no location. *)
Theorem redeclaration_reported (comp : OSLCompilerImpl) (type : TypeSpec)
  (nm : string) (init : ref) (isparam isoutput initlist : bool)
  (sourceline_start : Z) (f : Symbol) :
  symtab_clash (symtab comp) nm = Some f ->
  (initlist = true ->
   forall i, init = Some i -> nodetype i = compound_initializer_node) ->
  exists this comp',
    ASTvariable_declaration type nm init isparam false isoutput initlist
                            sourceline_start comp = Some (this, comp')
    /\ diagnostics comp' =
       (diagnostics comp
        ++ [mkDiagnostic
              (if (sym_scope f =? 0)
                  && SymType_beq (sym_symtype f) SymTypeFunction && isparam
               then Warning else Error)
              (m_sourcefile this) (m_sourceline this)
              (already_declared nm f)]
        ++ (if starts_with nm "___"
            then [mkDiagnostic Error (m_sourcefile this) (m_sourceline this)
                               (three_underscores nm)]
            else []))%list
    /\ (forall d, sym_node f = Some d ->
        already_declared nm f =
        (dquote ++ nm ++ dquote ++ " already declared in this scope")
        ++ newline ++ tab ++ tab ++ "previous declaration was at "
        ++ Filesystem_filename (decl_sourcefile d) ++ ":"
        ++ fmt_int (decl_sourceline d))
    /\ (sym_node f = None ->
        already_declared nm f =
        dquote ++ nm ++ dquote ++ " already declared in this scope")
    /\ (exists text,
          In (mkDiagnostic
                (if (sym_scope f =? 0)
                    && SymType_beq (sym_symtype f) SymTypeFunction && isparam
                 then Warning else Error)
                (filename comp)
                (if 0 <=? sourceline_start then sourceline_start
                 else lineno comp)
                text) (diagnostics comp')
          /\ text
             = match sym_node f with
               | Some d =>
                   (dquote ++ nm ++ dquote ++ " already declared in this scope")
                   ++ newline ++ tab ++ tab ++ "previous declaration was at "
                   ++ Filesystem_filename (decl_sourcefile d) ++ ":"
                   ++ fmt_int (decl_sourceline d)
               | None =>
                   dquote ++ nm ++ dquote ++ " already declared in this scope"
               end).
Proof.
  intros Hc Hi.
  unfold ASTvariable_declaration.
  assert (I : forall k : M ASTNode,
             bind (match init with
                   | Some i =>
                       if initlist
                       then bind (OSL_ASSERT (NodeType_beq (nodetype i)
                                                compound_initializer_node))
                                 (fun _ => record_call (Call_typecheck i type))
                       else ret tt
                   | None => ret tt
                   end) (fun _ => k) comp
             = k (mkCompiler (filename comp) (lineno comp) (symtab comp)
                    (diagnostics comp)
                    (calls comp ++
                     match init with
                     | Some i => if initlist then [Call_typecheck i type] else []
                     | None => []
                     end)%list)).
  { intros k. destruct init as [i |].
    - destruct initlist.
      + rewrite (Hi eq_refl i eq_refl).
        cbv [bind OSL_ASSERT ret record_call NodeType_beq]. reflexivity.
      + cbv [bind ret]. rewrite app_nil_r. destruct comp; reflexivity.
    - cbv [bind ret]. rewrite app_nil_r. destruct comp; reflexivity. }
  unfold bind at 1. unfold get at 1. cbv beta iota.
  rewrite I. clear I. rewrite Hc.
  destruct ((sym_scope f =? 0)
            && SymType_beq (sym_symtype f) SymTypeFunction && isparam);
    destruct (starts_with nm "___");
    destruct (TS.is_structure type || TS.is_structure_array type);
    cbv [negb bind get ret abort report errorfmt warningfmt record_call
         insert_symbol OSL_ASSERT];
    (eexists; eexists; split; [reflexivity |]).
  all: split;
    [ cbn [diagnostics]; rewrite <- ?app_assoc; reflexivity |];
    split; [intros d Hd; unfold already_declared; rewrite Hd; reflexivity |];
    split; [intros Hd; unfold already_declared; rewrite Hd; reflexivity |];
    exists (already_declared nm f);
    (split; [| unfold already_declared; destruct (sym_node f); reflexivity]);
    cbn [diagnostics]; rewrite <- ?app_assoc; apply in_or_app; right;
    destruct (0 <=? sourceline_start); left; reflexivity.
Qed.

(** ** Indexing *)

Lemma array_not_simple (d : TypeDesc) (t : TypeSpec) :
  arraylen d = 0 -> TS.is_array t = true -> TS.is_simple d t = false.
Proof.
  unfold TS.is_array, TS.is_simple, TypeDesc_eqb. intros Hd Ha.
  rewrite Hd. destruct (arraylen (m_simple t) =? 0); [discriminate Ha |].
  rewrite !andb_false_r. reflexivity.
Qed.

Lemma array_not_triple (t : TypeSpec) :
  TS.is_array t = true -> TS.is_triple t = false.
Proof.
  intros H. unfold TS.is_triple, TS.is_vectriple, TS.is_color.
  rewrite !array_not_simple by (assumption || reflexivity). reflexivity.
Qed.

Lemma array_not_matrix (t : TypeSpec) :
  TS.is_array t = true -> TS.is_matrix t = false.
Proof. intros H. apply array_not_simple; [reflexivity | assumption]. Qed.

(** The rows of the table, by the number of indices. *)
Lemma index_typespec_one (t : TypeSpec) (index3 : bool) :
  (TS.is_array t = true -> index_typespec t false index3 = TS.elementtype t)
  /\ (TS.is_closure t = false -> TS.is_triple t = true ->
      index_typespec t false index3 = TypeSpec_of TypeFloat)
  /\ (indexable t 1 = false -> index_typespec t false index3 = TypeSpec_default).
Proof.
  unfold index_typespec, indexable. cbn [negb]. repeat split.
  - intros ->. reflexivity.
  - intros Hc Ht. destruct (TS.is_array t) eqn:A.
    + rewrite (array_not_triple _ A) in Ht. discriminate Ht.
    + rewrite Hc, Ht. reflexivity.
  - intros H. apply orb_false_iff in H. destruct H as [-> ->]. reflexivity.
Qed.

Lemma index_typespec_two (t : TypeSpec) :
  (TS.is_matrix t = true -> index_typespec t true false = TypeSpec_of TypeFloat)
  /\ (TS.is_array t = true -> TS.is_triple (TS.elementtype t) = true ->
      index_typespec t true false = TypeSpec_of TypeFloat)
  /\ (indexable t 2 = false -> index_typespec t true false = TypeSpec_default).
Proof.
  unfold index_typespec, indexable. cbn [negb]. repeat split.
  - intros ->. reflexivity.
  - intros Ha Ht. rewrite (array_not_matrix _ Ha), Ha, Ht. reflexivity.
  - intros H. apply orb_false_iff in H. destruct H as [-> ->]. reflexivity.
Qed.

Lemma index_typespec_three (t : TypeSpec) :
  (TS.is_array t = true -> TS.is_matrix (TS.elementtype t) = true ->
   index_typespec t true true = TypeSpec_of TypeFloat)
  /\ (indexable t 3 = false -> index_typespec t true true = TypeSpec_default).
Proof.
  unfold index_typespec, indexable. cbn [negb]. repeat split.
  - intros -> ->. reflexivity.
  - intros ->. reflexivity.
Qed.

(** The last step of the constructor: the type is set and an unknown type
    is reported. *)
Lemma index_report (this : ASTNode) (comp : OSLCompilerImpl) :
  exists comp',
    bind (if TS.is_unknown (typespec this)
          then errorfmt this non_indexable else ret tt)
         (fun _ => ret this) comp = Some (this, comp')
    /\ (TS.is_unknown (typespec this) = true ->
        diagnostics comp' =
        (diagnostics comp
         ++ [mkDiagnostic Error (m_sourcefile this) (m_sourceline this)
                          non_indexable])%list)
    /\ (TS.is_unknown (typespec this) = false -> comp' = comp)
    /\ symtab comp' = symtab comp
    /\ calls comp' = calls comp.
Proof.
  destruct (TS.is_unknown (typespec this));
    cbv [bind errorfmt report ret]; eexists; repeat split;
    try reflexivity; discriminate.
Qed.
(** What the constructor of index nodes builds: the node, its base, its
    children, its type by the table, and the diagnostic of an unknown
    type. *)
Lemma ASTindex_built (comp : OSLCompilerImpl) (expr index : ASTNode)
  (index2 index3 : ref) :
  (index2 = None -> index3 = None) ->
  (takes_over_base expr index2 = true -> lvalue expr <> None) ->
  exists this comp' base,
    ASTindex expr (Some index) index2 index3 comp = Some (this, comp')
    /\ nodetype this = index_node
    /\ lvalue this = Some base
    /\ (takes_over_base expr index2 = false ->
        base = expr
        /\ m_children this
           = (Some expr :: Some index
              :: (if not_null index2 then [index2] else [])
              ++ (if not_null index3 then [index3] else []))%list)
    /\ (takes_over_base expr index2 = true ->
        lvalue expr = Some base
        /\ m_children this = [Some base; child expr 1; Some index])
    /\ (let t := typespec base in
        let k := (nchildren this - 1)%nat in
        (k = 1%nat -> TS.is_array t = true ->
         typespec this = TS.elementtype t)
        /\ (k = 1%nat -> TS.is_closure t = false -> TS.is_triple t = true ->
            typespec this = TypeSpec_of TypeFloat)
        /\ (k = 2%nat -> TS.is_matrix t = true ->
            typespec this = TypeSpec_of TypeFloat)
        /\ (k = 2%nat -> TS.is_array t = true ->
            TS.is_triple (TS.elementtype t) = true ->
            typespec this = TypeSpec_of TypeFloat)
        /\ (k = 3%nat -> TS.is_array t = true ->
            TS.is_matrix (TS.elementtype t) = true ->
            typespec this = TypeSpec_of TypeFloat)
        /\ (indexable t k = false ->
            typespec this = TypeSpec_default
            /\ diagnostics comp' =
               (diagnostics comp
                ++ [mkDiagnostic Error (filename comp) (lineno comp)
                                 non_indexable])%list))
    /\ (TS.is_unknown (typespec this) = false -> comp' = comp)
    /\ symtab comp' = symtab comp
    /\ calls comp' = calls comp.

Proof.
  intros H23 HL.
  unfold ASTindex. unfold bind at 1. unfold get at 1. cbv beta iota.
  fold (takes_over_base expr index2).
  destruct (takes_over_base expr index2) eqn:T.
  - (* the node takes over the base of [expr] *)
    assert (index2 = None).
    { unfold takes_over_base in T. destruct index2; [discriminate T | reflexivity]. }
    subst index2. rewrite (H23 eq_refl) in *.
    destruct (lvalue expr) as [base |] eqn:L;
      [| exfalso; apply (HL eq_refl); reflexivity].
    cbv beta iota zeta. unfold bind at 1. cbn [deref ret not_null].
    match goal with
    | |- context [bind _ (fun _ => ret ?n) comp] =>
        destruct (index_report n comp) as (comp' & R & D1 & D0 & S1 & S2);
        exists n, comp', base
    end.
    destruct (index_typespec_two (typespec base)) as (R1 & R2 & R3).
    split; [exact R |].
    split; [reflexivity |].
    split; [reflexivity |].
    split; [discriminate |].
    split; [intros _; split; reflexivity |].
    split; [| split; [exact D0 | split; assumption]].
    cbn [nchildren m_children set_typespec addchild clearchildren set_children
         ASTNode_ fold_left List.length app Nat.sub typespec m_typespec].
    refine (conj _ (conj _ (conj _ (conj _ (conj _ _)))));
      try discriminate.
    + intros _. exact R1.
    + intros _. exact R2.
    + intros U. split; [exact (R3 U) |].
      rewrite D1; [reflexivity |].
      cbn [typespec m_typespec set_typespec]. rewrite (R3 U). reflexivity.
  - (* the node keeps [expr] as its base *)
    destruct index2 as [i2 |];
      [destruct index3 as [i3 |] | rewrite (H23 eq_refl) in *];
      cbv beta iota zeta; unfold bind at 1; cbn [deref ret not_null];
      match goal with
      | |- context [bind _ (fun _ => ret ?n) comp] =>
          destruct (index_report n comp) as (comp' & R & D1 & D0 & S1 & S2);
          exists n, comp', expr
      end;
      (split; [exact R |]);
      (split; [reflexivity |]);
      (split; [reflexivity |]);
      (split; [intros _; split; reflexivity |]);
      (split; [discriminate |]);
      (split; [| split; [exact D0 | split; assumption]]);
      cbn [nchildren m_children set_typespec addchild clearchildren set_children
           ASTNode_ fold_left List.length app Nat.sub typespec m_typespec];
      refine (conj _ (conj _ (conj _ (conj _ (conj _ _)))));
      try discriminate.
    + destruct (index_typespec_three (typespec expr)) as (R1 & R3).
      intros _. exact R1.
    + destruct (index_typespec_three (typespec expr)) as (R1 & R3).
      intros U. split; [exact (R3 U) |].
      rewrite D1; [reflexivity |].
      cbn [typespec m_typespec set_typespec not_null]. rewrite (R3 U). reflexivity.
    + destruct (index_typespec_two (typespec expr)) as (R1 & R2 & R3).
      intros _. exact R1.
    + destruct (index_typespec_two (typespec expr)) as (R1 & R2 & R3).
      intros _. exact R2.
    + destruct (index_typespec_two (typespec expr)) as (R1 & R2 & R3).
      intros U. split; [exact (R3 U) |].
      rewrite D1; [reflexivity |].
      cbn [typespec m_typespec set_typespec not_null]. rewrite (R3 U). reflexivity.
    + destruct (index_typespec_one (typespec expr) false) as (R1 & R2 & R3).
      intros _. exact R1.
    + destruct (index_typespec_one (typespec expr) false) as (R1 & R2 & R3).
      intros _. exact R2.
    + destruct (index_typespec_one (typespec expr) false) as (R1 & R2 & R3).
      intros U. split; [exact (R3 U) |].
      rewrite D1; [reflexivity |].
      cbn [typespec m_typespec set_typespec not_null]. rewrite (R3 U). reflexivity.
Qed.

(** C5.  An index node built over a base and one to three indices has
    the type the table gives for the type of its base and the number of
    its indices: an array with one index, the element type; a triple that
    is no closure with one index, float; a matrix with two indices, float;
    an array of triples with two indices, float; an array of matrices with
    three indices, float; any other combination leaves the type unknown
    and the error of a non-indexable type is reported.  The base and the
    indices are those of the node: the ones the constructor was given,
    unless the base given is itself a one-index node, whose base and index
    the new node takes over, its own index coming second. *)
Theorem index_type_table (comp : OSLCompilerImpl) (expr index : ASTNode)
  (index2 index3 : ref) :
  (index2 = None -> index3 = None) ->
  (takes_over_base expr index2 = true -> lvalue expr <> None) ->
  exists this comp' base,
    ASTindex expr (Some index) index2 index3 comp = Some (this, comp')
    /\ nodetype this = index_node
    /\ lvalue this = Some base
    /\ (takes_over_base expr index2 = false ->
        base = expr
        /\ nchildren this
           = (2 + (if not_null index2 then 1 else 0)
                + (if not_null index3 then 1 else 0))%nat)
    /\ (takes_over_base expr index2 = true ->
        lvalue expr = Some base
        /\ m_children this = [Some base; child expr 1; Some index])
    /\ (let t := typespec base in
        let k := (nchildren this - 1)%nat in
        (k = 1%nat -> TS.is_array t = true ->
         typespec this = TS.elementtype t)
        /\ (k = 1%nat -> TS.is_closure t = false -> TS.is_triple t = true ->
            typespec this = TypeSpec_of TypeFloat)
        /\ (k = 2%nat -> TS.is_matrix t = true ->
            typespec this = TypeSpec_of TypeFloat)
        /\ (k = 2%nat -> TS.is_array t = true ->
            TS.is_triple (TS.elementtype t) = true ->
            typespec this = TypeSpec_of TypeFloat)
        /\ (k = 3%nat -> TS.is_array t = true ->
            TS.is_matrix (TS.elementtype t) = true ->
            typespec this = TypeSpec_of TypeFloat)
        /\ (indexable t k = false ->
            typespec this = TypeSpec_default
            /\ diagnostics comp' =
               (diagnostics comp
                ++ [mkDiagnostic Error (filename comp) (lineno comp)
                                 non_indexable])%list))
    /\ (TS.is_unknown (typespec this) = false -> comp' = comp)
    /\ symtab comp' = symtab comp
    /\ calls comp' = calls comp.

Proof.
  intros H23 HL.
  destruct (ASTindex_built comp expr index index2 index3 H23 HL)
    as (this & comp' & base & E & N & L & K & R & Tb & U & S1 & S2).
  exists this, comp', base.
  split; [exact E |]. split; [exact N |]. split; [exact L |].
  split; [| split; [exact R | split; [exact Tb | split; [exact U | split; assumption]]]].
  intros T. destruct (K T) as [B Cs]. split; [exact B |].
  unfold nchildren. rewrite Cs.
  destruct index2, index3; reflexivity.
Qed.

(** ** Struct and component selection *)

Lemma triple_no_closure (t : TypeSpec) :
  TS.is_color t = true \/ TS.is_vectriple t = true ->
  TS.is_closure t = false /\ TS.is_triple t = true.
Proof.
  unfold TS.is_triple. intros [H | H]; rewrite H, ?orb_true_r;
    (split; [| reflexivity]).
  - unfold TS.is_color, TS.is_simple in H.
    destruct (TS.is_closure t); [| reflexivity].
    rewrite andb_false_r in H. discriminate H.
  - unfold TS.is_vectriple, TS.is_simple in H.
    destruct (TS.is_closure t); [| reflexivity].
    rewrite !andb_false_r in H. discriminate H.
Qed.

(** The two sugar cases of [find_fieldsym]: a named component of a color
    or of a point, vector or normal. *)
Lemma find_fieldsym_component (this lv ci : ASTNode) (sid fid k : Z)
  (fld : string) (structsym : M (string * TypeSpec))
  (comp comp' : OSLCompilerImpl) :
  lvalue this = Some lv -> fieldname this = fld ->
  (TS.is_color (typespec lv) = true
   /\ In (fld, k) [("r", 0); ("g", 1); ("b", 2)])
  \/ (TS.is_vectriple (typespec lv) = true
      /\ In (fld, k) [("x", 0); ("y", 1); ("z", 2)]) ->
  ASTindex lv (Some (ASTliteral_int comp k)) None None comp = Some (ci, comp') ->
  find_fieldsym_body this sid fid structsym comp =
  Some (mkFieldSym None sid k (set_is_lvalue (set_compindex this (Some ci)) true),
        comp').
Proof.
  intros L F H E.
  unfold find_fieldsym_body. unfold bind at 1. unfold get at 1. cbv beta iota.
  rewrite L. unfold bind at 1. cbn [deref ret]. rewrite F.
  destruct H as [[Hc I] | [Hv I]]; cbn [In] in I;
    repeat (destruct I as [I | I]; [inversion I; subst fld k; clear I |]);
    try contradiction;
    rewrite ?Hc, ?Hv;
    cbv [String.eqb Ascii.eqb Bool.eqb component orb andb];
    try (unfold bind at 1; rewrite E; reflexivity);
    destruct (TS.is_color (typespec lv)); unfold bind at 1; rewrite E;
    reflexivity.
Qed.

(** C6.  A struct-select node built on a color with the field r, g or b,
    or on a point, vector or normal with the field x, y or z, is marked as
    an lvalue, has the type float, keeps no field symbol, and owns the
    index node that the constructor of index nodes builds over its base
    and the literal index 0, 1 or 2; over a base that is not itself a
    one-index node that node has the base and the literal as its two
    children and nothing is reported. *)
Theorem component_select_is_index (comp : OSLCompilerImpl) (lv : ASTNode)
  (fld : string) (k : Z) :
  (TS.is_color (typespec lv) = true
   /\ In (fld, k) [("r", 0); ("g", 1); ("b", 2)])
  \/ (TS.is_vectriple (typespec lv) = true
      /\ In (fld, k) [("x", 0); ("y", 1); ("z", 2)]) ->
  (takes_over_base lv None = true -> lvalue lv <> None) ->
  exists this comp' ci,
    ASTstructselect (Some lv) fld comp = Some (this, comp')
    /\ nodetype this = structselect_node
    /\ lvalue this = Some lv
    /\ m_is_lvalue this = true
    /\ typespec this = TypeSpec_of TypeFloat
    /\ fieldsym this = None
    /\ fieldid this = k
    /\ compindex this = Some ci
    /\ ASTindex lv (Some (ASTliteral_int comp k)) None None comp = Some (ci, comp')
    /\ nodetype ci = index_node
    /\ (takes_over_base lv None = false ->
        m_children ci = [Some lv; Some (ASTliteral_int comp k)]
        /\ typespec ci = TypeSpec_of TypeFloat
        /\ comp' = comp).
Proof.
  intros H HL.
  destruct (ASTindex_built comp lv (ASTliteral_int comp k) None None
              (fun _ => eq_refl) HL)
    as (ci & comp' & base & E & N & L & K & R & Tb & U & S1 & S2).
  destruct (triple_no_closure (typespec lv)) as [NC Tr];
    [destruct H as [[H _] | [H _]]; auto |].
  pose (this0 := ASTNode_ (ASTstructselect_ fld (-1) (-1) fld None None)
                          comp 0 [Some lv]).
  exists (set_typespec
            (set_class (set_is_lvalue (set_compindex this0 (Some ci)) true)
               (ASTstructselect_ fld (-1) k fld None (Some ci)))
            (TypeSpec_of TypeFloat)), comp', ci.
  split.
  - unfold ASTstructselect, find_fieldsym.
    unfold bind at 1. unfold get at 1. cbv beta iota. fold this0.
    unfold bind at 1.
    rewrite (find_fieldsym_component this0 lv ci _ _ k fld _ comp comp'
               eq_refl eq_refl H E).
    reflexivity.
  - do 7 (split; [reflexivity |]).
    split; [exact E |]. split; [exact N |].
    intros T. destruct (K T) as [B Cs]. subst base.
    assert (Tf : typespec ci = TypeSpec_of TypeFloat).
    { destruct Tb as (_ & T2 & _). apply T2; try assumption.
      unfold nchildren. rewrite Cs. reflexivity. }
    split; [exact Cs |]. split; [exact Tf |].
    apply U. rewrite Tf. reflexivity.
Qed.

(** ** Shader declarations *)

(** The diagnostics one formal of a shader gets. *)
Lemma check_shader_formal_reports (arg : ASTNode) (comp : OSLCompilerImpl) :
  is_variable_declaration arg = true ->
  exists comp',
    check_shader_formal arg comp = Some (tt, comp')
    /\ diagnostics comp' =
       (diagnostics comp ++ shader_formal_diagnostics arg)%list
    /\ symtab comp' = symtab comp
    /\ calls comp' = calls comp.
Proof.
  intros V. unfold check_shader_formal, shader_formal_diagnostics. rewrite V.
  destruct (not_null (init arg));
    destruct (is_output arg && TS.is_unsized_array (typespec arg));
    cbv [negb bind OSL_ASSERT ret errorfmt report];
    eexists; (split; [reflexivity |]); cbn [diagnostics symtab calls];
    rewrite <- ?app_assoc, ?app_nil_r; repeat split; reflexivity.
Qed.

Lemma for_each_shader_formals (formals : list ASTNode) :
  Forall (fun v => is_variable_declaration v = true) formals ->
  forall comp, exists comp',
    for_each check_shader_formal formals comp = Some (tt, comp')
    /\ diagnostics comp' =
       (diagnostics comp ++ flat_map shader_formal_diagnostics formals)%list
    /\ symtab comp' = symtab comp
    /\ calls comp' = calls comp.
Proof.
  induction 1 as [| v rest V _ IH]; intros comp.
  - exists comp. cbn. rewrite app_nil_r. repeat split; reflexivity.
  - destruct (check_shader_formal_reports v comp V) as (c1 & E1 & D1 & S1 & K1).
    destruct (IH c1) as (c2 & E2 & D2 & S2 & K2).
    exists c2. cbn [for_each flat_map]. unfold bind. rewrite E1, E2.
    rewrite D2, D1, S2, S1, K2, K1, app_assoc. repeat split; reflexivity.
Qed.

Lemma shader_messages_differ (v : ASTNode) :
  requires_initializer v <> cant_be_unsized v.
Proof.
  unfold requires_initializer, cant_be_unsized. cbn [append]. discriminate.
Qed.

(** C7.  The constructor of a shader declaration reports, for every
    formal that has no default initializer, an error that names the formal,
    and for every output formal of unsized array type another error, of a
    different text, that names it too; these are all the diagnostics it
    adds, so a shader whose formals all have initializers and whose
    outputs are no unsized arrays gets none. *)
Theorem shader_formals_checked (comp : OSLCompilerImpl) (stype : Z)
  (shadername : string) (form stmts meta : ref) :
  Forall (fun v => is_variable_declaration v = true) (list_to_vec form) ->
  exists this comp',
    ASTshader_declaration stype shadername form stmts meta comp
    = Some (this, comp')
    /\ nodetype this = shader_declaration_node
    /\ m_children this = [meta; form; stmts]
    /\ diagnostics comp' =
       (diagnostics comp
        ++ flat_map shader_formal_diagnostics (list_to_vec form))%list
    /\ (forall v, In v (list_to_vec form) -> init v = None ->
        In (mkDiagnostic Error (m_sourcefile v) (m_sourceline v)
              ("shader parameter '" ++ name v
               ++ "' requires a default initializer"))
           (diagnostics comp'))
    /\ (forall v, In v (list_to_vec form) ->
        is_output v = true -> TS.is_unsized_array (typespec v) = true ->
        In (mkDiagnostic Error (m_sourcefile v) (m_sourceline v)
              ("shader output parameter '" ++ name v
               ++ "' can't be unsized array"))
           (diagnostics comp'))
    /\ (forall v, requires_initializer v <> cant_be_unsized v)
    /\ ((forall v, In v (list_to_vec form) ->
         init v <> None
         /\ (is_output v = true -> TS.is_unsized_array (typespec v) = false)) ->
        diagnostics comp' = diagnostics comp).
Proof.
  intros V.
  destruct (for_each_shader_formals (list_to_vec form) V comp)
    as (comp' & E & D & S & K).
  exists (ASTNode_ (ASTshader_declaration_ shadername) comp stype
                   [meta; form; stmts]), comp'.
  split.
  { unfold ASTshader_declaration. unfold bind at 1. unfold get at 1.
    cbv beta iota. unfold bind. rewrite E. reflexivity. }
  split; [reflexivity |]. split; [reflexivity |]. split; [exact D |].
  split; [| split; [| split; [exact shader_messages_differ |]]].
  - intros v I N. rewrite D. apply in_or_app. right.
    apply in_flat_map. exists v. split; [exact I |].
    unfold shader_formal_diagnostics. rewrite N. cbn [not_null].
    apply in_or_app. left. left. reflexivity.
  - intros v I O U. rewrite D. apply in_or_app. right.
    apply in_flat_map. exists v. split; [exact I |].
    unfold shader_formal_diagnostics. rewrite O, U. cbn [andb].
    apply in_or_app. right. left. reflexivity.
  - intros A. rewrite D.
    assert (Z : flat_map shader_formal_diagnostics (list_to_vec form) = []).
    { clear -A. induction (list_to_vec form) as [| v rest IH]; [reflexivity |].
      cbn [flat_map]. rewrite IH by (intros w I; apply A; right; exact I).
      destruct (A v (or_introl eq_refl)) as [N O].
      unfold shader_formal_diagnostics.
      destruct (init v); [| contradiction N; reflexivity]. cbn [not_null].
      destruct (is_output v); [rewrite (O eq_refl) |]; reflexivity. }
    rewrite Z. apply app_nil_r.
Qed.

(** ** Function declarations *)

(** The loop over the formals stops at the first formal of unknown type;
    the formals before it have been checked for initializers. *)
Lemma formal_argcodes_stops (pre post : list ASTNode) (u : ASTNode) :
  Forall (fun a => TypeSpec_eqb (typespec a) TypeSpec_default = false
                   /\ is_variable_declaration a = true) pre ->
  TypeSpec_eqb (typespec u) TypeSpec_default = true ->
  forall argcodes comp, exists comp',
    formal_argcodes (pre ++ u :: post) argcodes comp = Some (None, comp')
    /\ diagnostics comp' =
       (diagnostics comp ++ flat_map function_formal_diagnostics pre)%list
    /\ symtab comp' = symtab comp
    /\ calls comp' = calls comp.
Proof.
  intros P U. induction P as [| a rest [T V] _ IH]; intros argcodes comp.
  - exists comp. cbn [app formal_argcodes flat_map]. rewrite U.
    rewrite app_nil_r. repeat split; reflexivity.
  - cbn [app formal_argcodes flat_map]. rewrite T, V.
    unfold function_formal_diagnostics.
    destruct (not_null (init a));
      cbv [bind OSL_ASSERT ret errorfmt report];
      match goal with
      | |- context [formal_argcodes _ ?ac ?c] =>
          destruct (IH ac c) as (c2 & E2 & D2 & S2 & K2)
      end;
      exists c2; rewrite E2, D2, S2, K2; cbn [diagnostics symtab calls];
      rewrite <- ?app_assoc; repeat split; reflexivity.
Qed.

(** C9.  When a formal of a function declaration has an unknown type,
    the constructor sets the type of the declaration to unknown and
    returns there: the declaration has no function symbol, the symbol
    table is as it was, no type check is called, and no warning of a
    redefinition is issued.  The errors reported before that point stay:
    those on the name, and the error on a default initializer for each
    formal that precedes the one of unknown type. *)
Theorem unknown_formal_stops_declaration (comp : OSLCompilerImpl)
  (type : TypeSpec) (nm : string) (form stmts meta : ref)
  (sourceline_start : Z) (pre post : list ASTNode) (u : ASTNode) :
  list_to_vec form = (pre ++ u :: post)%list ->
  Forall (fun a => TypeSpec_eqb (typespec a) TypeSpec_default = false
                   /\ is_variable_declaration a = true) pre ->
  TypeSpec_eqb (typespec u) TypeSpec_default = true ->
  exists this comp',
    ASTfunction_declaration type nm form stmts meta sourceline_start comp
    = Some (this, comp')
    /\ nodetype this = function_declaration_node
    /\ typespec this = TypeSpec_of TypeUnknown
    /\ TS.is_unknown (typespec this) = true
    /\ sym this = None
    /\ symtab comp' = symtab comp
    /\ calls comp' = calls comp
    /\ diagnostics comp' =
       (diagnostics comp
        ++ (if starts_with nm "___"
            then [mkDiagnostic Error (m_sourcefile this) (m_sourceline this)
                               (three_underscores nm)]
            else [])
        ++ match symtab_clash (symtab comp) nm with
           | Some e =>
               if SymType_beq (sym_symtype e) SymTypeFunction then []
               else [mkDiagnostic Error (m_sourcefile this) (m_sourceline this)
                                  (already_declared_as nm e)]
           | None => []
           end
        ++ flat_map function_formal_diagnostics pre)%list
    /\ (forall d, In d (diagnostics comp') ->
        In d (diagnostics comp) \/ diag_severity d = Error).
Proof.
  intros L P U.
  unfold ASTfunction_declaration. unfold bind at 1. unfold get at 1.
  cbv beta iota zeta. rewrite L.
  destruct (0 <=? sourceline_start);
    destruct (starts_with nm "___");
    destruct (symtab_clash (symtab comp) nm) as [e |];
    try destruct (SymType_beq (sym_symtype e) SymTypeFunction);
    cbv [bind errorfmt report ret negb];
    match goal with
    | |- context [formal_argcodes _ ?ac ?c] =>
        destruct (formal_argcodes_stops pre post u P U ac c)
          as (c2 & E & D & S & K)
    end;
    cbn [diagnostics symtab calls] in D, S, K; rewrite <- ?app_assoc in D;
    rewrite E; eexists; eexists; (split; [reflexivity |]);
    do 4 (split; [reflexivity |]);
    (split; [exact S |]); (split; [exact K |]);
    (assert (DD : forall x y : list Diagnostic,
                diagnostics c2 = (x ++ y)%list ->
                Forall (fun d => diag_severity d = Error) y ->
                forall d, In d (diagnostics c2) ->
                          In d x \/ diag_severity d = Error)
       by (intros x y Exy Fy d Id; rewrite Exy in Id;
           apply in_app_or in Id; destruct Id as [Id | Id];
           [left; exact Id
           | right; exact (proj1 (Forall_forall _ _) Fy d Id)]));
    (split; [rewrite D; reflexivity |]).
  all: apply (DD (diagnostics comp) _ D); cbn [app];
    repeat (apply Forall_cons; [reflexivity |]);
    clear; induction pre as [| a rest IH]; cbn [flat_map];
    [constructor | apply Forall_app; split; [| exact IH]];
    unfold function_formal_diagnostics; destruct (not_null (init a));
    repeat constructor.
Qed.

(** ** Destruction *)

Lemma destroy_unfold (fuel depth : nat) (this : ASTNode) :
  destroy (S fuel) depth this =
  seq_logs (Some [mkEntry depth this])
    (seq_logs (release fuel (S depth) (class_member this))
       (seq_logs (match m_next this with
                  | Some n => release_siblings fuel (S depth) n
                  | None => Some []
                  end)
                 (release_members fuel (S depth) (m_children this)))).
Proof. reflexivity. Qed.

Lemma below_unfold (n : ASTNode) :
  below n =
  Nat.max (height_ref (class_member n))
          (fold_right (fun c m => Nat.max (height_ref c) m) O (m_children n)).
Proof.
  destruct n as [f l o lvl ts cs nx cls].
  assert (K : forall cs : list ref,
             (fix members (cs : list ref) : nat :=
                match cs with
                | [] => O
                | c :: rest =>
                    Nat.max (match c with
                             | Some c0 =>
                                 S (Nat.max (below c0)
                                      match m_next c0 with
                                      | Some s => chain_tail s
                                      | None => 0%nat
                                      end)
                             | None => 0%nat
                             end) (members rest)
                end) cs
             = fold_right (fun c m => Nat.max (height_ref c) m) O cs).
  { induction cs0 as [| c rest IH]; [reflexivity |].
    cbn [fold_right]. rewrite <- IH. destruct c; reflexivity. }
  unfold class_member. cbn [m_class m_children].
  rewrite <- K.
  destruct cls; reflexivity.
Qed.

Lemma below_set_next (n : ASTNode) (r : ref) : below (set_next n r) = below n.
Proof. destruct n; reflexivity. Qed.

Lemma release_siblings_unfold (fuel depth : nat) (n : ASTNode) :
  release_siblings fuel depth n =
  seq_logs (destroy fuel depth (set_next n None))
           (match m_next n with
            | Some n' => release_siblings fuel depth n'
            | None => Some []
            end).
Proof. destruct n; reflexivity. Qed.

Lemma chain_tail_unfold (s : ASTNode) :
  chain_tail s =
  Nat.max (S (below s))
          (match m_next s with
           | Some s' => chain_tail s'
           | None => O
           end).
Proof. destruct s; reflexivity. Qed.

Lemma siblings_unfold (n : ASTNode) :
  siblings n = n :: match m_next n with
                    | Some n' => siblings n'
                    | None => []
                    end.
Proof. destruct n; reflexivity. Qed.


Lemma within_nil (d h : nat) : within d h [].
Proof. intros e []. Qed.

Lemma within_app (d h : nat) (a b : list Entry) :
  within d h a -> within d h b -> within d h (a ++ b).
Proof.
  intros A B e I. apply in_app_or in I. destruct I; [apply A | apply B]; assumption.
Qed.

Lemma within_le (d h h' : nat) (log : list Entry) :
  (h <= h')%nat -> within d h log -> within d h' log.
Proof. intros L W e I. specialize (W e I). lia. Qed.

Lemma within_S (d h : nat) (log : list Entry) :
  within (S d) h log -> within d (S h) log.
Proof. intros W e I. specialize (W e I). lia. Qed.

Section Teardown.

Variable fuel : nat.

(** The calls at the level below succeed within their height. *)
Hypothesis IH : forall n d, (height n <= fuel)%nat ->
  exists rest, destroy fuel d n = Some (mkEntry d n :: rest)
               /\ within d (height n) (mkEntry d n :: rest).

Lemma release_within (d : nat) (r : ref) :
  (height_ref r <= fuel)%nat ->
  exists log, release fuel d r = Some log /\ within d (height_ref r) log.
Proof.
  destruct r as [c |]; cbn [release height_ref]; intros H.
  - destruct (IH c d H) as (rest & E & W). eauto.
  - exists []. split; [reflexivity | apply within_nil].
Qed.

Lemma release_members_within (d : nat) (cs : list ref) :
  (fold_right (fun c m => Nat.max (height_ref c) m) O cs <= fuel)%nat ->
  exists log, release_members fuel d cs = Some log
    /\ within d (fold_right (fun c m => Nat.max (height_ref c) m) O cs) log.
Proof.
  induction cs as [| c rest IHcs]; cbn [fold_right release_members]; intros H.
  - exists []. split; [reflexivity | apply within_nil].
  - destruct (release_within d c ltac:(lia)) as (l1 & E1 & W1).
    destruct (IHcs ltac:(lia)) as (l2 & E2 & W2).
    exists (l1 ++ l2)%list. rewrite E1, E2. split; [reflexivity |].
    apply within_app; eapply within_le; try eassumption; lia.
Qed.

Lemma release_siblings_within (d : nat) (s : ASTNode) :
  (chain_tail s <= fuel)%nat ->
  exists log, release_siblings fuel d s = Some log
    /\ within d (chain_tail s) log
    /\ (forall x, In x (siblings s) -> In (mkEntry d (set_next x None)) log).
Proof.
  induction s as [s IHs] using ASTNode_next_ind.
  rewrite chain_tail_unfold, release_siblings_unfold, siblings_unfold.
  intros H.
  assert (Hs : (height (set_next s None) <= fuel)%nat).
  { unfold height. rewrite below_set_next.
    destruct s as [f l o lvl ts cs nx cls]; cbn [set_next m_next]. lia. }
  destruct (IH (set_next s None) d Hs) as (rest & E & W).
  assert (Ws : within d (S (below s)) (mkEntry d (set_next s None) :: rest)).
  { eapply within_le; [| exact W]. unfold height. rewrite below_set_next.
    destruct s as [f l o lvl ts cs nx cls]; cbn [set_next m_next]. lia. }
  rewrite E.
  destruct (m_next s) as [s' |] eqn:N.
  - destruct (IHs s' eq_refl ltac:(lia)) as (l2 & E2 & W2 & I2).
    rewrite E2. eexists. split; [reflexivity |]. split.
    + apply within_app; eapply within_le; try eassumption; lia.
    + intros x [<- | I]; [left; reflexivity |].
      apply in_or_app. right. apply I2. exact I.
  - eexists. split; [reflexivity |]. split.
    + rewrite app_nil_r. eapply within_le; [| exact Ws]. lia.
    + intros x [<- | []]. left. reflexivity.
Qed.

End Teardown.

(** A destruction succeeds on a stack as deep as the height of the chain,
    and every call of it runs within that height. *)
Lemma destroy_within (fuel : nat) :
  forall n d, (height n <= fuel)%nat ->
  exists rest, destroy fuel d n = Some (mkEntry d n :: rest)
    /\ within d (height n) (mkEntry d n :: rest)
    /\ (forall x, In x (tl (siblings n)) ->
        In (mkEntry (S d) (set_next x None)) rest).
Proof.
  induction fuel as [| fuel IHf]; intros n d H.
  - unfold height in H. lia.
  - assert (IH : forall n d, (height n <= fuel)%nat ->
              exists rest, destroy fuel d n = Some (mkEntry d n :: rest)
                           /\ within d (height n) (mkEntry d n :: rest)).
    { intros n0 d0 H0. destruct (IHf n0 d0 H0) as (rest & E & W & _). eauto. }
    rewrite destroy_unfold. unfold height in H. rewrite below_unfold in H.
    destruct (release_within fuel IH (S d) (class_member n) ltac:(lia))
      as (l0 & E0 & W0).
    destruct (release_members_within fuel IH (S d) (m_children n) ltac:(lia))
      as (l2 & E2 & W2).
    assert (Sib : exists l1,
               match m_next n with
               | Some s => release_siblings fuel (S d) s
               | None => Some []
               end = Some l1
               /\ within (S d) (match m_next n with
                                | Some s => chain_tail s
                                | None => O
                                end) l1
               /\ (forall x, In x (tl (siblings n)) ->
                   In (mkEntry (S d) (set_next x None)) l1)).
    { rewrite siblings_unfold. cbn [tl].
      destruct (m_next n) as [s |].
      - apply (release_siblings_within fuel IH). lia.
      - exists []. split; [reflexivity |]. split; [apply within_nil |].
        intros x []. }
    destruct Sib as (l1 & E1 & W1 & I1).
    rewrite E0, E1, E2. cbn [seq_logs app].
    eexists. split; [reflexivity |]. split.
    + intros e [<- | I]; [cbn; unfold height; lia |].
      assert (Wm : within (S d)
                     (Nat.max (below n)
                              (match m_next n with
                               | Some s => chain_tail s
                               | None => O
                               end)) (l0 ++ l1 ++ l2)).
      { rewrite below_unfold.
        repeat apply within_app; eapply within_le; try eassumption; lia. }
      apply within_S in Wm. exact (Wm e I).
    + intros x I. apply in_or_app. right. apply in_or_app. left.
      apply I1. exact I.
Qed.
Lemma chain_tail_bound (B : nat) (s : ASTNode) :
  (forall x, In x (siblings s) -> (below x <= B)%nat) ->
  (chain_tail s <= S B)%nat.
Proof.
  induction s as [s IHs] using ASTNode_next_ind.
  rewrite chain_tail_unfold, siblings_unfold. intros H.
  pose proof (H s (or_introl eq_refl)) as Hs.
  destruct (m_next s) as [s' |].
  - pose proof (IHs s' eq_refl (fun x I => H x (or_intror I))). lia.
  - lia.
Qed.

Lemma max_depth_bound (M : nat) (log : list Entry) :
  (forall e, In e log -> (entry_depth e <= M)%nat) -> (max_depth log <= M)%nat.
Proof.
  induction log as [| e rest IH]; cbn [max_depth fold_right]; intros H.
  - lia.
  - pose proof (H e (or_introl eq_refl)).
    pose proof (IH (fun x I => H x (or_intror I))).
    unfold max_depth in *. lia.
Qed.

(** C8.  The destruction of the head of a sibling chain releases the
    later siblings one after the other from the loop of the head's own
    destructor call: each of them is released alone, its link reset, one
    level below the head.  So the nesting of calls does not grow with the
    length of the chain: when the nodes of the chain own nothing nested
    deeper than [B] calls, a stack of [B + 2] calls is enough for a chain
    of any length, and no call runs deeper than that. *)
Theorem teardown_depth_independent_of_length (n : ASTNode) (B d fuel : nat) :
  (forall s, In s (siblings n) -> (below s <= B)%nat) ->
  (B + 2 <= fuel)%nat ->
  exists log,
    destroy fuel d n = Some log
    /\ hd_error log = Some (mkEntry d n)
    /\ (forall s, In s (tl (siblings n)) ->
        In (mkEntry (S d) (set_next s None)) log)
    /\ (forall e, In e log -> (d <= entry_depth e <= d + 1 + B)%nat)
    /\ (max_depth log <= d + 1 + B)%nat.
Proof.
  intros HB HF.
  assert (Hh : (height n <= B + 2)%nat).
  { unfold height. rewrite siblings_unfold in HB.
    pose proof (HB n (or_introl eq_refl)).
    destruct (m_next n) as [s |].
    - pose proof (chain_tail_bound B s (fun x I => HB x (or_intror I))). lia.
    - lia. }
  destruct (destroy_within fuel n d ltac:(lia)) as (rest & E & W & I).
  exists (mkEntry d n :: rest).
  assert (Wd : forall e, In e (mkEntry d n :: rest) ->
                         (d <= entry_depth e <= d + 1 + B)%nat).
  { intros e Ie. specialize (W e Ie). lia. }
  split; [exact E |]. split; [reflexivity |]. split.
  - intros s Is. right. apply I. exact Is.
  - split; [exact Wd |].
    apply max_depth_bound. intros e Ie. specialize (Wd e Ie). lia.
Qed.

End Properties.

(** * The properties at work on a small program *)

Section Examples.

Import Reference.

(** [7 / 0] folds to the literal 0. *)
Lemma make_folds_int_literals_witness :
  make (C := collaborators) Div (ASTliteral_int compiler 7) (ASTliteral_int compiler 0)
       compiler
  = Some (ASTliteral_int compiler 0, compiler).
Proof.
  apply (make_folds_int_literals (C := collaborators) compiler Div
           (ASTliteral_int compiler 7) (ASTliteral_int compiler 0) 7 0 0);
    try reflexivity;
    try (unfold CInt.in_range, CInt.int_min, CInt.int_max; lia).
  left. reflexivity.
Defined.

(** C1 as the specification states it fails: the sum of [INT_MAX] and 1
    is no [int], and the fold gives a literal that is not the sum. *)
Lemma make_int_overflow :
  ~ (forall (op : Operator) (a b r : Z),
       CInt.in_range a -> CInt.in_range b -> int_result op a b = Some r ->
       make (C := collaborators) op (ASTliteral_int compiler a) (ASTliteral_int compiler b)
            compiler
       = Some (ASTliteral_int compiler r, compiler)).
Proof.
  intros H.
  specialize (H Add 2147483647 1 2147483648).
  assert (E : make (C := collaborators) Add (ASTliteral_int compiler 2147483647)
                   (ASTliteral_int compiler 1) compiler
              = Some (ASTliteral_int compiler (-2147483648), compiler))
    by reflexivity.
  rewrite E in H.
  assert (A : CInt.in_range 2147483647)
    by (unfold CInt.in_range, CInt.int_min, CInt.int_max; lia).
  assert (B : CInt.in_range 1)
    by (unfold CInt.in_range, CInt.int_min, CInt.int_max; lia).
  specialize (H A B eq_refl).
  discriminate H.
Qed.

(** [1.5 / -0.0] folds to the literal 0.0, [1.5 << -0.0] does not
    fold, [1.5 * 1.5] folds to the literal 2.25 and [-0.0 < 1.5] to the
    literal 1. *)
Lemma make_float_literals_witness :
  make (C := collaborators) Div (ASTliteral_float compiler one_and_a_half)
       (ASTliteral_float compiler minus_zero) compiler
  = Some (ASTliteral_float compiler CFloat.zero, compiler)
  /\ (exists n,
       make (C := collaborators) ShiftLeft (ASTliteral_float compiler one_and_a_half)
            (ASTliteral_float compiler minus_zero) compiler
       = Some (n, compiler)
       /\ nodetype n = binary_expression_node
       /\ m_children n = [Some (ASTliteral_float compiler one_and_a_half);
                          Some (ASTliteral_float compiler minus_zero)])
  /\ make (C := collaborators) Mul (ASTliteral_float compiler one_and_a_half)
          (ASTliteral_float compiler one_and_a_half) compiler
     = Some (ASTliteral_float compiler (S754_finite false 9437184 (-22)),
             compiler)
  /\ make (C := collaborators) Less (ASTliteral_float compiler minus_zero)
          (ASTliteral_float compiler one_and_a_half) compiler
     = Some (ASTliteral_int compiler 1, compiler).
Proof.
  split; [| split; [| split]].
  - apply (make_float_literals (C := collaborators) compiler Div
             (ASTliteral_float compiler one_and_a_half)
             (ASTliteral_float compiler minus_zero)
             one_and_a_half minus_zero);
      reflexivity.
  - destruct (make_float_literals (C := collaborators) compiler ShiftLeft
                (ASTliteral_float compiler one_and_a_half)
                (ASTliteral_float compiler minus_zero)
                one_and_a_half minus_zero
                eq_refl eq_refl eq_refl eq_refl eq_refl eq_refl)
      as (_ & _ & H).
    destruct H as (n & E & N & _ & Cn); [cbn; auto 10 |].
    exists n. auto.
  - destruct (make_float_literals (C := collaborators) compiler Mul
                (ASTliteral_float compiler one_and_a_half)
                (ASTliteral_float compiler one_and_a_half)
                one_and_a_half one_and_a_half
                eq_refl eq_refl eq_refl eq_refl eq_refl eq_refl)
      as (H & _ & _).
    destruct H as (n & E & _ & _ & _ & R & _); [cbn; auto 10 |].
    rewrite E, R. reflexivity.
  - destruct (make_float_literals (C := collaborators) compiler Less
                (ASTliteral_float compiler minus_zero)
                (ASTliteral_float compiler one_and_a_half)
                minus_zero one_and_a_half
                eq_refl eq_refl eq_refl eq_refl eq_refl eq_refl)
      as (H & _ & _).
    destruct H as (n & E & _ & _ & _ & R & _); [cbn; auto 10 |].
    rewrite E, R. reflexivity.
Defined.

(** [Kd += 1]: the assignment of [Kd + 1] to [Kd]. *)
Lemma assign_compound_desugars_witness :
  exists b this,
    ASTbinary_expression (C := collaborators) Add (Some Kd_ref) (Some one) compiler
    = Some (b, compiler)
    /\ m_op this = Operator_code Assign
    /\ m_children this = [Some Kd_ref; Some b]
    /\ m_children b = [Some Kd_ref; Some one].
Proof.
  destruct (assign_compound_desugars (C := collaborators) compiler Kd_ref Add (Some one))
    as (b & this & E & _ & _ & Cb & _ & Ot & Ct & _); [cbn; auto |].
  exists b, this. auto.
Defined.

(** [1 += 2]: the right-hand side is the node of [1 + 2], where the
    folding entry point gives the literal 3. *)
Lemma compound_rhs_not_folded_witness :
  (exists this comp' b,
     ASTassign_expression (C := collaborators) one Add (Some two) compiler
     = Some (this, comp')
     /\ child this 1 = Some b
     /\ nodetype b = binary_expression_node)
  /\ make (C := collaborators) Add one two compiler = Some (three, compiler).
Proof.
  split; [| reflexivity].
  destruct (compound_rhs_not_folded (C := collaborators) compiler one Add (Some two))
    as (this & comp' & b & E & Cb & _ & N & _); [cbn; auto | reflexivity |].
  exists this, comp', b. auto.
Defined.

(** A second [Cs] in the scope of the first one, declared at line 9. *)
Lemma redeclaration_reported_witness :
  exists this comp',
    ASTvariable_declaration (C := collaborators) (TypeSpec_of TypeFloat) "Cs" None
                            false false false false 9 compiler
    = Some (this, comp')
    /\ diagnostics comp' =
       [mkDiagnostic Error "shaders/test.osl" 9
          (already_declared (C := collaborators) "Cs" Cs)]
    /\ already_declared (C := collaborators) "Cs" Cs =
       (dquote ++ "Cs" ++ dquote ++ " already declared in this scope")
       ++ newline ++ tab ++ tab ++ "previous declaration was at "
       ++ "test.osl" ++ ":" ++ "3".
Proof.
  destruct (redeclaration_reported (C := collaborators) compiler (TypeSpec_of TypeFloat)
              "Cs" None false false false 9 Cs)
    as (this & comp' & E & D & T & _); [reflexivity | discriminate |].
  exists this, comp'. split; [exact E |]. split.
  - rewrite D. vm_compute in E. injection E as <- _. reflexivity.
  - exact (T _ eq_refl).
Defined.

(** C4 as the specification states it fails: the global [P] has no
    declaration node, and the error on a second [P] names no file and no
    line. *)
Lemma redeclaration_without_location :
  symtab_clash (Collaborators := collaborators) (symtab global_compiler) "P" = Some P
  /\ sym_node P = None
  /\ option_map (fun r => diagnostics (snd r))
       (ASTvariable_declaration (C := collaborators) (TypeSpec_of TypeFloat) "P" None
                                false false false false (-1) global_compiler)
     = Some [mkDiagnostic Error "shaders/test.osl" 7
               (dquote ++ "P" ++ dquote ++ " already declared in this scope")].
Proof. repeat split; reflexivity. Qed.

(** [Cs[1]]: a color with one index is a float. *)
Lemma index_type_table_witness :
  exists this,
    ASTindex (C := collaborators) Cs_ref (Some one) None None compiler
    = Some (this, compiler)
    /\ lvalue this = Some Cs_ref
    /\ typespec this = TypeSpec_of TypeFloat.
Proof.
  destruct (index_type_table (C := collaborators) compiler Cs_ref one None None)
    as (this & comp' & base & E & _ & L & K & _ & Tb & U & _);
    [reflexivity | discriminate |].
  destruct (K eq_refl) as [B Cn]. subst base.
  destruct Tb as (_ & T2 & _).
  assert (Tf : typespec this = TypeSpec_of TypeFloat).
  { apply T2; [rewrite Cn | |]; reflexivity. }
  exists this. rewrite E. rewrite (U ltac:(rewrite Tf; reflexivity)).
  auto.
Defined.

(** [Cs.g] is [Cs[1]]. *)
Lemma component_select_is_index_witness :
  exists this ci,
    ASTstructselect (C := collaborators) (Some Cs_ref) "g" compiler = Some (this, compiler)
    /\ m_is_lvalue this = true
    /\ typespec this = TypeSpec_of TypeFloat
    /\ compindex this = Some ci
    /\ m_children ci = [Some Cs_ref; Some one].
Proof.
  destruct (component_select_is_index (C := collaborators) compiler Cs_ref "g" 1)
    as (this & comp' & ci & E & _ & _ & Lv & T & _ & _ & Ci & _ & _ & K);
    [left; split; [reflexivity | cbn; auto] | discriminate |].
  destruct (K eq_refl) as (Cn & _ & Ec). subst comp'.
  exists this, ci. auto.
Defined.

(** The shader [matte (float Kd = 1, output float result[])]: both
    errors are on [result]. *)
Lemma shader_formals_checked_witness :
  exists this comp',
    ASTshader_declaration (C := collaborators) 0 "matte" (Some shader_formals) None None
                          compiler
    = Some (this, comp')
    /\ diagnostics comp' =
       [mkDiagnostic Error "shaders/test.osl" 5
          "shader parameter 'result' requires a default initializer";
        mkDiagnostic Error "shaders/test.osl" 5
          "shader output parameter 'result' can't be unsized array"].
Proof.
  destruct (shader_formals_checked (C := collaborators) compiler 0 "matte"
              (Some shader_formals) None None)
    as (this & comp' & E & _ & _ & D & _); [repeat constructor |].
  exists this, comp'. split; [exact E | exact D].
Defined.

(** The function [float f (float a = 1, <unknown> b, float c)]: the
    error on [a] is reported, no symbol is made. *)
Lemma unknown_formal_stops_declaration_witness :
  exists this comp',
    ASTfunction_declaration (C := collaborators) (TypeSpec_of TypeFloat) "f"
                            (Some function_formals) None None (-1) compiler
    = Some (this, comp')
    /\ sym this = None
    /\ symtab comp' = symtab compiler
    /\ calls comp' = []
    /\ diagnostics comp' =
       [mkDiagnostic Error "shaders/test.osl" 5
          "function parameter 'a' may not have a default initializer."].
Proof.
  destruct (unknown_formal_stops_declaration (C := collaborators) compiler
              (TypeSpec_of TypeFloat) "f" (Some function_formals) None None
              (-1)
              [formal "a" (TypeSpec_of TypeFloat) (Some one) false
                 (Some (formal "b" TypeSpec_default None false
                    (Some (formal "c" (TypeSpec_of TypeFloat) None false None))))]
              [formal "c" (TypeSpec_of TypeFloat) None false None]
              (formal "b" TypeSpec_default None false
                 (Some (formal "c" (TypeSpec_of TypeFloat) None false None))))
    as (this & comp' & E & _ & _ & _ & S & St & K & D & _);
    [reflexivity | repeat constructor | reflexivity |].
  exists this, comp'. auto.
Defined.

(** The teardown of the three statements: the head at depth 1, each of
    the two others alone at depth 2. *)
Lemma teardown_depth_independent_of_length_witness :
  exists log,
    delete 2 statements = Some log
    /\ In (mkEntry 2 two) log
    /\ In (mkEntry 2 three) log
    /\ (max_depth log <= 2)%nat.
Proof.
  destruct (teardown_depth_independent_of_length statements 0 1 2)
    as (log & E & _ & I & _ & M).
  - intros s [<- | [<- | [<- | []]]]; apply le_n.
  - apply le_n.
  - exists log. split; [exact E |]. split; [| split; [| exact M]].
    + apply (I (set_next two (Some three))). cbn. auto.
    + apply (I three). cbn. auto.
Defined.

End Examples.

(** * Further properties of [ast.cpp] *)

Section FurtherProperties.

Context {C : Collaborators}.

(** ** Sibling chains *)

Lemma set_next_same (n : ASTNode) : set_next n (m_next n) = n.
Proof. destruct n; reflexivity. Qed.

Lemma list_to_vec_unfold (n : ASTNode) :
  list_to_vec (Some n) = n :: list_to_vec (m_next n).
Proof. destruct n as [f l o lvl ts cs [s |] cls]; reflexivity. Qed.

Lemma relinked (l : ref) : vec_to_list (list_to_vec l) = l.
Proof.
  destruct l as [n |]; [| reflexivity].
  induction n as [n IH] using ASTNode_next_ind.
  rewrite list_to_vec_unfold. cbn [vec_to_list].
  destruct (m_next n) as [s |] eqn:E.
  - rewrite (IH s eq_refl), <- E, set_next_same. reflexivity.
  - cbn [list_to_vec vec_to_list]. rewrite <- E, set_next_same. reflexivity.
Qed.

Lemma set_next_unlinked (n : ASTNode) (r : ref) :
  set_next (unlinked n) r = set_next n r.
Proof. destruct n; reflexivity. Qed.

Lemma reverse_loop_unlinked (a b : list ASTNode) :
  map unlinked a = map unlinked b ->
  forall acc, reverse_loop a acc = reverse_loop b acc.
Proof.
  revert b. induction a as [| x a IH]; intros [| y b] E acc;
    try discriminate E; [reflexivity |].
  cbn [map] in E.
  pose proof (f_equal (hd x) E) as Exy. pose proof (f_equal (@tl _) E) as Eab.
  cbn [hd tl] in Exy, Eab. cbn [reverse_loop].
  rewrite <- (set_next_unlinked x acc), <- (set_next_unlinked y acc), Exy.
  apply IH. exact Eab.
Qed.

Lemma reverse_loop_app (a b : list ASTNode) (acc : ref) :
  reverse_loop (a ++ b) acc = reverse_loop b (reverse_loop a acc).
Proof.
  revert acc. induction a as [| x a IH]; intros acc; [reflexivity |].
  cbn [app reverse_loop]. apply IH.
Qed.

Lemma vec_to_list_reverse_loop (v : list ASTNode) :
  vec_to_list v = reverse_loop (rev v) None.
Proof.
  induction v as [| n rest IH]; [reflexivity |].
  cbn [rev vec_to_list]. rewrite reverse_loop_app, <- IH. reflexivity.
Qed.

(** X1.  [list_to_vec] and [vec_to_list] are inverse to each other: the
    sequence of a chain links back to the very chain, and the chain of a
    sequence reads back as the nodes of the sequence, which differ from
    the given ones in their sibling links only. *)
Theorem sibling_chain_round_trip (l : ref) (vec : list ASTNode) :
  vec_to_list (list_to_vec l) = l
  /\ map unlinked (list_to_vec (vec_to_list vec)) = map unlinked vec
  /\ List.length (list_to_vec (vec_to_list vec)) = List.length vec.
Proof.
  split; [apply relinked |]. split; [apply list_to_vec_vec_to_list |].
  rewrite <- (length_map unlinked), list_to_vec_vec_to_list.
  apply length_map.
Qed.

(** X2.  [reverse] is the chain of the reversed sequence: what its loop
    builds link by link is what [vec_to_list] makes of the node sequence
    read backwards; an empty chain stays empty. *)
Theorem reverse_is_chain_of_reversed (l : ref) :
  reverse l = vec_to_list (rev (list_to_vec l))
  /\ (reverse l = None <-> l = None).
Proof.
  split.
  - rewrite vec_to_list_reverse_loop, rev_involutive. reflexivity.
  - unfold reverse. destruct l as [n |]; [| split; reflexivity].
    rewrite list_to_vec_unfold. cbn [reverse_loop].
    split; [| discriminate].
    generalize (set_next n None). generalize (list_to_vec (m_next n)).
    intros v. induction v as [| x v IH]; intros a H; [discriminate H |].
    cbn [reverse_loop] in H. exact (IH _ H).
Qed.

(** X3.  Reversing a chain twice gives the chain back, links included. *)
Theorem reverse_involutive (l : ref) : reverse (reverse l) = l.
Proof.
  unfold reverse at 1.
  rewrite (reverse_loop_unlinked (list_to_vec (reverse l)) (rev (list_to_vec l))).
  - rewrite <- vec_to_list_reverse_loop. apply relinked.
  - unfold reverse. rewrite reverse_loop_nodes, app_nil_r, map_rev. reflexivity.
Qed.

Lemma append_empty (s : string) : (s ++ EmptyString)%string = s.
Proof.
  induction s as [| c s IH]; [reflexivity |]. cbn [append]. rewrite IH.
  reflexivity.
Qed.

Lemma types_string_later (i : nat) (nodes : list ASTNode) :
  types_string (S i) nodes =
  match nodes with
  | [] => EmptyString
  | _ => ", " ++ String.concat ", " (map (fun n => fmt_type (typespec n)) nodes)
  end.
Proof.
  revert i. induction nodes as [| n rest IH]; intros i; [reflexivity |].
  cbn [types_string map]. rewrite IH.
  destruct rest as [| m rest]; cbn [map String.concat].
  - rewrite append_empty. reflexivity.
  - reflexivity.
Qed.

(** X4.  [list_to_types_string] is the formatted types of the nodes of the
    chain, in order, joined by a comma and a blank: no separator before
    the first or after the last, the empty string for the empty chain. *)
Theorem list_to_types_string_concat (node : ref) :
  list_to_types_string node =
  String.concat ", " (map (fun n => fmt_type (typespec n)) (list_to_vec node)).
Proof.
  unfold list_to_types_string.
  destruct (list_to_vec node) as [| n rest]; [reflexivity |].
  cbn [types_string map]. rewrite types_string_later.
  destruct rest; cbn [map String.concat]; [| reflexivity].
  cbn [append]. apply append_empty.
Qed.

(** ** Writeability *)

Lemma check_symbol_writeability_closed (this var : ASTNode) (quiet : bool)
  (comp : OSLCompilerImpl) :
  match written_node var with
  | None => check_symbol_writeability this var quiet comp = None
  | Some root =>
      let dest := written_symbol root in
      exists comp',
        check_symbol_writeability this var quiet comp
        = Some ((negb match dest with
                      | Some d => sym_readonly d
                      | None => false
                      end,
                 if is_selection var then None else dest), comp')
        /\ filename comp' = filename comp /\ lineno comp' = lineno comp
        /\ symtab comp' = symtab comp /\ calls comp' = calls comp
        /\ diagnostics comp'
           = (diagnostics comp
              ++ match dest with
                 | Some d =>
                     if sym_readonly d && negb (quiet && negb (is_selection var))
                     then [mkDiagnostic Warning (m_sourcefile this)
                             (m_sourceline this) (cannot_write d)]
                     else []
                 | None => []
                 end)%list
  end.
Proof.
  revert quiet comp.
  induction var as [var IH] using ASTNode_base_ind.
  intros quiet comp.
  destruct var as [f l o lvl ts cs nx cls].
  destruct cls; cbn [written_node nodetype m_class m_children is_selection
                     check_symbol_writeability written_symbol sym] in IH |- *;
    try (destruct cs as [| [lv |] rest]; [reflexivity | | reflexivity];
         specialize (IH lv rest eq_refl false comp);
         destruct (written_node lv) as [root |];
         [ destruct IH as (comp' & R & F & L & S & K & D);
           unfold bind; rewrite R; exists comp';
           split; [reflexivity |]; do 4 (split; [assumption |]);
           rewrite D; destruct (written_symbol root) as [d |]; [| reflexivity];
           destruct (sym_readonly d), (is_selection lv), quiet; reflexivity
         | unfold bind; rewrite IH; reflexivity ]);
    try (exists comp; split; [reflexivity |]; do 4 (split; [reflexivity |]);
         symmetry; apply app_nil_r).
  all: destruct m_sym as [d |];
    [ destruct (sym_readonly d); [destruct quiet |] |];
    cbn [negb andb]; unfold bind, warningfmt, report, ret;
    eexists; (split; [reflexivity |]); do 4 (split; [reflexivity |]);
    cbn [diagnostics]; rewrite ?app_nil_r; reflexivity.
Qed.

Lemma written_node_has_base (var : ASTNode) :
  has_base var = match written_node var with
                 | Some root => negb (is_selection root)
                 | None => false
                 end.
Proof.
  induction var as [var IH] using ASTNode_base_ind.
  destruct var as [f l o lvl ts cs nx cls].
  destruct cls; cbn [has_base written_node nodetype m_class m_children];
    try reflexivity;
    (destruct cs as [| [lv |] rest]; [reflexivity | | reflexivity]);
    exact (IH lv rest eq_refl).
Qed.

(** X5.  [check_symbol_writeability] in closed form.  The check goes down
    the bases of index and struct-select nodes to the node that is
    written, which is no index and no selection; it crashes exactly when
    a base is missing on the way.  Otherwise it returns: the flag is false
    exactly when that node is a reference or a declaration of a read-only
    symbol; the symbol is handed back through [dest_sym] only when the
    target itself is that node, never from behind an index or a
    selection; the compiler changes at most by one diagnostic, a warning
    at the location of the checking node, which [quiet] suppresses only
    when the target itself is that node.  No error is ever reported. *)
Theorem writeability_of_base (this var : ASTNode) (quiet : bool)
  (comp : OSLCompilerImpl) :
  match written_node var with
  | None =>
      has_base var = false
      /\ check_symbol_writeability this var quiet comp = None
  | Some root =>
      let dest := written_symbol root in
      has_base var = true /\ is_selection root = false
      /\ exists comp',
        check_symbol_writeability this var quiet comp
        = Some ((negb match dest with
                      | Some d => sym_readonly d
                      | None => false
                      end,
                 if is_selection var then None else dest), comp')
        /\ filename comp' = filename comp /\ lineno comp' = lineno comp
        /\ symtab comp' = symtab comp /\ calls comp' = calls comp
        /\ diagnostics comp'
           = (diagnostics comp
              ++ match dest with
                 | Some d =>
                     if sym_readonly d && negb (quiet && negb (is_selection var))
                     then [mkDiagnostic Warning (m_sourcefile this)
                             (m_sourceline this) (cannot_write d)]
                     else []
                 | None => []
                 end)%list
  end.
Proof.
  pose proof (check_symbol_writeability_closed this var quiet comp) as H.
  pose proof (written_node_has_base var) as B.
  assert (S : forall root, written_node var = Some root ->
                           is_selection root = false).
  { clear. induction var as [var IH] using ASTNode_base_ind.
    destruct var as [f l o lvl ts cs nx cls].
    destruct cls; cbn [written_node nodetype m_class m_children];
      try (intros root E; injection E as <-; reflexivity);
      (destruct cs as [| [lv |] rest];
       [discriminate | | discriminate]);
      exact (IH lv rest eq_refl). }
  destruct (written_node var) as [root |].
  - cbv zeta. rewrite (S root eq_refl) in B.
    split; [exact B |]. split; [exact (S root eq_refl) | exact H].
  - split; [exact B | exact H].
Qed.

(** X6.  An increment or a decrement, prefix or postfix, of a target
    whose bases are all there is always built, with the operator given and
    the target as its only child.  Writing to a read-only symbol costs one
    warning and nothing else; it is reported at the position of the
    compiler, where the new node is, not at the position of the target. *)
Theorem incdec_warns_at_operator (prefix : bool) (op : Z) (expr root : ASTNode)
  (comp : OSLCompilerImpl) :
  written_node expr = Some root ->
  exists n comp',
    (if prefix then ASTpreincdec else ASTpostincdec) op expr comp
    = Some (n, comp')
    /\ nodetype n = (if prefix then preincdec_node else postincdec_node)
    /\ m_op n = op /\ m_children n = [Some expr]
    /\ symtab comp' = symtab comp /\ calls comp' = calls comp
    /\ diagnostics comp'
       = (diagnostics comp
          ++ match written_symbol root with
             | Some d =>
                 if sym_readonly d
                 then [mkDiagnostic Warning (filename comp) (lineno comp)
                                    (cannot_write d)]
                 else []
             | None => []
             end)%list.
Proof.
  intros W.
  destruct prefix.
  - pose proof (check_symbol_writeability_closed
                  (ASTNode_ ASTpreincdec_ comp op [Some expr]) expr false comp)
      as H.
    rewrite W in H. destruct H as (comp' & R & _ & _ & S & K & D).
    unfold ASTpreincdec, bind, get. rewrite R.
    eexists; exists comp'. split; [reflexivity |].
    do 3 (split; [reflexivity |]). do 2 (split; [assumption |]).
    rewrite D. destruct (written_symbol root) as [d |]; [| reflexivity].
    destruct (sym_readonly d); reflexivity.
  - pose proof (check_symbol_writeability_closed
                  (ASTNode_ ASTpostincdec_ comp op [Some expr]) expr false comp)
      as H.
    rewrite W in H. destruct H as (comp' & R & _ & _ & S & K & D).
    unfold ASTpostincdec, bind, get. rewrite R.
    eexists; exists comp'. split; [reflexivity |].
    do 3 (split; [reflexivity |]). do 2 (split; [assumption |]).
    rewrite D. destruct (written_symbol root) as [d |]; [| reflexivity].
    destruct (sym_readonly d); reflexivity.
Qed.

(** ** References to variables *)

(** X7.  A variable reference is always built, childless, and keeps
    whatever symbol the name finds.  It takes the type of the symbol
    exactly when the symbol is there and is neither a function nor a type
    name; in the three other cases its type stays unknown and exactly one
    error is reported, at the position of the compiler.  Nothing else of
    the compiler changes. *)
Theorem variable_ref_typed_or_reported (nm : string) (comp : OSLCompilerImpl) :
  let found := symtab_find (symtab comp) nm in
  let usable := match found with
                | Some s => negb (SymType_beq (sym_symtype s) SymTypeFunction)
                            && negb (SymType_beq (sym_symtype s) SymTypeType)
                | None => false
                end in
  exists n comp' reported,
    ASTvariable_ref nm comp = Some (n, comp')
    /\ nodetype n = variable_ref_node /\ m_children n = [] /\ name n = nm
    /\ sym n = found
    /\ typespec n = match found with
                    | Some s => if usable then sym_typespec s
                                else TypeSpec_default
                    | None => TypeSpec_default
                    end
    /\ symtab comp' = symtab comp /\ calls comp' = calls comp
    /\ diagnostics comp' = (diagnostics comp ++ reported)%list
    /\ List.length reported = (if usable then 0 else 1)%nat
    /\ Forall (fun d => diag_severity d = Error
                        /\ diag_file d = filename comp
                        /\ diag_line d = lineno comp) reported.
Proof.
  cbv zeta. unfold ASTvariable_ref, bind, get.
  destruct (symtab_find (symtab comp) nm) as [s |].
  - destruct (SymType_beq (sym_symtype s) SymTypeFunction);
      [| destruct (SymType_beq (sym_symtype s) SymTypeType)];
      cbn [negb andb]; unfold errorfmt, report, ret;
      do 2 eexists.
    + eexists [_]. do 8 (split; [reflexivity |]). split; [reflexivity |].
      split; [reflexivity |]. repeat constructor.
    + eexists [_]. do 8 (split; [reflexivity |]). split; [reflexivity |].
      split; [reflexivity |]. repeat constructor.
    + exists []. do 8 (split; [reflexivity |]).
      split; [symmetry; apply app_nil_r |]. split; [reflexivity |]. constructor.
  - unfold errorfmt, report, ret. do 2 eexists. eexists [_].
    do 8 (split; [reflexivity |]). split; [reflexivity |].
    split; [reflexivity |]. repeat constructor.
Qed.

(** ** Binary expressions *)

Lemma literal_has_values (n : ASTNode) :
  nodetype n = literal_node ->
  exists i f, intval n = Some i /\ floatval n = Some f.
Proof.
  destruct n as [f l o lvl ts cs nx cls].
  destruct cls; cbn; intros H; try discriminate H.
  do 2 eexists. split; reflexivity.
Qed.

(** X8.  [make] folds nothing but two literals of one kind.  Whenever it
    returns a node that is no binary-expression node, both operands are
    literal nodes, both of type [int] or both of type [float], and the
    node is the literal that the fold of that kind gives on the operator;
    so a literal and a non-literal, an [int] and a [float] literal, and
    the operators without a fold ([&&], [||], and on floats also [%]) are
    never folded. *)
Theorem make_folds_only_like_literals (op : Operator) (left right n : ASTNode)
  (comp comp' : OSLCompilerImpl) :
  make op left right comp = Some (n, comp') ->
  nodetype n <> binary_expression_node ->
  comp' = comp
  /\ nodetype left = literal_node /\ nodetype right = literal_node
  /\ ((TS.is_int (typespec left) = true /\ TS.is_int (typespec right) = true
       /\ exists lv rv r, intval left = Some lv /\ intval right = Some rv
            /\ fold_int op lv rv = Some r /\ n = ASTliteral_int comp r)
      \/ (TS.is_float (typespec left) = true
          /\ TS.is_float (typespec right) = true
          /\ In op float_fold_operators
          /\ exists lv rv, floatval left = Some lv /\ floatval right = Some rv
               /\ fold_float comp op lv rv = Some n)).
Proof.
  intros E NB.
  assert (B : forall m c, ASTbinary_expression op (Some left) (Some right) comp
                          = Some (m, c) -> nodetype m = binary_expression_node).
  { intros m c. unfold ASTbinary_expression, bind, get, ret.
    destruct (negb (Operator_beq op And) && negb (Operator_beq op Or)).
    - destruct (binary_opword _); cbn [deref]; unfold ret, abort;
        [| discriminate].
      destruct (is_function _); intros H; injection H as <- _; reflexivity.
    - intros H; injection H as <- _; reflexivity. }
  unfold make in E.
  destruct (NodeType_beq (nodetype left) literal_node) eqn:NL;
    [| cbn [andb] in E; exfalso; exact (NB (B _ _ E))].
  destruct (NodeType_beq (nodetype right) literal_node) eqn:NR;
    [| cbn [andb] in E; exfalso; exact (NB (B _ _ E))].
  cbn [andb] in E.
  assert (HL : nodetype left = literal_node)
    by (destruct (nodetype left); try discriminate NL; reflexivity).
  assert (HR : nodetype right = literal_node)
    by (destruct (nodetype right); try discriminate NR; reflexivity).
  destruct (literal_has_values left HL) as (li & lf & Li & Lf).
  destruct (literal_has_values right HR) as (ri & rf & Ri & Rf).
  unfold bind at 1 in E. unfold get at 1 in E. cbv beta iota in E.
  unfold bind at 1 in E.
  destruct (TS.is_int (typespec left) && TS.is_int (typespec right)) eqn:II.
  - apply andb_prop in II. destruct II as [IL IR].
    rewrite Li, Ri in E. unfold bind, deref, ret in E. cbv beta iota in E.
    destruct (fold_int op li ri) as [r |] eqn:F; cbn [option_map] in E.
    + injection E as <- <-. split; [reflexivity |]. do 2 (split; [assumption |]).
      left. do 2 (split; [assumption |]). exists li, ri, r.
      repeat split; assumption.
    + exfalso. exact (NB (B _ _ E)).
  - destruct (TS.is_float (typespec left) && TS.is_float (typespec right)) eqn:FF.
    + apply andb_prop in FF. destruct FF as [FL FR].
      rewrite Lf, Rf in E. unfold bind, deref, ret in E. cbv beta iota in E.
      destruct (fold_float comp op lf rf) as [r |] eqn:F.
      * injection E as <- <-. split; [reflexivity |].
        do 2 (split; [assumption |]).
        right. do 2 (split; [assumption |]). split.
        -- destruct op; try discriminate F; cbn; tauto.
        -- exists lf, rf. repeat split; assumption.
      * exfalso. exact (NB (B _ _ E)).
    + unfold ret in E. cbv beta iota in E. exfalso. exact (NB (B _ _ E)).
Qed.

(** X9.  The logical operators are never folded and never overloaded:
    on any two operands, literals included, [make] with [&&] or [||]
    returns a binary-expression node over the two operands that remembers
    no overload, whatever the symbol table holds, and leaves the compiler
    as it was. *)
Theorem make_logical_never_folds (op : Operator) (left right : ASTNode)
  (comp : OSLCompilerImpl) :
  op = And \/ op = Or ->
  exists n,
    make op left right comp = Some (n, comp)
    /\ nodetype n = binary_expression_node
    /\ m_op n = Operator_code op
    /\ m_children n = [Some left; Some right]
    /\ function_overload n = None.
Proof.
  intros H.
  assert (B : exists n,
             ASTbinary_expression op (Some left) (Some right) comp = Some (n, comp)
             /\ nodetype n = binary_expression_node
             /\ m_op n = Operator_code op
             /\ m_children n = [Some left; Some right]
             /\ function_overload n = None).
  { unfold ASTbinary_expression, bind, get.
    destruct H as [-> | ->]; cbn; eexists; repeat split; reflexivity. }
  unfold make.
  destruct (NodeType_beq (nodetype left) literal_node) eqn:NL;
    [| exact B].
  destruct (NodeType_beq (nodetype right) literal_node) eqn:NR;
    [| exact B].
  cbn [andb].
  assert (HL : nodetype left = literal_node)
    by (destruct (nodetype left); try discriminate NL; reflexivity).
  assert (HR : nodetype right = literal_node)
    by (destruct (nodetype right); try discriminate NR; reflexivity).
  destruct (literal_has_values left HL) as (li & lf & Li & Lf).
  destruct (literal_has_values right HR) as (ri & rf & Ri & Rf).
  unfold bind at 1. unfold get at 1. cbv beta iota.
  unfold bind at 1.
  destruct (TS.is_int (typespec left) && TS.is_int (typespec right)).
  - rewrite Li, Ri. unfold bind, deref, ret. cbv beta iota.
    destruct H as [-> | ->]; cbn [fold_int option_map]; exact B.
  - destruct (TS.is_float (typespec left) && TS.is_float (typespec right)).
    + rewrite Lf, Rf. unfold bind, deref, ret. cbv beta iota.
      destruct H as [-> | ->]; cbn [fold_float]; exact B.
    + unfold ret. cbv beta iota. exact B.
Qed.

(** ** Operators: overloads and names *)

Lemma overload_is_function (found : option Symbol) (f : Symbol) :
  (if is_function found then found else None) = Some f ->
  sym_symtype f = SymTypeFunction /\ found = Some f.
Proof.
  destruct found as [s |]; cbn [is_function]; [| discriminate].
  destruct (SymType_beq (sym_symtype s) SymTypeFunction) eqn:E;
    [| discriminate].
  intros H; injection H as <-. split; [| reflexivity].
  destruct (sym_symtype s); try discriminate E; reflexivity.
Qed.

Lemma Operator_of_code_code (c : Z) (o : Operator) :
  Operator_of_code c = Some o -> Operator_code o = c.
Proof.
  unfold Operator_of_code. intros E. apply find_some in E.
  destruct E as [_ E]. apply Z.eqb_eq in E. exact E.
Qed.

(** X10.  What a binary-expression node remembers as the user's overload,
    operator by operator.  On each of the sixteen operators of the table
    the constructor returns a two-child node and leaves the compiler
    alone; the node remembers the symbol found under
    [__operator__<word>__], with the word the table gives for the
    operator, when that symbol is a function, and nothing when there is
    no such symbol or it is no function: a remembered overload is always
    a function symbol.  On [&&] and [||] the constructor returns a node
    that remembers nothing, and asks for no symbol.  On the six remaining
    operators, which have no word, the constructor stops on the failed
    assertion of [opword]. *)
Theorem binary_overload_is_function (op : Operator) (l r : ref)
  (comp : OSLCompilerImpl) :
  (forall w, In (op, w) binary_overload_words ->
     let found := symtab_find (symtab comp) ("__operator__" ++ w ++ "__") in
     exists n,
       ASTbinary_expression op l r comp = Some (n, comp)
       /\ nodetype n = binary_expression_node
       /\ m_op n = Operator_code op /\ m_children n = [l; r]
       /\ function_overload n = (if is_function found then found else None)
       /\ forall f, function_overload n = Some f ->
                    sym_symtype f = SymTypeFunction /\ found = Some f)
  /\ (op = And \/ op = Or ->
      exists n,
        ASTbinary_expression op l r comp = Some (n, comp)
        /\ nodetype n = binary_expression_node
        /\ m_op n = Operator_code op /\ m_children n = [l; r]
        /\ function_overload n = None)
  /\ (In op [Nothing; Decr; Incr; Assign; Compl; Not] ->
      ASTbinary_expression op l r comp = None)
  /\ (In op (map fst binary_overload_words) \/ op = And \/ op = Or
      \/ In op [Nothing; Decr; Incr; Assign; Compl; Not]).
Proof.
  split; [| split; [| split]].
  - intros w H. cbv zeta. cbn [In binary_overload_words] in H.
    repeat (destruct H as [H | H];
            [ injection H as <- <-;
              unfold ASTbinary_expression, bind, get; cbn;
              match goal with
              | |- context [is_function ?s] =>
                  pose proof (overload_is_function s) as F;
                  destruct (is_function s); cbn
              end;
              eexists; (split; [reflexivity |]);
              do 4 (split; [reflexivity |]);
              first [ exact F | intros f D; discriminate D ]
            |]).
    contradiction.
  - unfold ASTbinary_expression, bind, get.
    intros [-> | ->]; cbn; eexists; repeat split; reflexivity.
  - unfold ASTbinary_expression, bind, get. cbn [In]. intros H.
    repeat (destruct H as [<- | H]; [reflexivity |]). contradiction.
  - destruct op; cbn; tauto.
Qed.

(** X11.  What a unary-expression node remembers as the user's overload,
    operator by operator.  On the codes of [+], [-], [!] and [~], and on
    no other code, the constructor returns: a one-child node with that
    code, the compiler left alone.  The node remembers the function symbol
    found under [__operator__<word>__], if any, where the word is [add]
    for [+], [neg] for [-], [not] for [!] and [compl] for [~], which is
    what [opword] gives; [opname] gives [+], [-], [!], [~].  On every
    other code the constructor stops on the failed assertion of [opword],
    and neither [opword] nor [opname] has an answer.  Unary minus so looks
    for [neg], not for the [sub] of the binary operator, whereas unary
    plus looks for the same [add] as binary plus: a user's
    [__operator__add__] is remembered by both. *)
Theorem unary_overload_by_word (op : Z) (expr l r : ref)
  (comp : OSLCompilerImpl) :
  (forall o w, In (o, w) unary_overload_words -> op = Operator_code o ->
     let found := symtab_find (symtab comp) ("__operator__" ++ w ++ "__") in
     exists n,
       ASTunary_expression op expr comp = Some (n, comp)
       /\ nodetype n = unary_expression_node /\ m_op n = op
       /\ m_children n = [expr]
       /\ function_overload n = (if is_function found then found else None)
       /\ (forall f, function_overload n = Some f ->
                     sym_symtype f = SymTypeFunction /\ found = Some f)
       /\ unary_opword op = Some w)
  /\ (forall o s, In (o, s) unary_operator_names -> op = Operator_code o ->
      unary_opname op = Some s)
  /\ ((forall o, In o [Add; Sub; Not; Compl] -> op <> Operator_code o) ->
      ASTunary_expression op expr comp = None
      /\ unary_opword op = None /\ unary_opname op = None)
  /\ (op = Operator_code Add ->
      exists u b,
        ASTunary_expression op expr comp = Some (u, comp)
        /\ ASTbinary_expression Add l r comp = Some (b, comp)
        /\ function_overload b = function_overload u)
  /\ (op = Operator_code Sub ->
      binary_opword op = Some "sub" /\ unary_opword op = Some "neg").
Proof.
  split; [| split; [| split; [| split]]].
  - intros o w H ->. cbv zeta. cbn [In unary_overload_words] in H.
    repeat (destruct H as [H | H];
            [ injection H as <- <-;
              unfold ASTunary_expression, bind, get; cbn;
              match goal with
              | |- context [is_function ?s] =>
                  pose proof (overload_is_function s) as F;
                  destruct (is_function s); cbn
              end;
              eexists; (split; [reflexivity |]);
              do 4 (split; [reflexivity |]);
              (split; [| reflexivity]);
              first [ exact F | intros f D; discriminate D ]
            |]).
    contradiction.
  - intros o s H ->. cbn [In unary_operator_names] in H.
    repeat (destruct H as [H | H]; [injection H as <- <-; reflexivity |]).
    contradiction.
  - intros H.
    assert (W : unary_opword op = None /\ unary_opname op = None).
    { unfold unary_opword, unary_opname.
      destruct (Operator_of_code op) as [o |] eqn:E;
        [| split; reflexivity].
      apply Operator_of_code_code in E.
      destruct o; try (split; reflexivity);
        exfalso; refine (H _ _ (eq_sym E)); cbn; tauto. }
    destruct W as [W N]. split; [| split; assumption].
    unfold ASTunary_expression, bind, get.
    replace (m_op (ASTNode_ (ASTunary_expression_ None) comp op [expr]))
      with op by reflexivity.
    rewrite W. reflexivity.
  - intros ->. unfold ASTunary_expression, ASTbinary_expression, bind, get.
    cbn.
    match goal with
    | |- context [is_function ?s] => destruct (is_function s); cbn
    end; do 2 eexists; repeat split; reflexivity.
  - intros ->. split; reflexivity.
Qed.

(** X12.  The names of the assignment operators agree with those of the
    binary operators: every operator code that has an assignment name is
    either plain assignment, named [=] and [assign], or a compound
    operator whose name is the name of the binary operator followed by
    [=] and whose word is the word of the binary operator; the codes with
    an assignment name are those of plain assignment and of the nine
    compound operators. *)
Theorem assign_names_follow_binary (op : Z) :
  match assign_opname op with
  | None =>
      assign_opword op = None
      /\ forall o, In o (Assign :: compound_operators) -> Operator_code o <> op
  | Some s =>
      (exists o, In o (Assign :: compound_operators) /\ Operator_code o = op)
      /\ ((op = Operator_code Assign /\ s = "=" /\ assign_opword op = Some "assign")
          \/ (exists b, binary_opname op = Some b /\ s = b ++ "="
                        /\ assign_opword op <> None
                        /\ assign_opword op = binary_opword op))
  end.
Proof.
  unfold assign_opname, assign_opword, binary_opname, binary_opword.
  destruct (Operator_of_code op) as [o |] eqn:E.
  - assert (Operator_code o = op) as <-.
    { unfold Operator_of_code in E. apply find_some in E.
      destruct E as [_ E]. apply Z.eqb_eq in E. exact E. }
    destruct o;
      try (split; [reflexivity |]; intros o [<- | H];
           [discriminate |]; cbn in H;
           repeat (destruct H as [<- | H]; [discriminate |]); contradiction);
      (split; [eexists; split; [| reflexivity]; cbn; tauto |]);
      try (left; repeat split; reflexivity);
      right; eexists; repeat split; try reflexivity; discriminate.
  - split; [reflexivity |]. intros o H Eo.
    unfold Operator_of_code in E.
    assert (I : In o all_operators) by (destruct o; cbn; tauto).
    pose proof (find_none _ _ E o I) as N. cbv beta in N.
    apply Z.eqb_neq in N. exact (N Eo).
Qed.

(** X13.  Every assignment node that is built carries the code of plain
    assignment, whatever operator it was built with, so its name is [=]
    and its word is [assign]; it is built with two children, the first of
    which is the target. *)
Theorem assign_node_is_plain (var : ASTNode) (op : Operator) (expr : ref)
  (comp comp' : OSLCompilerImpl) (n : ASTNode) :
  ASTassign_expression var op expr comp = Some (n, comp') ->
  nodetype n = assign_expression_node
  /\ m_op n = Operator_code Assign
  /\ assign_opname (m_op n) = Some "=" /\ assign_opword (m_op n) = Some "assign"
  /\ child n 0 = Some var /\ nchildren n = 2%nat.
Proof.
  unfold ASTassign_expression. unfold bind at 1. unfold get at 1.
  cbv beta iota. unfold bind at 1.
  destruct (Operator_beq op Assign) eqn:A; cbn [negb].
  - assert (op = Assign) as -> by (destruct op; try discriminate A; reflexivity).
    unfold ret at 1. cbv beta iota. unfold bind.
    destruct (check_symbol_writeability _ var false comp) as [[r c] |];
      [| discriminate].
    unfold ret. intros H. injection H as <- _. repeat split; reflexivity.
  - unfold bind at 1.
    destruct (ASTbinary_expression op (Some var) expr comp) as [[b c] |];
      [| discriminate].
    unfold ret at 1. cbv beta iota. unfold bind.
    destruct (check_symbol_writeability _ var false c) as [[r c'] |];
      [| discriminate].
    unfold ret. intros H. injection H as <- _. repeat split; reflexivity.
Qed.

(** ** Function declarations *)

Lemma append_assoc (a b c : string) : ((a ++ b) ++ c = a ++ (b ++ c))%string.
Proof.
  induction a as [| x a IH]; [reflexivity |]. cbn [append]. rewrite IH.
  reflexivity.
Qed.

Lemma nonempty_append (a b : string) :
  string_empty b = false -> string_empty (a ++ b) = false.
Proof. destruct a; [intros H; exact H | reflexivity]. Qed.

Lemma concat_cons (x : string) (l : list string) :
  String.concat EmptyString (x :: l) = (x ++ String.concat EmptyString l)%string.
Proof.
  destruct l as [| y l]; cbn [String.concat];
    [symmetry; apply append_empty | reflexivity].
Qed.

Lemma previous_definition_nonempty (x : string) (f : Symbol) :
  string_empty (x ++ previous_definition f) = false.
Proof. apply nonempty_append. reflexivity. Qed.

Lemma redefinitions_closed (fs : list Symbol) (sc : Z)
  (argcodes header err : string) :
  redefinitions fs sc argcodes header err
  = match filter (conflicts sc argcodes) fs with
    | [] => err
    | hits => (if string_empty err then header else err)
              ++ String.concat EmptyString (map previous_definition hits)
    end.
Proof.
  revert err. induction fs as [| f rest IH]; intros err; [reflexivity |].
  cbn [redefinitions filter]. rewrite IH.
  assert (S : forall base : string,
             match filter (conflicts sc argcodes) rest with
             | [] => base ++ previous_definition f
             | hits =>
                 (if string_empty (base ++ previous_definition f) then header
                  else base ++ previous_definition f)
                 ++ String.concat EmptyString (map previous_definition hits)
             end
             = base ++ String.concat EmptyString
                         (map previous_definition
                              (f :: filter (conflicts sc argcodes) rest))).
  { intros base. cbn [map]. rewrite concat_cons.
    destruct (filter (conflicts sc argcodes) rest) as [| h hits].
    - cbn [map String.concat]. rewrite append_empty. reflexivity.
    - rewrite previous_definition_nonempty, append_assoc. reflexivity. }
  unfold conflicts at 2.
  destruct (sym_scope f =? sc); cbn [andb]; [| reflexivity].
  destruct (String.eqb (sym_argcodes f) argcodes); cbn [andb];
    [| reflexivity].
  specialize (S (if string_empty err then header else err)).
  unfold previous_definition at 1 2 3 in S.
  destruct (sym_node f) as [o |].
  - destruct (decl_statements o || decl_is_builtin o); [| reflexivity].
    rewrite <- S, !append_assoc. reflexivity.
  - rewrite <- S, !append_assoc. reflexivity.
Qed.

Lemma redefinitions_from_empty (fs : list Symbol) (sc : Z)
  (argcodes header : string) :
  redefinitions fs sc argcodes header EmptyString
  = (if existsb (conflicts sc argcodes) fs
     then header
          ++ String.concat EmptyString
               (map previous_definition (filter (conflicts sc argcodes) fs))
     else EmptyString)
  /\ string_empty (redefinitions fs sc argcodes header EmptyString)
     = negb (existsb (conflicts sc argcodes) fs).
Proof.
  rewrite redefinitions_closed. cbn [string_empty].
  assert (E : existsb (conflicts sc argcodes) fs
              = match filter (conflicts sc argcodes) fs with
                | [] => false
                | _ => true
                end).
  { induction fs as [| f rest IH]; [reflexivity |].
    cbn [existsb filter]. destruct (conflicts sc argcodes f); [reflexivity |].
    exact IH. }
  rewrite E.
  destruct (filter (conflicts sc argcodes) fs) as [| h hits];
    [split; reflexivity |].
  split; [reflexivity |].
  cbn [map]. rewrite concat_cons. cbn [negb].
  apply nonempty_append. reflexivity.
Qed.

(** X14.  The text of the redefinition warning, which the loop over the
    overloads builds: it is empty exactly when no overload in the chain
    conflicts (same scope, same signature, and a body or no declaration
    node); otherwise it is the header followed by one line for each
    conflicting overload, in the order of the chain, giving the file and
    the line of its declaration, or [built-in].  The header goes in only
    once, with the first conflict: from a text that is not empty the loop
    goes on by appending the lines. *)
Theorem redefinition_text (fs : list Symbol) (sc : Z)
  (argcodes header : string) :
  redefinitions fs sc argcodes header EmptyString
  = (if existsb (conflicts sc argcodes) fs
     then header
          ++ String.concat EmptyString
               (map previous_definition (filter (conflicts sc argcodes) fs))
     else EmptyString)
  /\ string_empty (redefinitions fs sc argcodes header EmptyString)
     = negb (existsb (conflicts sc argcodes) fs)
  /\ (forall c err,
        redefinitions fs sc argcodes header (String c err)
        = String c err
          ++ String.concat EmptyString
               (map previous_definition (filter (conflicts sc argcodes) fs))).
Proof.
  destruct (redefinitions_from_empty fs sc argcodes header) as [T E].
  split; [exact T |]. split; [exact E |].
  intros c err. rewrite redefinitions_closed. cbn [string_empty].
  destruct (filter (conflicts sc argcodes) fs) as [| h hits];
    [| reflexivity].
  cbn [map String.concat]. symmetry. apply append_empty.
Qed.

Lemma formal_argcodes_known (formals : list ASTNode) :
  Forall (fun a => TypeSpec_eqb (typespec a) TypeSpec_default = false
                   /\ is_variable_declaration a = true) formals ->
  forall argcodes comp, exists comp',
    formal_argcodes formals argcodes comp
    = Some (Some (argcodes
                  ++ String.concat EmptyString
                       (map (fun a => code_from_type (typespec a)) formals)),
            comp')
    /\ diagnostics comp' =
       (diagnostics comp ++ flat_map function_formal_diagnostics formals)%list
    /\ symtab comp' = symtab comp
    /\ calls comp' = calls comp.
Proof.
  intros P. induction P as [| a rest [T V] _ IH]; intros argcodes comp.
  - exists comp. cbn [formal_argcodes flat_map map String.concat].
    rewrite app_nil_r, append_empty. repeat split; reflexivity.
  - cbn [formal_argcodes flat_map map]. rewrite T, V, concat_cons.
    unfold function_formal_diagnostics.
    destruct (not_null (init a));
      cbv [bind OSL_ASSERT ret errorfmt report];
      match goal with
      | |- context [formal_argcodes _ ?ac ?c] =>
          destruct (IH ac c) as (c2 & E2 & D2 & S2 & K2)
      end;
      exists c2; rewrite E2, D2, S2, K2; cbn [diagnostics symtab calls];
      rewrite <- ?app_assoc, append_assoc; repeat split; reflexivity.
Qed.

(** X15.  A function declaration whose formals all have a known type is
    always registered.  The node gets a function symbol with the name and
    the return type given, whose signature is the code of the return type
    followed by the codes of the formals and whose chain of overloads is
    the clashing symbol when that is a function, and is empty otherwise;
    the symbol goes into the symbol table and the node is type checked,
    once, also when errors were reported on the way.  A warning of a
    redefinition is issued only for a declaration with a body, exactly
    when an overload of the chain conflicts, and it lists these
    overloads; everything reported before it is an error. *)
Theorem function_declaration_registers (comp : OSLCompilerImpl)
  (type : TypeSpec) (nm : string) (form stmts meta : ref)
  (sourceline_start : Z) :
  Forall (fun a => TypeSpec_eqb (typespec a) TypeSpec_default = false
                   /\ is_variable_declaration a = true) (list_to_vec form) ->
  let chain := match symtab_clash (symtab comp) nm with
               | Some e => if SymType_beq (sym_symtype e) SymTypeFunction
                           then Some e else None
               | None => None
               end in
  let argcodes := signature type (list_to_vec form) in
  let redefined := conflicts (symtab_scopeid (symtab comp)) argcodes in
  let overloads := match chain with Some f => polys f | None => [] end in
  exists this comp' s errors,
    ASTfunction_declaration type nm form stmts meta sourceline_start comp
    = Some (this, comp')
    /\ nodetype this = function_declaration_node
    /\ typespec this = type
    /\ m_sourceline this
       = (if 0 <=? sourceline_start then sourceline_start else lineno comp)
    /\ sym this = Some s
    /\ sym_name s = nm /\ sym_typespec s = type
    /\ sym_symtype s = SymTypeFunction
    /\ sym_argcodes s = argcodes /\ sym_nextpoly s = chain
    /\ symtab comp' = symtab_insert (symtab comp) s
    /\ calls comp' = (calls comp ++ [Call_typecheck this type])%list
    /\ diagnostics comp'
       = (diagnostics comp ++ errors
          ++ (if not_null stmts && existsb redefined overloads
              then [mkDiagnostic Warning (m_sourcefile this)
                      (m_sourceline this)
                      (redefined_header type nm form
                       ++ String.concat EmptyString
                            (map previous_definition
                                 (filter redefined overloads)))]
              else []))%list
    /\ Forall (fun d => diag_severity d = Error) errors.
Proof.
  intros P. cbv zeta.
  assert (FE : Forall (fun d => diag_severity d = Error)
                 (flat_map function_formal_diagnostics (list_to_vec form))).
  { clear. induction (list_to_vec form) as [| a rest IH]; cbn [flat_map];
      [constructor | apply Forall_app; split; [| exact IH]].
    unfold function_formal_diagnostics. destruct (not_null (init a));
      repeat constructor. }
  unfold ASTfunction_declaration. unfold bind at 1. unfold get at 1.
  cbv beta iota zeta.
  destruct (0 <=? sourceline_start);
    destruct (starts_with nm "___");
    destruct (symtab_clash (symtab comp) nm) as [e |];
    try destruct (SymType_beq (sym_symtype e) SymTypeFunction);
    cbv [bind errorfmt report ret negb];
    match goal with
    | |- context [formal_argcodes _ ?ac ?c] =>
        destruct (formal_argcodes_known (list_to_vec form) P ac c)
          as (c2 & E & D & S & K)
    end;
    cbn [diagnostics symtab calls] in D, S, K; rewrite <- ?app_assoc in D;
    rewrite E; fold (signature type (list_to_vec form));
    destruct (not_null stmts); cbn [andb];
    try (match goal with
         | |- context [redefinitions ?fs ?sc ?ac ?h EmptyString] =>
             destruct (redefinitions_from_empty fs sc ac h) as [RT RE];
             rewrite RE, RT; destruct (existsb (conflicts sc ac) fs);
             cbn [negb]
         end);
    cbv [bind warningfmt report insert_symbol record_call ret];
    cbn [diagnostics symtab calls]; rewrite D, S, K.
  all: match goal with
       | |- context [(diagnostics _ ++ ?x)%list] => eexists _, _, _, x
       end;
    (split; [reflexivity |]); do 11 (split; [reflexivity |]);
    (split;
     [ cbn [diagnostics]; rewrite <- ?app_assoc, ?app_nil_r; reflexivity |]);
    cbn [app]; repeat (apply Forall_cons; [reflexivity |]); exact FE.
Qed.

(** ** Variable declarations *)

(** X16.  The two assertions of the constructor of variable declarations
    are the only way it stops: it fails exactly when an initializer list
    is announced and the initializer given is no compound initializer, or
    when a metadata declaration has a structure type (or an array of
    structures). *)
Theorem variable_declaration_asserts (type : TypeSpec) (nm : string)
  (init : ref) (isparam ismeta isoutput initlist : bool) (start : Z)
  (comp : OSLCompilerImpl) :
  ASTvariable_declaration type nm init isparam ismeta isoutput initlist start
    comp = None
  <-> (initlist = true
       /\ exists i, init = Some i /\ nodetype i <> compound_initializer_node)
      \/ (TS.is_structure type || TS.is_structure_array type = true
          /\ ismeta = true).
Proof.
  unfold ASTvariable_declaration. unfold bind at 1. unfold get at 1.
  cbv beta iota zeta.
  destruct init as [i |]; [destruct initlist |].
  1: destruct (NodeType_beq (nodetype i) compound_initializer_node) eqn:N.
  1: assert (NI : nodetype i = compound_initializer_node)
       by (destruct (nodetype i); try discriminate N; reflexivity).
  2: assert (NI : nodetype i <> compound_initializer_node)
       by (intros NI; rewrite NI in N; discriminate N).
  all: destruct (symtab_clash (symtab comp) nm) as [f |];
    destruct ismeta;
    try destruct ((sym_scope f =? 0)
                  && SymType_beq (sym_symtype f) SymTypeFunction && isparam);
    destruct (starts_with nm "___");
    destruct (TS.is_structure type || TS.is_structure_array type);
    cbv [bind OSL_ASSERT record_call errorfmt warningfmt report insert_symbol
         ret abort negb];
    split; intros H; try discriminate H; try reflexivity;
    try (right; split; reflexivity);
    try (left; split; [reflexivity |]; exists i; split; [reflexivity | exact NI]);
    try (destruct H as [(H1 & j & H2 & H3) | (H1 & H2)];
         try discriminate H1; try discriminate H2;
         injection H2 as <-; contradiction).
Qed.

(** X17.  What a variable declaration that is built leaves behind.  The
    node has the type given, the initializer as its first child, and the
    line of the start of the declaration when one is given.  Its symbol
    has the name and the type of the declaration and points back to the
    node; it is an output parameter, a parameter or a local as the flags
    say, and a local whose name starts with [__debug_tmp__] is a temporary
    (a parameter of such a name stays a parameter).  A metadata
    declaration never touches the symbol table and never reports a clash.
    Any other declaration hands its new symbol to the symbol table, also
    after an error on a clash or on the name; for a declaration that is no
    structure this one [insert] is all that happens to the table. *)
Theorem variable_declaration_symbol (type : TypeSpec) (nm : string)
  (init : ref) (isparam ismeta isoutput initlist : bool) (start : Z)
  (comp comp' : OSLCompilerImpl) (n : ASTNode) :
  ASTvariable_declaration type nm init isparam ismeta isoutput initlist start
    comp = Some (n, comp') ->
  let symtype := if isparam
                 then (if isoutput then SymTypeOutputParam else SymTypeParam)
                 else if starts_with nm "__debug_tmp__" then SymTypeTemp
                      else SymTypeLocal in
  let line := if 0 <=? start then start else lineno comp in
  let declared := Some (mkDeclRef (filename comp) line false false) in
  exists s,
    sym n = Some s
    /\ nodetype n = variable_declaration_node /\ typespec n = type
    /\ m_children n = [init; None]
    /\ m_sourcefile n = filename comp /\ m_sourceline n = line
    /\ sym_name s = nm /\ sym_typespec s = type /\ sym_symtype s = symtype
    /\ sym_node s = declared
    /\ (ismeta = true ->
        symtab comp' = symtab comp
        /\ diagnostics comp'
           = (diagnostics comp
              ++ (if starts_with nm "___"
                  then [mkDiagnostic Error (filename comp) line
                                     (three_underscores nm)]
                  else []))%list)
    /\ (ismeta = false ->
        TS.is_structure type || TS.is_structure_array type = false ->
        symtab comp'
        = symtab_insert (symtab comp) (new_Symbol nm type symtype declared)).
Proof.
  cbv zeta.
  unfold ASTvariable_declaration. unfold bind at 1. unfold get at 1.
  cbv beta iota zeta.
  destruct (0 <=? start);
  (destruct init as [i |]; [destruct initlist |];
  [destruct (NodeType_beq (nodetype i) compound_initializer_node) | |]);
  destruct (symtab_clash (symtab comp) nm) as [f |];
    destruct ismeta;
    try destruct ((sym_scope f =? 0)
                  && SymType_beq (sym_symtype f) SymTypeFunction && isparam);
    destruct (starts_with nm "___");
    destruct (TS.is_structure type || TS.is_structure_array type);
    (destruct isparam; [destruct isoutput |]);
    cbn [SymType_beq andb];
    try destruct (starts_with nm "__debug_tmp__");
    cbv [bind OSL_ASSERT record_call errorfmt warningfmt report insert_symbol
         ret abort negb];
    intros H; try discriminate H; injection H as <- <-;
    eexists; (split; [reflexivity |]); do 9 (split; [reflexivity |]);
    (split; [intros M; try discriminate M; cbn [diagnostics symtab];
             rewrite ?app_nil_r; split; reflexivity
            | intros M S; try discriminate M; try discriminate S;
              reflexivity]).
Qed.

(** ** Struct selection *)

Lemma find_field_from (fields : list FieldSpec) (f : string) (i : Z) :
  0 <= i ->
  let k := find_field fields f i in
  (k = -1 /\ forall fld, In fld fields -> field_name fld <> f)
  \/ (i <= k < i + Z.of_nat (List.length fields)
      /\ (exists fld, nth_error fields (Z.to_nat (k - i)) = Some fld
                      /\ field_name fld = f)
      /\ forall j fld, (j < Z.to_nat (k - i))%nat ->
                       nth_error fields j = Some fld -> field_name fld <> f).
Proof.
  revert i. induction fields as [| fld rest IH]; intros i Hi; cbv zeta.
  - left. split; [reflexivity |]. intros fld [].
  - cbn [find_field]. destruct (String.eqb (field_name fld) f) eqn:E.
    + right. apply String.eqb_eq in E. rewrite Z.sub_diag.
      split; [cbn [List.length]; lia |]. split.
      * exists fld. split; [reflexivity | exact E].
      * intros j g Hj. cbn in Hj. lia.
    + apply String.eqb_neq in E.
      destruct (IH (i + 1) ltac:(lia)) as [[K N] | (B & (g & G & Gn) & F)].
      * left. split; [exact K |]. intros g [<- | G]; [exact E | exact (N g G)].
      * right.
        assert (S : Z.to_nat (find_field rest f (i + 1) - i)
                    = S (Z.to_nat (find_field rest f (i + 1) - (i + 1))))
          by lia.
        split; [cbn [List.length]; lia |]. split.
        -- exists g. rewrite S. cbn [nth_error]. split; assumption.
        -- intros j h Hj. rewrite S in Hj. destruct j as [| j]; cbn [nth_error].
           ++ intros H. injection H as <-. exact E.
           ++ apply F. lia.
Qed.

(** X18.  The search for a field in a structure layout gives the position
    of the first field of that name, counted from 0, and -1 exactly when
    the layout has no field of that name. *)
Theorem find_field_first (fields : list FieldSpec) (f : string) :
  let k := find_field fields f 0 in
  (k = -1 /\ forall fld, In fld fields -> field_name fld <> f)
  \/ (0 <= k < Z.of_nat (List.length fields)
      /\ (exists fld, nth_error fields (Z.to_nat k) = Some fld
                      /\ field_name fld = f)
      /\ forall j fld, (j < Z.to_nat k)%nat ->
                       nth_error fields j = Some fld -> field_name fld <> f).
Proof.
  pose proof (find_field_from fields f 0 ltac:(lia)) as H. cbv zeta in H |- *.
  rewrite Z.sub_0_r in H. exact H.
Qed.

Lemma find_fieldsym_no_member (this lv : ASTNode) (sid fid : Z)
  (structsym : M (string * TypeSpec)) (comp : OSLCompilerImpl) :
  lvalue this = Some lv ->
  named_component (typespec lv) (fieldname this) = false ->
  TS.is_structure (typespec lv) = false ->
  TS.is_structure_array (typespec lv) = false ->
  find_fieldsym_body this sid fid structsym comp
  = Some (mkFieldSym None sid fid this,
          mkCompiler (filename comp) (lineno comp) (symtab comp)
            (diagnostics comp
             ++ [mkDiagnostic Error (m_sourcefile this) (m_sourceline this)
                              (no_member (typespec lv) (field this))])
            (calls comp)).
Proof.
  intros L NC S SA.
  unfold find_fieldsym_body. unfold bind at 1. unfold get at 1. cbv beta iota.
  rewrite L. unfold bind at 1. cbn [deref ret]. cbv beta zeta.
  unfold named_component in NC. apply orb_false_elim in NC.
  destruct NC as [NC1 NC2]. rewrite NC1, NC2, S, SA. cbn [negb andb].
  reflexivity.
Qed.

(** X19.  Selecting a member of something that has none.  On a base that
    is no structure and no array of structures, with a field that is not
    one of its named components, the struct-select node is built with an
    unknown type, no field symbol, no component index, the ids -1 it
    started with, and is no lvalue; exactly one error is reported, which
    names the type of the base and the field.  Without a base the
    constructor crashes. *)
Theorem select_on_non_struct (comp : OSLCompilerImpl) (lv : ASTNode)
  (fld : string) :
  named_component (typespec lv) fld = false ->
  TS.is_structure (typespec lv) = false ->
  TS.is_structure_array (typespec lv) = false ->
  ASTstructselect None fld comp = None
  /\ exists this comp',
       ASTstructselect (Some lv) fld comp = Some (this, comp')
       /\ nodetype this = structselect_node
       /\ m_children this = [Some lv]
       /\ typespec this = TypeSpec_default
       /\ m_is_lvalue this = false
       /\ fieldsym this = None /\ compindex this = None
       /\ structid this = -1 /\ fieldid this = -1
       /\ symtab comp' = symtab comp /\ calls comp' = calls comp
       /\ diagnostics comp'
          = (diagnostics comp
             ++ [mkDiagnostic Error (filename comp) (lineno comp)
                              (no_member (typespec lv) fld)])%list.
Proof.
  intros NC S SA. split; [reflexivity |].
  pose (this0 := ASTNode_ (ASTstructselect_ fld (-1) (-1) fld None None)
                          comp 0 [Some lv]).
  unfold ASTstructselect, find_fieldsym.
  unfold bind at 1. unfold get at 1. cbv beta iota. fold this0.
  unfold bind at 1.
  rewrite (find_fieldsym_no_member this0 lv _ _ _ comp eq_refl NC S SA).
  do 2 eexists. split; [reflexivity |]. repeat split; reflexivity.
Qed.

(** X20.  A named component of an element of an array, as in
    [colorarray[i].r].  The base of the selection is a one-index node
    over an array of triples; the index node that the selection
    synthesizes does not sit on top of that node but takes its place: it
    has the array, the index of the element and the literal of the
    component as its three children.  It is a float, and so is the
    selection; nothing is reported. *)
Theorem component_of_array_element (comp : OSLCompilerImpl)
  (arr lv : ASTNode) (idx : ref) (fld : string) (k : Z) :
  nodetype lv = index_node ->
  m_children lv = [Some arr; idx] ->
  TS.is_array (typespec arr) = true ->
  typespec lv = TS.elementtype (typespec arr) ->
  (TS.is_color (typespec lv) = true
   /\ In (fld, k) [("r", 0); ("g", 1); ("b", 2)])
  \/ (TS.is_vectriple (typespec lv) = true
      /\ In (fld, k) [("x", 0); ("y", 1); ("z", 2)]) ->
  exists this ci,
    ASTstructselect (Some lv) fld comp = Some (this, comp)
    /\ lvalue this = Some lv
    /\ compindex this = Some ci
    /\ nodetype ci = index_node
    /\ m_children ci = [Some arr; idx; Some (ASTliteral_int comp k)]
    /\ typespec ci = TypeSpec_of TypeFloat
    /\ typespec this = TypeSpec_of TypeFloat
    /\ m_is_lvalue this = true
    /\ fieldsym this = None /\ fieldid this = k.
Proof.
  intros N Cs A T H.
  assert (TO : takes_over_base lv None = true).
  { unfold takes_over_base, nchildren. rewrite N, Cs. reflexivity. }
  assert (LV : lvalue lv = Some arr).
  { unfold lvalue, child. rewrite Cs. reflexivity. }
  destruct (ASTindex_built comp lv (ASTliteral_int comp k) None None
              (fun _ => eq_refl)
              (fun _ (E : lvalue lv = None) =>
                 eq_ind (lvalue lv)
                        (fun r => match r with Some _ => True | None => False end)
                        ltac:(rewrite LV; exact I) None E))
    as (ci & comp' & base & E & Nci & L & _ & K & Tb & U & _ & _).
  destruct (K TO) as [B Cci]. rewrite LV in B. injection B as <-.
  assert (C1 : child lv 1 = idx) by (unfold child; rewrite Cs; reflexivity).
  rewrite C1 in Cci.
  destruct (triple_no_closure (typespec lv)) as [_ Tr];
    [destruct H as [[H _] | [H _]]; auto |].
  assert (Tf : typespec ci = TypeSpec_of TypeFloat).
  { destruct Tb as (_ & _ & _ & T4 & _). apply T4.
    - unfold nchildren. rewrite Cci. reflexivity.
    - exact A.
    - rewrite <- T. exact Tr. }
  assert (comp' = comp) as -> by (apply U; rewrite Tf; reflexivity).
  pose (this0 := ASTNode_ (ASTstructselect_ fld (-1) (-1) fld None None)
                          comp 0 [Some lv]).
  exists (set_typespec
            (set_class (set_is_lvalue (set_compindex this0 (Some ci)) true)
               (ASTstructselect_ fld (-1) k fld None (Some ci)))
            (TypeSpec_of TypeFloat)), ci.
  split.
  - unfold ASTstructselect, find_fieldsym.
    unfold bind at 1. unfold get at 1. cbv beta iota. fold this0.
    unfold bind at 1.
    rewrite (find_fieldsym_component this0 lv ci _ _ k fld _ comp comp
               eq_refl eq_refl H E).
    reflexivity.
  - split; [reflexivity |]. split; [reflexivity |]. split; [exact Nci |].
    split; [exact Cci |]. split; [exact Tf |]. repeat split; reflexivity.
Qed.

Lemma find_fieldsym_struct (this lv : ASTNode) (sid fid : Z)
  (structsym : M (string * TypeSpec)) (comp : OSLCompilerImpl)
  (structname : string) (spec : StructSpec) :
  lvalue this = Some lv ->
  named_component (typespec lv) (fieldname this) = false ->
  TS.is_structure (typespec lv) || TS.is_structure_array (typespec lv) = true ->
  structsym comp = Some ((structname, typespec lv), comp) ->
  structspec (TS.structure (typespec lv)) = Some spec ->
  let k := find_field (struct_fields spec) (field this) 0 in
  find_fieldsym_body this sid fid structsym comp
  = Some (mkFieldSym
            (if k <? 0 then None
             else symtab_find (symtab comp) (structname ++ "." ++ field this))
            (TS.structure (typespec lv)) k this,
          if k <? 0
          then mkCompiler (filename comp) (lineno comp) (symtab comp)
                 (diagnostics comp
                  ++ [mkDiagnostic Error (m_sourcefile this) (m_sourceline this)
                                   (no_struct_member spec (field this))])
                 (calls comp)
          else comp).
Proof.
  intros L NC S E SP k.
  unfold find_fieldsym_body. unfold bind at 1. unfold get at 1. cbv beta iota.
  rewrite L. unfold bind at 1. cbn [deref ret]. cbv beta zeta.
  unfold named_component in NC. apply orb_false_elim in NC.
  destruct NC as [NC1 NC2]. rewrite NC1, NC2.
  replace (negb (TS.is_structure (typespec lv))
           && negb (TS.is_structure_array (typespec lv))) with false
    by (destruct (TS.is_structure (typespec lv)),
                 (TS.is_structure_array (typespec lv));
        try discriminate S; reflexivity).
  unfold bind at 1. rewrite E. cbv beta iota.
  unfold bind at 1. rewrite SP. cbn [deref ret]. cbv beta iota. fold k.
  pose proof (find_field_from (struct_fields spec) (field this) 0 ltac:(lia))
    as F. cbv zeta in F. fold k in F.
  destruct F as [[K _] | (B & (g & G & Gn) & _)].
  - rewrite K. reflexivity.
  - replace (k <? 0) with false by (symmetry; apply Z.ltb_ge; lia).
    rewrite Z.sub_0_r in G. unfold bind at 1. rewrite G. cbn [deref ret].
    cbv beta iota. rewrite Gn. reflexivity.
Qed.

(** X21.  Selecting a field of a structure variable.  The node gets the
    id of the structure and the position of the field in its layout.  When
    the layout has no such field, one error names the structure and the
    field, and the node has no type.  When it has, nothing is reported and
    the node takes the symbol found under [variable.field] with its name
    and its type; if the symbol table has no such symbol the node is left
    without a type and without a diagnostic.  The node is never marked as
    an lvalue and has no component index. *)
Theorem select_struct_field (comp : OSLCompilerImpl) (lv : ASTNode)
  (fld : string) (spec : StructSpec) :
  nodetype lv = variable_ref_node ->
  named_component (typespec lv) fld = false ->
  TS.is_structure (typespec lv) || TS.is_structure_array (typespec lv) = true ->
  structspec (TS.structure (typespec lv)) = Some spec ->
  let k := find_field (struct_fields spec) fld 0 in
  let found := symtab_find (symtab comp) (name lv ++ "." ++ fld) in
  exists this comp',
    ASTstructselect (Some lv) fld comp = Some (this, comp')
    /\ structid this = TS.structure (typespec lv) /\ fieldid this = k
    /\ compindex this = None /\ m_is_lvalue this = false
    /\ (k < 0 ->
        fieldsym this = None /\ typespec this = TypeSpec_default
        /\ diagnostics comp'
           = (diagnostics comp
              ++ [mkDiagnostic Error (filename comp) (lineno comp)
                               (no_struct_member spec fld)])%list)
    /\ (0 <= k ->
        comp' = comp /\ fieldsym this = found
        /\ typespec this = match found with
                           | Some s => sym_typespec s
                           | None => TypeSpec_default
                           end
        /\ fieldname this = match found with
                            | Some s => sym_name s
                            | None => fld
                            end).
Proof.
  intros N NC S SP k found.
  pose (this0 := ASTNode_ (ASTstructselect_ fld (-1) (-1) fld None None)
                          comp 0 [Some lv]).
  assert (SS : bind (deref (lvalue this0)) find_structsym comp
               = Some ((name lv, typespec lv), comp)).
  { unfold bind. cbn [deref ret this0]. 
    replace (lvalue _) with (Some lv) by reflexivity. cbn [deref]. unfold ret.
    destruct lv as [f l o lvl ts cs nx cls].
    destruct cls; try discriminate N. reflexivity. }
  unfold ASTstructselect, find_fieldsym.
  unfold bind at 1. unfold get at 1. cbv beta iota. fold this0.
  unfold bind at 1.
  rewrite (find_fieldsym_struct this0 lv _ _ _ comp (name lv) spec
             eq_refl NC S SS SP).
  replace (field this0) with fld by reflexivity. fold k. fold found.
  destruct (k <? 0) eqn:K.
  - apply Z.ltb_lt in K. do 2 eexists. split; [reflexivity |].
    do 4 (split; [reflexivity |]). split; [| intros; lia].
    intros _. repeat split; reflexivity.
  - apply Z.ltb_ge in K. destruct found as [s |];
      do 2 eexists; (split; [reflexivity |]);
      do 4 (split; [reflexivity |]); (split; [intros; lia |]);
      intros _; repeat split; reflexivity.
Qed.

(** ** Function calls *)

Section CallProperties.

Variable is_structure : Symbol -> bool.

(** X23.  A function call node is always built, over its argument list.
    The symbol it keeps is the one given, or else the one its name finds,
    and only when that symbol makes a structure or is a function: a node
    never keeps a symbol that is neither.  A node that keeps its symbol
    reports nothing; a node without one reports exactly one error, [not
    declared] when there was no symbol at all and [not a function] when
    the symbol was dropped.  When a symbol is given the symbol table is
    not asked. *)
Theorem function_call_symbol (nm : string) (args : ref)
  (funcsym : option Symbol) (comp : OSLCompilerImpl) :
  let resolved := match funcsym with
                  | Some f => Some f
                  | None => symtab_find (symtab comp) nm
                  end in
  let callable := fun s => is_structure s
                           || SymType_beq (sym_symtype s) SymTypeFunction in
  exists n comp',
    ASTfunction_call is_structure nm args funcsym comp = Some (n, comp')
    /\ nodetype n = function_call_node /\ m_children n = [args]
    /\ name n = nm
    /\ sym n = match resolved with
               | Some s => if callable s then Some s else None
               | None => None
               end
    /\ symtab comp' = symtab comp /\ calls comp' = calls comp
    /\ diagnostics comp'
       = (diagnostics comp
          ++ match resolved with
             | Some s =>
                 if callable s then []
                 else [mkDiagnostic Error (filename comp) (lineno comp)
                                    (not_a_function nm)]
             | None => [mkDiagnostic Error (filename comp) (lineno comp)
                                     (not_declared_function nm)]
             end)%list
    /\ (forall s, sym n = Some s ->
                  comp' = comp
                  /\ (is_structure s = true
                      \/ sym_symtype s = SymTypeFunction)).
Proof.
  cbv zeta. unfold ASTfunction_call, bind, get.
  destruct (match funcsym with
            | Some f => Some f
            | None => symtab_find (symtab comp) nm
            end) as [s |].
  - destruct (is_structure s) eqn:IS; cbn [orb].
    + unfold ret. do 2 eexists. split; [reflexivity |].
      do 6 (split; [reflexivity |]).
      split; [symmetry; apply app_nil_r |].
      intros s' H. injection H as <-. split; [reflexivity |]. left. exact IS.
    + destruct (SymType_beq (sym_symtype s) SymTypeFunction) eqn:F;
        cbn [negb]; unfold errorfmt, report, ret.
      * do 2 eexists. split; [reflexivity |].
        do 6 (split; [reflexivity |]).
        split; [symmetry; apply app_nil_r |].
        intros s' H. injection H as <-. split; [reflexivity |]. right.
        destruct (sym_symtype s); try discriminate F; reflexivity.
      * do 2 eexists. split; [reflexivity |].
        do 6 (split; [reflexivity |]). split; [reflexivity |].
        intros s' H. discriminate H.
  - unfold errorfmt, report, ret. do 2 eexists. split; [reflexivity |].
    do 6 (split; [reflexivity |]). split; [reflexivity |].
    intros s' H. discriminate H.
Qed.

End CallProperties.

(** ** Names of children *)

(** X24.  The table of child names of an index node has three entries.
    A node built with one or two indices, rearranged or not, has a name
    for each of its children; a node built with three indices has four
    children, and its last child is beyond the table.  So the children of
    an index node all have names exactly when no third index is given. *)
Theorem index_children_named (comp : OSLCompilerImpl) (expr index : ASTNode)
  (index2 index3 : ref) :
  (index2 = None -> index3 = None) ->
  (takes_over_base expr index2 = true -> lvalue expr <> None) ->
  exists this comp',
    ASTindex expr (Some index) index2 index3 comp = Some (this, comp')
    /\ (2 <= nchildren this <= 4)%nat
    /\ ((forall i, (i < nchildren this)%nat -> table_childname this i <> None)
        <-> index3 = None).
Proof.
  intros H23 HL.
  destruct (ASTindex_built comp expr index index2 index3 H23 HL)
    as (this & comp' & base & E & N & _ & K0 & K1 & _).
  exists this, comp'. split; [exact E |].
  unfold table_childname. rewrite N. cbn [childname_table].
  unfold nchildren.
  destruct (takes_over_base expr index2) eqn:T.
  - destruct (K1 eq_refl) as [_ Cs]. rewrite Cs. cbn [List.length].
    assert (index2 = None) as ->.
    { unfold takes_over_base in T. destruct index2; [discriminate T |].
      reflexivity. }
    rewrite (H23 eq_refl). split; [lia |]. split; [reflexivity |].
    intros _ i Hi. destruct i as [| [| [| i]]]; cbn; try discriminate. lia.
  - destruct (K0 eq_refl) as [_ Cs]. rewrite Cs.
    destruct index2 as [i2 |]; [| rewrite (H23 eq_refl)];
      [destruct index3 as [i3 |] |]; cbn [not_null app List.length].
    + split; [lia |]. split; [| discriminate].
      intros H. exfalso. apply (H 3%nat); [lia | reflexivity].
    + split; [lia |]. split; [reflexivity |].
      intros _ i Hi. destruct i as [| [| [| i]]]; cbn; try discriminate. lia.
    + split; [lia |]. split; [reflexivity |].
      intros _ i Hi. destruct i as [| [| i]]; cbn; try discriminate. lia.
Qed.

(** X25.  A loop node always has its four children, each with a name in
    the table of the class, and its second child, the condition, is never
    missing: it is the condition given or, for a loop without one, an
    [int] literal of value 1 made at the position of the compiler.  The
    constructor reports nothing. *)
Theorem loop_statement_children (comp : OSLCompilerImpl) (looptype : Z)
  (init cond iter stmt : ref) :
  exists n c,
    ASTloop_statement looptype init cond iter stmt comp = Some (n, comp)
    /\ nodetype n = loop_statement_node /\ m_op n = looptype
    /\ m_children n = [init; Some c; iter; stmt]
    /\ (forall i, (i < nchildren n)%nat -> table_childname n i <> None)
    /\ match cond with
       | Some given => c = given
       | None => nodetype c = literal_node /\ intval c = Some 1
                 /\ TS.is_int (typespec c) = true
                 /\ m_sourceline c = lineno comp
       end.
Proof.
  unfold ASTloop_statement, bind, get, ret.
  destruct cond as [c |]; do 2 eexists;
    (split; [reflexivity |]); do 3 (split; [reflexivity |]);
    (split; [| repeat split; reflexivity]);
    intros i Hi; destruct i as [| [| [| [| i]]]]; cbn; try discriminate;
    cbn in Hi; lia.
Qed.

(** ** Formals that are no declarations *)

Lemma not_variable_declaration (v : ASTNode) :
  is_variable_declaration v = false <-> nodetype v <> variable_declaration_node.
Proof.
  unfold is_variable_declaration.
  destruct (nodetype v); split; intros H; try reflexivity; try discriminate;
    try discriminate H; exfalso; apply H; reflexivity.
Qed.

Lemma for_each_shader_formals_asserts (formals : list ASTNode) :
  forall comp,
    for_each check_shader_formal formals comp = None
    <-> exists v, In v formals /\ is_variable_declaration v = false.
Proof.
  induction formals as [| a rest IH]; intros comp.
  - split; [discriminate | intros (v & [] & _)].
  - cbn [for_each]. unfold bind.
    destruct (is_variable_declaration a) eqn:V.
    + destruct (check_shader_formal_reports a comp V) as (c1 & E1 & _).
      rewrite E1. rewrite IH. split.
      * intros (v & I & N). exists v. split; [right; exact I | exact N].
      * intros (v & [<- | I] & N); [rewrite V in N; discriminate N |].
        exists v. split; assumption.
    + unfold check_shader_formal at 1. rewrite V. cbv [bind OSL_ASSERT abort].
      split; [| reflexivity]. intros _. exists a. split; [left; reflexivity |].
      exact V.
Qed.

(** X26.  The constructor of a shader declaration stops on its assertion
    exactly when one of the formals is no variable declaration; with
    formals that are all declarations it always returns. *)
Theorem shader_declaration_asserts (comp : OSLCompilerImpl) (stype : Z)
  (shadername : string) (form stmts meta : ref) :
  ASTshader_declaration stype shadername form stmts meta comp = None
  <-> exists v, In v (list_to_vec form)
                /\ nodetype v <> variable_declaration_node.
Proof.
  unfold ASTshader_declaration, bind, get.
  destruct (for_each check_shader_formal (list_to_vec form) comp)
    as [[u c] |] eqn:E.
  - split; [discriminate |]. intros (v & I & N).
    assert (X : for_each check_shader_formal (list_to_vec form) comp = None).
    { apply for_each_shader_formals_asserts. exists v. split; [exact I |].
      apply not_variable_declaration. exact N. }
    rewrite X in E. discriminate E.
  - split; [| reflexivity]. intros _.
    apply for_each_shader_formals_asserts in E. destruct E as (v & I & N).
    exists v. split; [exact I |]. apply not_variable_declaration. exact N.
Qed.

Lemma formal_argcodes_asserts (formals : list ASTNode) :
  forall argcodes comp,
    formal_argcodes formals argcodes comp = None
    <-> exists pre a post,
          formals = (pre ++ a :: post)%list
          /\ Forall (fun x => TypeSpec_eqb (typespec x) TypeSpec_default = false)
                    pre
          /\ TypeSpec_eqb (typespec a) TypeSpec_default = false
          /\ is_variable_declaration a = false.
Proof.
  induction formals as [| x rest IH]; intros argcodes comp.
  - split; [discriminate |]. intros (pre & a & post & E & _).
    destruct pre; discriminate E.
  - cbn [formal_argcodes].
    destruct (TypeSpec_eqb (typespec x) TypeSpec_default) eqn:T.
    + split; [discriminate |]. intros (pre & a & post & E & P & Ta & _).
      destruct pre as [| y pre]; cbn [app] in E; injection E as <- _.
      * rewrite T in Ta. discriminate Ta.
      * apply Forall_inv in P. rewrite T in P. discriminate P.
    + destruct (is_variable_declaration x) eqn:V.
      * assert (S : forall k : M (option string),
                   bind (OSL_ASSERT true)
                        (fun _ => bind (if not_null (init x)
                                        then errorfmt x (may_not_have_initializer x)
                                        else ret tt)
                                       (fun _ => k)) comp = None
                   -> exists c, k c = None).
        { intros k. destruct (not_null (init x));
            cbv [bind OSL_ASSERT ret errorfmt report]; intros H; eauto. }
        split.
        -- intros H. apply S in H. destruct H as (c & H).
           apply IH in H. destruct H as (pre & a & post & -> & P & Ta & Va).
           exists (x :: pre), a, post. split; [reflexivity |].
           split; [constructor; assumption |]. split; assumption.
        -- intros (pre & a & post & E & P & Ta & Va).
           destruct pre as [| y pre]; cbn [app] in E; injection E as <- E.
           ++ rewrite V in Va. discriminate Va.
           ++ apply Forall_inv_tail in P.
              assert (R : forall c, formal_argcodes rest
                                      (argcodes ++ code_from_type (typespec x)) c
                                    = None).
              { intros c. apply IH. exists pre, a, post.
                repeat split; assumption. }
              destruct (not_null (init x));
                cbv [bind OSL_ASSERT ret errorfmt report]; apply R.
      * cbv [bind OSL_ASSERT abort]. split; [| reflexivity].
        intros _. exists [], x, rest. split; [reflexivity |].
        split; [constructor |]. split; assumption.
Qed.

(** X27.  The constructor of a function declaration stops on its
    assertion exactly when a formal that is no variable declaration has a
    known type and every formal before it has a known type too.  A formal
    of unknown type is met first and makes the constructor return, so
    nothing after it can fail; and the constructor always returns when
    the formals are declarations. *)
Theorem function_declaration_asserts (comp : OSLCompilerImpl)
  (type : TypeSpec) (nm : string) (form stmts meta : ref) (start : Z) :
  ASTfunction_declaration type nm form stmts meta start comp = None
  <-> exists pre a post,
        list_to_vec form = (pre ++ a :: post)%list
        /\ Forall (fun x => TS.is_unknown (typespec x) = false) pre
        /\ TS.is_unknown (typespec a) = false
        /\ nodetype a <> variable_declaration_node.
Proof.
  assert (R : (exists pre a post,
                 list_to_vec form = (pre ++ a :: post)%list
                 /\ Forall (fun x => TS.is_unknown (typespec x) = false) pre
                 /\ TS.is_unknown (typespec a) = false
                 /\ nodetype a <> variable_declaration_node)
              <-> forall argcodes c,
                    formal_argcodes (list_to_vec form) argcodes c = None).
  { split.
    - intros (pre & a & post & E & P & Ta & Va) argcodes c.
      apply formal_argcodes_asserts. exists pre, a, post.
      split; [exact E |]. split; [exact P |]. split; [exact Ta |].
      apply not_variable_declaration. exact Va.
    - intros H. specialize (H EmptyString comp).
      apply formal_argcodes_asserts in H.
      destruct H as (pre & a & post & E & P & Ta & Va).
      exists pre, a, post. split; [exact E |]. split; [exact P |].
      split; [exact Ta |]. apply not_variable_declaration. exact Va. }
  rewrite R. clear R.
  unfold ASTfunction_declaration. unfold bind at 1. unfold get at 1.
  cbv beta iota zeta.
  destruct (0 <=? start);
    destruct (starts_with nm "___");
    destruct (symtab_clash (symtab comp) nm) as [e |];
    try destruct (SymType_beq (sym_symtype e) SymTypeFunction);
    cbv [bind errorfmt report ret negb];
    match goal with
    | |- context [formal_argcodes _ ?ac ?c] =>
        destruct (formal_argcodes (list_to_vec form) ac c)
          as [[[sig |] c2] |] eqn:E
    end;
    try (split; [intros H; discriminate H |];
         intros H; rewrite H in E; discriminate E);
    try (split; [| reflexivity]; intros _ argcodes c;
         apply formal_argcodes_asserts;
         apply formal_argcodes_asserts in E; exact E);
    destruct (not_null stmts);
    try (match goal with
         | |- context [string_empty ?s] => destruct (string_empty s)
         end);
    cbv [bind warningfmt report insert_symbol record_call ret negb];
    (split; [intros H; discriminate H |]);
    intros H; rewrite H in E; discriminate E.
Qed.

(** ** Constructors that stop *)


(** X29.  An assignment node is built unless the target has a missing
    base on the way to the node that is written, or the operator is
    neither plain assignment nor one a binary expression can carry.  When
    it is built, the compiler changes by at most one diagnostic: the
    warning for writing to a read-only symbol, placed at the position of
    the compiler; the symbol table and the recorded calls stay. *)
Theorem assignment_built_or_not (var : ASTNode) (op : Operator) (expr : ref)
  (comp : OSLCompilerImpl) :
  (ASTassign_expression var op expr comp = None
   <-> written_node var = None
       \/ (op <> Assign /\ is_binary_operator op = false))
  /\ forall n comp',
       ASTassign_expression var op expr comp = Some (n, comp') ->
       exists root,
         written_node var = Some root
         /\ symtab comp' = symtab comp /\ calls comp' = calls comp
         /\ diagnostics comp'
            = (diagnostics comp
               ++ match written_symbol root with
                  | Some d =>
                      if sym_readonly d
                      then [mkDiagnostic Warning (filename comp) (lineno comp)
                                         (cannot_write d)]
                      else []
                  | None => []
                  end)%list.
Proof.
  assert (D : forall this root comp',
             m_sourcefile this = filename comp ->
             m_sourceline this = lineno comp ->
             diagnostics comp'
             = (diagnostics comp
                ++ match written_symbol root with
                   | Some d =>
                       if sym_readonly d
                          && negb (false && negb (is_selection var))
                       then [mkDiagnostic Warning (m_sourcefile this)
                               (m_sourceline this) (cannot_write d)]
                       else []
                   | None => []
                   end)%list ->
             diagnostics comp'
             = (diagnostics comp
                ++ match written_symbol root with
                   | Some d =>
                       if sym_readonly d
                       then [mkDiagnostic Warning (filename comp) (lineno comp)
                                          (cannot_write d)]
                       else []
                   | None => []
                   end)%list).
  { intros this root comp' -> -> ->. destruct (written_symbol root) as [d |];
      [| reflexivity]. destruct (sym_readonly d); reflexivity. }
  unfold ASTassign_expression, bind, get. cbv beta iota.
  destruct (Operator_beq op Assign) eqn:A; cbn [negb].
  - assert (op = Assign) as -> by (destruct op; try discriminate A; reflexivity).
    unfold ret. cbv beta iota.
    match goal with
    | |- context [check_symbol_writeability ?t var false comp] =>
        pose proof (check_symbol_writeability_closed t var false comp) as W;
        set (this := t) in *
    end.
    destruct (written_node var) as [root |].
    + destruct W as (c & R & _ & _ & S & K & Dg). rewrite R.
      split.
      * split; [discriminate |]. intros [H | [H _]];
          [discriminate H | exfalso; apply H; reflexivity].
      * intros n comp' H.
        assert (comp' = c) as -> by congruence. clear H. exists root.
        split; [reflexivity |]. split; [exact S |]. split; [exact K |].
        exact (D this root c eq_refl eq_refl Dg).
    + rewrite W. split; [split; [left; reflexivity | reflexivity] |].
      intros n comp' H. discriminate H.
  - assert (NA : op <> Assign) by (intros ->; discriminate A).
    destruct (is_binary_operator op) eqn:B.
    + destruct (binary_expression_node_built comp op (Some var) expr B)
        as (b & Eb & _).
      rewrite Eb. unfold ret. cbv beta iota.
      match goal with
      | |- context [check_symbol_writeability ?t var false comp] =>
          pose proof (check_symbol_writeability_closed t var false comp) as W;
          set (this := t) in *
      end.
      destruct (written_node var) as [root |].
      * destruct W as (c & R & _ & _ & S & K & Dg). rewrite R.
        split.
        -- split; [discriminate |]. intros [H | [_ H]]; discriminate H.
        -- intros n comp' H.
        assert (comp' = c) as -> by congruence. clear H. exists root.
           split; [reflexivity |]. split; [exact S |]. split; [exact K |].
           exact (D this root c eq_refl eq_refl Dg).
      * rewrite W. split; [split; [left; reflexivity | reflexivity] |].
        intros n comp' H. discriminate H.
    + assert (Eb : ASTbinary_expression op (Some var) expr comp = None).
      { unfold ASTbinary_expression, bind, get.
        unfold is_binary_operator in B.
        destruct op; try discriminate B; try (exfalso; apply NA; reflexivity);
          reflexivity. }
      rewrite Eb.
      split; [split; [intros _; right; split; [exact NA | reflexivity]
                     | reflexivity] |].
      intros n comp' H. discriminate H.
Qed.

End FurtherProperties.

(** * The further properties at work on the small program *)

Section FurtherExamples.

Import Reference.
Import Sample.

(** [++Kd] on the parameter [Kd] is built, with one warning at line 7. *)
Lemma incdec_warns_at_operator_witness :
  exists n comp',
    ASTpreincdec (C := collaborators) (Operator_code Incr) Kd_ref compiler
    = Some (n, comp')
    /\ m_children n = [Some Kd_ref]
    /\ diagnostics comp'
       = [mkDiagnostic Warning "shaders/test.osl" 7 (cannot_write Kd)].
Proof.
  destruct (incdec_warns_at_operator (C := collaborators) true
              (Operator_code Incr) Kd_ref Kd_ref compiler eq_refl)
    as (n & comp' & E & _ & _ & Cs & _ & _ & D).
  exists n, comp'. split; [exact E |]. split; [exact Cs | exact D].
Defined.

(** [1 + 2] is folded, and what was folded were two [int] literals. *)
Lemma make_folds_only_like_literals_witness :
  make (C := collaborators) Add one two compiler
  = Some (ASTliteral_int compiler 3, compiler)
  /\ nodetype one = literal_node /\ nodetype two = literal_node
  /\ TS.is_int (typespec one) = true /\ TS.is_int (typespec two) = true.
Proof.
  assert (E : make (C := collaborators) Add one two compiler
              = Some (ASTliteral_int compiler 3, compiler)) by reflexivity.
  assert (N : nodetype (ASTliteral_int (C := collaborators) compiler 3)
              <> binary_expression_node) by discriminate.
  destruct (make_folds_only_like_literals (C := collaborators) Add one two
              (ASTliteral_int compiler 3) compiler compiler E N)
    as (_ & L & R & [(IL & IR & _) | (FL & _)]).
  - split; [exact E |]. repeat split; assumption.
  - discriminate FL.
Defined.

(** [1 && 2] is not folded. *)
Lemma make_logical_never_folds_witness :
  exists n,
    make (C := collaborators) And one two compiler = Some (n, compiler)
    /\ nodetype n = binary_expression_node
    /\ m_children n = [Some one; Some two]
    /\ function_overload n = None.
Proof.
  destruct (make_logical_never_folds (C := collaborators) And one two compiler
              (or_introl eq_refl))
    as (n & E & N & _ & Cs & F).
  exists n. repeat split; assumption.
Defined.

(** With a user's [__operator__add__] in scope, [1 + 2] remembers it. *)
Lemma binary_overload_is_function_witness :
  exists n,
    ASTbinary_expression (C := collaborators) Add (Some one) (Some two)
      overloading_compiler
    = Some (n, overloading_compiler)
    /\ function_overload n = Some operator_add.
Proof.
  destruct (proj1 (binary_overload_is_function (C := collaborators) Add
                     (Some one) (Some two) overloading_compiler)
              "add" ltac:(cbn; tauto))
    as (n & E & _ & _ & _ & F & _).
  exists n. split; [exact E | exact F].
Defined.

(** [Cs += 1] is an assignment node named [=]. *)
Lemma assign_node_is_plain_witness :
  exists n comp',
    ASTassign_expression (C := collaborators) Cs_ref Add (Some one) compiler
    = Some (n, comp')
    /\ assign_opname (m_op n) = Some "=".
Proof.
  destruct (ASTassign_expression (C := collaborators) Cs_ref Add (Some one)
              compiler) as [[n c] |] eqn:E;
    [| vm_compute in E; discriminate E].
  exists n, c. split; [reflexivity |].
  exact (proj1 (proj2 (proj2
           (assign_node_is_plain (C := collaborators) Cs_ref Add (Some one)
              compiler c n E)))).
Defined.

(** A definition of [float noise (float x)] in the global scope, where the
    built-in [noise] of the same signature lives: the new symbol is
    registered behind a warning and chains to the built-in. *)
Lemma function_declaration_registers_witness :
  exists this comp' s,
    ASTfunction_declaration (C := collaborators) (TypeSpec_of TypeFloat)
      "noise" (Some float_x) (Some one) None 5 global_compiler
    = Some (this, comp')
    /\ sym this = Some s
    /\ sym_argcodes s = "ff" /\ sym_nextpoly s = Some noise
    /\ calls comp' = [Call_typecheck this (TypeSpec_of TypeFloat)]
    /\ List.length (diagnostics comp') = 1%nat.
Proof.
  destruct (function_declaration_registers (C := collaborators) global_compiler
              (TypeSpec_of TypeFloat) "noise" (Some float_x) (Some one) None 5
              (Forall_cons float_x (conj eq_refl eq_refl) (Forall_nil _)))
    as (this & comp' & s & errors & E & _ & _ & _ & S & _ & _ & _ & A & P & _
        & K & D & F).
  exists this, comp', s. split; [exact E |]. split; [exact S |].
  split; [exact A |]. split; [exact P |]. split; [exact K |].
  rewrite D. cbn [diagnostics global_compiler app].
  destruct errors as [| e errors]; [reflexivity |].
  exfalso.
  assert (L : List.length (diagnostics comp') = 1%nat)
    by (injection E as _ <-; reflexivity).
  rewrite D in L. cbn in L. rewrite length_app in L. cbn in L. lia.
Defined.

(** A local named [__debug_tmp__x] is declared as a temporary, and its
    symbol goes into the symbol table. *)
Lemma variable_declaration_symbol_witness :
  exists n comp' s,
    ASTvariable_declaration (C := collaborators) (TypeSpec_of TypeFloat)
      "__debug_tmp__x" None false false false false (-1) compiler
    = Some (n, comp')
    /\ sym n = Some s /\ sym_name s = "__debug_tmp__x"
    /\ sym_symtype s = SymTypeTemp
    /\ find (symtab comp') "__debug_tmp__x" <> None.
Proof.
  destruct (ASTvariable_declaration (C := collaborators) (TypeSpec_of TypeFloat)
              "__debug_tmp__x" None false false false false (-1) compiler)
    as [[n c] |] eqn:E; [| vm_compute in E; discriminate E].
  destruct (variable_declaration_symbol (C := collaborators) _ _ _ _ _ _ _ _
              _ _ _ E)
    as (s & S & _ & _ & _ & _ & _ & Nm & _ & Ty & _ & _ & T).
  exists n, c, s. split; [reflexivity |]. split; [exact S |].
  split; [exact Nm |]. split; [exact Ty |].
  rewrite (T eq_refl eq_refl). discriminate.
Defined.

(** [Kd.x] on the float [Kd]: one error, no type. *)
Lemma select_on_non_struct_witness :
  exists this comp',
    ASTstructselect (C := collaborators) (Some Kd_ref) "x" compiler
    = Some (this, comp')
    /\ typespec this = TypeSpec_default
    /\ diagnostics comp'
       = [mkDiagnostic Error "shaders/test.osl" 7
            "type 'float' does not have a member 'x'"].
Proof.
  destruct (select_on_non_struct (C := collaborators) compiler Kd_ref "x"
              eq_refl eq_refl eq_refl)
    as (_ & this & comp' & E & _ & _ & T & _ & _ & _ & _ & _ & _ & _ & D).
  exists this, comp'. split; [exact E |]. split; [exact T | exact D].
Defined.

(** [colors[2].g] is the index node [colors[2][1]]. *)
Lemma component_of_array_element_witness :
  exists this ci,
    ASTstructselect (C := collaborators) (Some colors_two) "g" compiler
    = Some (this, compiler)
    /\ compindex this = Some ci
    /\ m_children ci
       = [Some colors_ref; Some two; Some (ASTliteral_int compiler 1)]
    /\ typespec ci = TypeSpec_of TypeFloat.
Proof.
  destruct (component_of_array_element (C := collaborators) compiler colors_ref
              colors_two (Some two) "g" 1 eq_refl eq_refl eq_refl eq_refl
              (or_introl (conj eq_refl (or_intror (or_introl eq_refl)))))
    as (this & ci & E & _ & Ci & _ & Cs & T & _).
  exists this, ci. repeat split; assumption.
Defined.

(** [r.dir] on the structure variable [r] is the symbol [r.dir], the
    second field of [ray]. *)
Lemma select_struct_field_witness :
  exists this,
    ASTstructselect (C := with_structs) (Some r_ref) "dir" struct_compiler
    = Some (this, struct_compiler)
    /\ structid this = 1 /\ fieldid this = 1
    /\ fieldsym this = Some r_dir
    /\ typespec this = TypeSpec_of TypeVector.
Proof.
  destruct (select_struct_field (C := with_structs) struct_compiler r_ref "dir"
              ray eq_refl eq_refl eq_refl eq_refl)
    as (this & comp' & E & S & F & _ & _ & _ & H).
  destruct (H ltac:(vm_compute; discriminate)) as (-> & Fs & T & _).
  exists this. split; [exact E |]. split; [exact S |]. split; [exact F |].
  split; [exact Fs | exact T].
Defined.

(** The two children of [Cs[1]] have names. *)
Lemma index_children_named_witness :
  exists this comp',
    ASTindex (C := collaborators) Cs_ref (Some one) None None compiler
    = Some (this, comp')
    /\ forall i, (i < nchildren this)%nat -> table_childname this i <> None.
Proof.
  destruct (index_children_named (C := collaborators) compiler Cs_ref one
              None None (fun _ => eq_refl)
              ltac:(intros H; discriminate H))
    as (this & comp' & E & _ & [_ H]).
  exists this, comp'. split; [exact E | exact (H eq_refl)].
Defined.


End FurtherExamples.
